(** * Review Board: the review-request lifecycle of [reviews/models.py]

    A shallow embedding of the review-request workflow of
    [reviewboard/reviews/models.py]: the string helpers ([truncate],
    [get_bug_list], the issue-status codes), the access predicates
    ([Group.is_accessible_by], [ReviewRequest.is_accessible_by]), the
    default-reviewer matcher, the draft publish algorithm and the
    lifecycle operations ([save], [_update_counts], [publish], [close],
    [reopen], [delete]) over an explicit store.

    Python values are modelled as the code has them: [str] as [string],
    [int] as [Z], a database table as a [gmap] from primary keys to rows,
    a many-to-many relation as a [gset] of primary keys, an exception as
    a constructor of [exn] threaded through a state-and-exception monad
    in which a raised exception keeps the store as mutated so far. *)

From Stdlib Require Import ZArith String Ascii List Sorting Permutation Lia.
From stdpp Require Import base option gmap sets list strings sorting.

Local Open Scope string_scope.
Local Open Scope Z_scope.

(** ** Python string primitives *)

Module Py.

(** [s[0:n]]: the first [n] characters; a negative [n] counts from the
    end of the string, as Python slices do. *)
Definition slice_to (s : string) (n : Z) : string :=
  if n <? 0
  then substring 0 (Z.to_nat (Z.of_nat (String.length s) + n)) s
  else substring 0 (Z.to_nat n) s.

(** [find_last c s i best]: scanning [s] from index [i], the highest
    index holding [c], or [best] when there is none. *)
Fixpoint find_last (c : ascii) (s : string) (i best : Z) : Z :=
  match s with
  | EmptyString => best
  | String a s' =>
      find_last c s' (i + 1) (if Ascii.eqb a c then i else best)
  end.

(** [s.rfind(c)] for a one-character needle: the highest index of [c]
    in [s], or [-1]. *)
Definition rfind (s : string) (c : ascii) : Z := find_last c s 0 (-1).

(** [x or ""] on an optional string. *)
Definition or_empty (o : option string) : string :=
  match o with
  | Some s => s
  | None => ""
  end.

(** [s.strip()]: whitespace removed at both ends. *)
Definition is_space (a : ascii) : bool :=
  let n := nat_of_ascii a in
  ((9 <=? n)%nat && (n <=? 13)%nat) || (n =? 32)%nat.

Fixpoint lstrip (s : string) : string :=
  match s with
  | EmptyString => EmptyString
  | String a s' => if is_space a then lstrip s' else s
  end.

Fixpoint rstrip (s : string) : string :=
  match s with
  | EmptyString => EmptyString
  | String a s' =>
      match rstrip s' with
      | EmptyString => if is_space a then EmptyString else String a EmptyString
      | r => String a r
      end
  end.

Definition strip (s : string) : string := rstrip (lstrip s).

End Py.

(** ** Module-level helpers *)

(** [MAX_SUMMARY_LENGTH = 300] *)
Definition MAX_SUMMARY_LENGTH : Z := 300.

(** [truncate(string, num)] *)
Definition truncate (s : string) (num : Z) : string :=
  if num <? Z.of_nat (String.length s) then
    let s := Py.slice_to s num in
    let i := Py.rfind s "." in
    if negb (i =? -1) then Py.slice_to s (i + 1) else s
  else s.

(** ** Issue status codes ([BaseComment]) *)

Inductive exn : Type :=
  | PermissionError
  | AttributeError (msg : string)
  | DoesNotExist
  | ValueError
  | AssertionError
  | RegexError
  | Exception (msg : string).

Module BaseComment.

Definition OPEN : string := "O".
Definition RESOLVED : string := "R".
Definition DROPPED : string := "D".

Definition issue_status_to_string (status : string) : string :=
  if String.eqb status "O" then "open"
  else if String.eqb status "R" then "resolved"
  else if String.eqb status "D" then "dropped"
  else "".

Definition issue_string_to_status (status : string) : exn + string :=
  if String.eqb status "open" then inr "O"
  else if String.eqb status "resolved" then inr "R"
  else if String.eqb status "dropped" then inr "D"
  else inl (Exception ("Invalid issue status '" ++ status ++ "'")).

End BaseComment.

(** ** Python builtins the module calls

    [int(x)] on a string and the [re] module are the interpreter's, not
    this repository's: the model takes them as an interface.  [py_int]
    is [None] where [int] raises [ValueError]; [re_compile] is [None]
    where [re.compile] raises [re.error]. *)

Class Builtins := {
  py_int : string → option Z;
  regex : Type;
  re_compile : string → option regex;
  re_match : regex → string → bool
}.

(** ** Bug lists: [get_bug_list] *)

Module BugList.

(** The separator class of the pattern [[, ]+]. *)
Definition is_sep (a : ascii) : bool :=
  Ascii.eqb a "," || Ascii.eqb a " ".

(** [re.split(r"[, ]+", s)], scanning left to right: [cur] is the token
    read so far and [in_sep] says that the previous character belonged
    to a separator run (a run of separators is one match of the
    pattern, so it ends one token only). *)
Fixpoint split_go (cur : string) (in_sep : bool) (s : string) : list string :=
  match s with
  | EmptyString => [cur]
  | String a s' =>
      if is_sep a then
        if in_sep then split_go cur true s'
        else cur :: split_go "" true s'
      else split_go (cur ++ String a "") false s'
  end.

Definition re_split (s : string) : list string := split_go "" false s.

(** [list.sort(cmp=f)] for a comparison that may raise: a stable
    insertion sort in the option monad; [None] is the exception of the
    first failing comparison.  A list of length 0 or 1 is never
    compared, so nothing is raised for it. *)
Fixpoint insert_cmp {A} (cmp : A → A → option comparison) (x : A) (l : list A)
    : option (list A) :=
  match l with
  | [] => Some [x]
  | y :: l' =>
      match cmp x y with
      | None => None
      | Some Gt =>
          match insert_cmp cmp x l' with
          | None => None
          | Some r => Some (y :: r)
          end
      | Some _ => Some (x :: l)
      end
  end.

Fixpoint sort_cmp {A} (cmp : A → A → option comparison) (l : list A)
    : option (list A) :=
  match l with
  | [] => Some []
  | x :: l' =>
      match sort_cmp cmp l' with
      | None => None
      | Some r => insert_cmp cmp x r
      end
  end.

(** [lambda x, y: cmp(int(x), int(y))] *)
Definition int_cmp `{Builtins} (x y : string) : option comparison :=
  match py_int x, py_int y with
  | Some a, Some b => Some (a ?= b)
  | _, _ => None
  end.

(** [list.sort()] on strings: the same stable insertion sort with the
    total lexicographic comparison of Python strings. *)
Fixpoint insert_lex (x : string) (l : list string) : list string :=
  match l with
  | [] => [x]
  | y :: l' =>
      match String.compare x y with
      | Gt => y :: insert_lex x l'
      | _ => x :: l
      end
  end.

Fixpoint sort_lex (l : list string) : list string :=
  match l with
  | [] => []
  | x :: l' => insert_lex x (sort_lex l')
  end.

(** [ReviewRequest.get_bug_list] and [ReviewRequestDraft.get_bug_list]
    (the two bodies are the same).  When the numeric sort raises, the
    list may have been reordered before [bugs.sort()] runs;
    [sort_lex] does not depend on the order of its input
    ([sort_lex_Permutation] below). *)
Definition get_bug_list `{Builtins} (bugs_closed : string) : list string :=
  if String.eqb bugs_closed "" then []
  else
    let bugs := re_split bugs_closed in
    match sort_cmp int_cmp bugs with
    | Some sorted => sorted
    | None => sort_lex bugs
    end.

(** [','.join(l)] *)
Definition join (l : list string) : string := String.concat "," l.

(** A bug-id string is well formed when it is a list of non-empty
    tokens separated by runs of commas and spaces: no separator at
    either end. *)
Definition valid_bug_string (s : string) : bool :=
  forallb (fun t => negb (String.eqb t "")) (re_split s) || String.eqb s "".

(** No character of the string belongs to the separator class. *)
Fixpoint sep_free (s : string) : bool :=
  match s with
  | EmptyString => true
  | String a s' => negb (is_sep a) && sep_free s'
  end.

(** A token: not empty and without separator. *)
Definition token (t : string) : Prop := t ≠ "" ∧ sep_free t = true.

(** The order of [list.sort()] on strings: [cmp(a, b) <= 0]. *)
Definition lex_le (a b : string) : Prop := String.compare a b ≠ Gt.

(** A token that [int] accepts. *)
Definition numeric `{Builtins} (t : string) : Prop := is_Some (py_int t).

(** Ascending numeric order: [int(a) <= int(b)]. *)
Definition int_le `{Builtins} (a b : string) : Prop :=
  ∃ x y, py_int a = Some x ∧ py_int b = Some y ∧ x ≤ y.

(** The comparison function of the numeric sort returns on the two
    tokens, and not with [1]. *)
Definition cmp_le `{Builtins} (a b : string) : Prop :=
  ∃ c, int_cmp a b = Some c ∧ c ≠ Gt.

(** A reference instance of [int] on ASCII decimal literals: an
    optional sign and at least one digit. *)
Fixpoint digits_value (s : string) (acc : Z) : option Z :=
  match s with
  | EmptyString => Some acc
  | String a s' =>
      let n := nat_of_ascii a in
      if ((48 <=? n)%nat && (n <=? 57)%nat)%bool
      then digits_value s' (10 * acc + Z.of_nat (n - 48))
      else None
  end.

Definition decimal_int (s : string) : option Z :=
  match s with
  | EmptyString => None
  | String "-" (String a r) => Z.opp <$> digits_value (String a r) 0
  | String "+" (String a r) => digits_value (String a r) 0
  | _ => digits_value s 0
  end.

End BugList.

(** ** Data model *)

(** [django.contrib.auth]: a request is made by a saved [User] or by
    [AnonymousUser], which has no primary key, is never authenticated
    and never a superuser. *)
Inductive User : Type :=
  | AnonymousUser
  | AuthUser (pk : nat) (superuser : bool).

Definition user_pk (u : User) : option nat :=
  match u with
  | AnonymousUser => None
  | AuthUser pk _ => Some pk
  end.

Definition is_authenticated (u : User) : bool :=
  match u with
  | AnonymousUser => false
  | AuthUser _ _ => true
  end.

Definition is_superuser (u : User) : bool :=
  match u with
  | AnonymousUser => false
  | AuthUser _ s => s
  end.

(** [a == b] on model instances: same class and same primary key. *)
Definition user_eqb (a b : User) : bool :=
  match a, b with
  | AuthUser p _, AuthUser q _ => Nat.eqb p q
  | _, _ => false
  end.

(** [class Group] *)
Record Group : Type := {
  g_name : string;
  g_local_site : option nat;
  invite_only : bool;
  g_users : gset nat;
  incoming_request_count : Z;
  visible : bool;
  ready_for_reviews : bool
}.

Definition set_incoming_request_count (f : Z → Z) (g : Group) : Group :=
  {| g_name := g_name g;
     g_local_site := g_local_site g;
     invite_only := invite_only g;
     g_users := g_users g;
     incoming_request_count := f (incoming_request_count g);
     visible := visible g;
     ready_for_reviews := ready_for_reviews g |}.

(** [class DefaultReviewer] *)
Record DefaultReviewer : Type := {
  dr_name : string;
  file_regex : string;
  dr_groups : gset nat;
  dr_people : gset nat
}.

(** [class Screenshot]; a [FileAttachment] (declared in
    [reviewboard.attachments]) carries the same two captions. *)
Record Captioned : Type := {
  caption : string;
  draft_caption : string
}.

(** [diffviewer.models]: the fields of [FileDiff] and [DiffSet] that
    this module reads and writes. *)
Record FileDiff : Type := {
  source_file : string;
  dest_file : string
}.

Record DiffSet : Type := {
  revision : nat;
  ds_history : option nat;
  files : list FileDiff
}.

(** The status codes of [ReviewRequest]. *)
Definition PENDING_REVIEW : string := "P".
Definition SUBMITTED : string := "S".
Definition DISCARDED : string := "D".

(** The columns of [ReviewRequest] that the methods below read or
    assign; [id] is [None] until the first [save].  The time stamps
    ([time_added], [last_updated], which every save renews, and
    [last_review_timestamp]), the mail bookkeeping, [shipit_count],
    [changenum] and [local_id] are not carried: no statement below is
    about them, and an equation between rows or stores speaks of the
    columns carried here. *)
Module RR.
Record t : Type := {
  id : option nat;
  submitter : User;
  status : string;
  public : bool;
  repository : option nat;
  summary : string;
  description : string;
  testing_done : string;
  bugs_closed : string;
  diffset_history : nat;
  branch : string;
  local_site : option nat
}.

Definition with_id (v : option nat) (r : t) : t :=
  {| id := v; submitter := submitter r; status := status r;
     public := public r; repository := repository r; summary := summary r;
     description := description r; testing_done := testing_done r;
     bugs_closed := bugs_closed r; diffset_history := diffset_history r;
     branch := branch r; local_site := local_site r |}.

Definition with_status (v : string) (r : t) : t :=
  {| id := id r; submitter := submitter r; status := v;
     public := public r; repository := repository r; summary := summary r;
     description := description r; testing_done := testing_done r;
     bugs_closed := bugs_closed r; diffset_history := diffset_history r;
     branch := branch r; local_site := local_site r |}.

Definition with_public (v : bool) (r : t) : t :=
  {| id := id r; submitter := submitter r; status := status r;
     public := v; repository := repository r; summary := summary r;
     description := description r; testing_done := testing_done r;
     bugs_closed := bugs_closed r; diffset_history := diffset_history r;
     branch := branch r; local_site := local_site r |}.

Definition with_summary (v : string) (r : t) : t :=
  {| id := id r; submitter := submitter r; status := status r;
     public := public r; repository := repository r; summary := v;
     description := description r; testing_done := testing_done r;
     bugs_closed := bugs_closed r; diffset_history := diffset_history r;
     branch := branch r; local_site := local_site r |}.

Definition with_description (v : string) (r : t) : t :=
  {| id := id r; submitter := submitter r; status := status r;
     public := public r; repository := repository r; summary := summary r;
     description := v; testing_done := testing_done r;
     bugs_closed := bugs_closed r; diffset_history := diffset_history r;
     branch := branch r; local_site := local_site r |}.

Definition with_testing_done (v : string) (r : t) : t :=
  {| id := id r; submitter := submitter r; status := status r;
     public := public r; repository := repository r; summary := summary r;
     description := description r; testing_done := v;
     bugs_closed := bugs_closed r; diffset_history := diffset_history r;
     branch := branch r; local_site := local_site r |}.

Definition with_bugs_closed (v : string) (r : t) : t :=
  {| id := id r; submitter := submitter r; status := status r;
     public := public r; repository := repository r; summary := summary r;
     description := description r; testing_done := testing_done r;
     bugs_closed := v; diffset_history := diffset_history r;
     branch := branch r; local_site := local_site r |}.

Definition with_branch (v : string) (r : t) : t :=
  {| id := id r; submitter := submitter r; status := status r;
     public := public r; repository := repository r; summary := summary r;
     description := description r; testing_done := testing_done r;
     bugs_closed := bugs_closed r; diffset_history := diffset_history r;
     branch := v; local_site := local_site r |}.
End RR.

(** The columns of [ReviewRequestDraft].  [review_request] is the
    unique foreign key; [changedesc] and [diffset] are nullable foreign
    keys. *)
Module Draft.
Record t : Type := {
  review_request : nat;
  summary : string;
  description : string;
  testing_done : string;
  bugs_closed : string;
  diffset : option nat;
  changedesc : option nat;
  branch : string
}.

Definition with_changedesc (v : option nat) (d : t) : t :=
  {| review_request := review_request d; summary := summary d;
     description := description d; testing_done := testing_done d;
     bugs_closed := bugs_closed d; diffset := diffset d;
     changedesc := v; branch := branch d |}.

Definition with_text (s b : string) (d : t) : t :=
  {| review_request := review_request d; summary := s;
     description := description d; testing_done := testing_done d;
     bugs_closed := b; diffset := diffset d;
     changedesc := changedesc d; branch := branch d |}.
End Draft.

(** The many-to-many relations that a review request and its draft
    both have, as sets of primary keys. *)
Record Relations : Type := {
  target_groups : gset nat;
  target_people : gset nat;
  screenshots : gset nat;
  inactive_screenshots : gset nat;
  file_attachments : gset nat;
  inactive_file_attachments : gset nat
}.

Definition no_relations : Relations :=
  {| target_groups := ∅; target_people := ∅; screenshots := ∅;
     inactive_screenshots := ∅; file_attachments := ∅;
     inactive_file_attachments := ∅ |}.

Definition set_target_groups (v : gset nat) (r : Relations) : Relations :=
  {| target_groups := v; target_people := target_people r; screenshots := screenshots r;
     inactive_screenshots := inactive_screenshots r; file_attachments := file_attachments r; inactive_file_attachments := inactive_file_attachments r |}.

Definition set_target_people (v : gset nat) (r : Relations) : Relations :=
  {| target_groups := target_groups r; target_people := v; screenshots := screenshots r;
     inactive_screenshots := inactive_screenshots r; file_attachments := file_attachments r; inactive_file_attachments := inactive_file_attachments r |}.

Definition set_screenshots (v : gset nat) (r : Relations) : Relations :=
  {| target_groups := target_groups r; target_people := target_people r; screenshots := v;
     inactive_screenshots := inactive_screenshots r; file_attachments := file_attachments r; inactive_file_attachments := inactive_file_attachments r |}.

Definition set_inactive_screenshots (v : gset nat) (r : Relations) : Relations :=
  {| target_groups := target_groups r; target_people := target_people r; screenshots := screenshots r;
     inactive_screenshots := v; file_attachments := file_attachments r; inactive_file_attachments := inactive_file_attachments r |}.

Definition set_file_attachments (v : gset nat) (r : Relations) : Relations :=
  {| target_groups := target_groups r; target_people := target_people r; screenshots := screenshots r;
     inactive_screenshots := inactive_screenshots r; file_attachments := v; inactive_file_attachments := inactive_file_attachments r |}.

Definition set_inactive_file_attachments (v : gset nat) (r : Relations) : Relations :=
  {| target_groups := target_groups r; target_people := target_people r; screenshots := screenshots r;
     inactive_screenshots := inactive_screenshots r; file_attachments := file_attachments r; inactive_file_attachments := v |}.
(** *** Change descriptions

    Modelled from the spec: [ChangeDescription] and its
    [record_field_change] are declared in
    [reviewboard/changedescs/models.py], which is not part of this
    module.  The spec gives it "free-text summary, publish flag,
    timestamp, a mapping from field-name to {old, new} (or {old, new,
    display-names} for relational fields)"; the caption and diff
    entries are the two special shapes that [ReviewRequestDraft.publish]
    documents and writes itself. *)
Inductive FieldChange : Type :=
  | ScalarChange (old new : string)
  | ListChange (old new : list string)
  | RelationChange (old new : gset nat) (name_field : string)
  | CaptionChanges (changes : gmap nat (string * string))
  | DiffAdded (revision : nat) (diffset_id : nat).

Record ChangeDescription : Type := {
  cd_id : option nat;
  cd_public : bool;
  cd_text : string;
  cd_timestamp : Z;
  fields_changed : gmap string FieldChange
}.

Definition record_field_change (name : string) (c : FieldChange)
    (cd : ChangeDescription) : ChangeDescription :=
  {| cd_id := cd_id cd; cd_public := cd_public cd; cd_text := cd_text cd;
     cd_timestamp := cd_timestamp cd;
     fields_changed := <[name := c]> (fields_changed cd) |}.

Definition cd_with_id (v : option nat) (cd : ChangeDescription) : ChangeDescription :=
  {| cd_id := v; cd_public := cd_public cd; cd_text := cd_text cd;
     cd_timestamp := cd_timestamp cd; fields_changed := fields_changed cd |}.

Definition cd_with_public (v : bool) (cd : ChangeDescription) : ChangeDescription :=
  {| cd_id := cd_id cd; cd_public := v; cd_text := cd_text cd;
     cd_timestamp := cd_timestamp cd; fields_changed := fields_changed cd |}.

Definition cd_with_text (v : string) (cd : ChangeDescription) : ChangeDescription :=
  {| cd_id := cd_id cd; cd_public := cd_public cd; cd_text := v;
     cd_timestamp := cd_timestamp cd; fields_changed := fields_changed cd |}.

Definition cd_with_timestamp (v : Z) (cd : ChangeDescription) : ChangeDescription :=
  {| cd_id := cd_id cd; cd_public := cd_public cd; cd_text := cd_text cd;
     cd_timestamp := v; fields_changed := fields_changed cd |}.

(** *** Signals sent to listeners ([reviews/signals.py]) *)
Inductive Signal : Type :=
  | review_request_published (review_request : RR.t) (user : User)
      (changedesc : option ChangeDescription)
  | review_request_closed (review_request : RR.t) (user : option User)
      (type : string)
  | review_request_reopened (review_request : RR.t) (user : option User).

(** *** The store: the database tables and the signals sent so far

    Rows are keyed by primary key.  A draft is keyed by the primary key
    of its review request ([unique=True] on the foreign key: at most one
    draft per request).  [clock] is the reading of [datetime.now()],
    which advances at every reading. *)
Record Store : Type := {
  groups : gmap nat Group;
  review_requests : gmap nat RR.t;
  rr_relations : gmap nat Relations;
  rr_changedescs : gmap nat (gset nat);
  rr_visits : gmap nat (gset nat);
  drafts : gmap nat Draft.t;
  draft_relations : gmap nat Relations;
  changedescs : gmap nat ChangeDescription;
  screenshot_rows : gmap nat Captioned;
  file_attachment_rows : gmap nat Captioned;
  diffsets : gmap nat DiffSet;
  signals : list Signal;
  clock : Z;
  next_pk : nat
}.

Definition empty_store : Store :=
  {| groups := ∅; review_requests := ∅; rr_relations := ∅;
     rr_changedescs := ∅; rr_visits := ∅; drafts := ∅;
     draft_relations := ∅; changedescs := ∅; screenshot_rows := ∅;
     file_attachment_rows := ∅; diffsets := ∅; signals := [];
     clock := 0; next_pk := 1%nat |}.

(** Field updates of the store. *)
Definition upd_groups (f : gmap nat Group → gmap nat Group) (st : Store) : Store :=
  {| groups := f (groups st); review_requests := review_requests st;
     rr_relations := rr_relations st; rr_changedescs := rr_changedescs st;
     rr_visits := rr_visits st; drafts := drafts st;
     draft_relations := draft_relations st; changedescs := changedescs st;
     screenshot_rows := screenshot_rows st;
     file_attachment_rows := file_attachment_rows st;
     diffsets := diffsets st; signals := signals st; clock := clock st;
     next_pk := next_pk st |}.

Definition upd_review_requests (f : gmap nat RR.t → gmap nat RR.t) (st : Store) : Store :=
  {| groups := groups st; review_requests := f (review_requests st);
     rr_relations := rr_relations st; rr_changedescs := rr_changedescs st;
     rr_visits := rr_visits st; drafts := drafts st;
     draft_relations := draft_relations st; changedescs := changedescs st;
     screenshot_rows := screenshot_rows st;
     file_attachment_rows := file_attachment_rows st;
     diffsets := diffsets st; signals := signals st; clock := clock st;
     next_pk := next_pk st |}.

Definition upd_rr_relations (f : gmap nat Relations → gmap nat Relations) (st : Store) : Store :=
  {| groups := groups st; review_requests := review_requests st;
     rr_relations := f (rr_relations st);
     rr_changedescs := rr_changedescs st; rr_visits := rr_visits st;
     drafts := drafts st; draft_relations := draft_relations st;
     changedescs := changedescs st; screenshot_rows := screenshot_rows st;
     file_attachment_rows := file_attachment_rows st;
     diffsets := diffsets st; signals := signals st; clock := clock st;
     next_pk := next_pk st |}.

Definition upd_rr_changedescs (f : gmap nat (gset nat) → gmap nat (gset nat)) (st : Store) : Store :=
  {| groups := groups st; review_requests := review_requests st;
     rr_relations := rr_relations st;
     rr_changedescs := f (rr_changedescs st); rr_visits := rr_visits st;
     drafts := drafts st; draft_relations := draft_relations st;
     changedescs := changedescs st; screenshot_rows := screenshot_rows st;
     file_attachment_rows := file_attachment_rows st;
     diffsets := diffsets st; signals := signals st; clock := clock st;
     next_pk := next_pk st |}.

Definition upd_rr_visits (f : gmap nat (gset nat) → gmap nat (gset nat)) (st : Store) : Store :=
  {| groups := groups st; review_requests := review_requests st;
     rr_relations := rr_relations st; rr_changedescs := rr_changedescs st;
     rr_visits := f (rr_visits st); drafts := drafts st;
     draft_relations := draft_relations st; changedescs := changedescs st;
     screenshot_rows := screenshot_rows st;
     file_attachment_rows := file_attachment_rows st;
     diffsets := diffsets st; signals := signals st; clock := clock st;
     next_pk := next_pk st |}.

Definition upd_drafts (f : gmap nat Draft.t → gmap nat Draft.t) (st : Store) : Store :=
  {| groups := groups st; review_requests := review_requests st;
     rr_relations := rr_relations st; rr_changedescs := rr_changedescs st;
     rr_visits := rr_visits st; drafts := f (drafts st);
     draft_relations := draft_relations st; changedescs := changedescs st;
     screenshot_rows := screenshot_rows st;
     file_attachment_rows := file_attachment_rows st;
     diffsets := diffsets st; signals := signals st; clock := clock st;
     next_pk := next_pk st |}.

Definition upd_draft_relations (f : gmap nat Relations → gmap nat Relations) (st : Store) : Store :=
  {| groups := groups st; review_requests := review_requests st;
     rr_relations := rr_relations st; rr_changedescs := rr_changedescs st;
     rr_visits := rr_visits st; drafts := drafts st;
     draft_relations := f (draft_relations st);
     changedescs := changedescs st; screenshot_rows := screenshot_rows st;
     file_attachment_rows := file_attachment_rows st;
     diffsets := diffsets st; signals := signals st; clock := clock st;
     next_pk := next_pk st |}.

Definition upd_changedescs (f : gmap nat ChangeDescription → gmap nat ChangeDescription) (st : Store) : Store :=
  {| groups := groups st; review_requests := review_requests st;
     rr_relations := rr_relations st; rr_changedescs := rr_changedescs st;
     rr_visits := rr_visits st; drafts := drafts st;
     draft_relations := draft_relations st;
     changedescs := f (changedescs st);
     screenshot_rows := screenshot_rows st;
     file_attachment_rows := file_attachment_rows st;
     diffsets := diffsets st; signals := signals st; clock := clock st;
     next_pk := next_pk st |}.

Definition upd_screenshot_rows (f : gmap nat Captioned → gmap nat Captioned) (st : Store) : Store :=
  {| groups := groups st; review_requests := review_requests st;
     rr_relations := rr_relations st; rr_changedescs := rr_changedescs st;
     rr_visits := rr_visits st; drafts := drafts st;
     draft_relations := draft_relations st; changedescs := changedescs st;
     screenshot_rows := f (screenshot_rows st);
     file_attachment_rows := file_attachment_rows st;
     diffsets := diffsets st; signals := signals st; clock := clock st;
     next_pk := next_pk st |}.

Definition upd_file_attachment_rows (f : gmap nat Captioned → gmap nat Captioned) (st : Store) : Store :=
  {| groups := groups st; review_requests := review_requests st;
     rr_relations := rr_relations st; rr_changedescs := rr_changedescs st;
     rr_visits := rr_visits st; drafts := drafts st;
     draft_relations := draft_relations st; changedescs := changedescs st;
     screenshot_rows := screenshot_rows st;
     file_attachment_rows := f (file_attachment_rows st);
     diffsets := diffsets st; signals := signals st; clock := clock st;
     next_pk := next_pk st |}.

Definition upd_diffsets (f : gmap nat DiffSet → gmap nat DiffSet) (st : Store) : Store :=
  {| groups := groups st; review_requests := review_requests st;
     rr_relations := rr_relations st; rr_changedescs := rr_changedescs st;
     rr_visits := rr_visits st; drafts := drafts st;
     draft_relations := draft_relations st; changedescs := changedescs st;
     screenshot_rows := screenshot_rows st;
     file_attachment_rows := file_attachment_rows st;
     diffsets := f (diffsets st); signals := signals st; clock := clock st;
     next_pk := next_pk st |}.

Definition upd_signals (f : list Signal → list Signal) (st : Store) : Store :=
  {| groups := groups st; review_requests := review_requests st;
     rr_relations := rr_relations st; rr_changedescs := rr_changedescs st;
     rr_visits := rr_visits st; drafts := drafts st;
     draft_relations := draft_relations st; changedescs := changedescs st;
     screenshot_rows := screenshot_rows st;
     file_attachment_rows := file_attachment_rows st;
     diffsets := diffsets st; signals := f (signals st); clock := clock st;
     next_pk := next_pk st |}.

Definition upd_clock (f : Z → Z) (st : Store) : Store :=
  {| groups := groups st; review_requests := review_requests st;
     rr_relations := rr_relations st; rr_changedescs := rr_changedescs st;
     rr_visits := rr_visits st; drafts := drafts st;
     draft_relations := draft_relations st; changedescs := changedescs st;
     screenshot_rows := screenshot_rows st;
     file_attachment_rows := file_attachment_rows st;
     diffsets := diffsets st; signals := signals st; clock := f (clock st);
     next_pk := next_pk st |}.

Definition upd_next_pk (f : nat → nat) (st : Store) : Store :=
  {| groups := groups st; review_requests := review_requests st;
     rr_relations := rr_relations st; rr_changedescs := rr_changedescs st;
     rr_visits := rr_visits st; drafts := drafts st;
     draft_relations := draft_relations st; changedescs := changedescs st;
     screenshot_rows := screenshot_rows st;
     file_attachment_rows := file_attachment_rows st;
     diffsets := diffsets st; signals := signals st; clock := clock st;
     next_pk := f (next_pk st) |}.
(** ** The state-and-exception monad

    A method runs against the store and either returns a value or
    raises; in both cases the store is the one reached so far (a raised
    exception does not undo earlier writes). *)
Definition M (A : Type) : Type := Store → (exn + A) * Store.

Definition ret {A} (a : A) : M A := λ st, (inr a, st).

Definition bind {A B} (m : M A) (k : A → M B) : M B :=
  λ st, match m st with
        | (inr a, st') => k a st'
        | (inl e, st') => (inl e, st')
        end.

Definition raise {A} (e : exn) : M A := λ st, (inl e, st).

Definition get_store : M Store := λ st, (inr st, st).

Definition modify (f : Store → Store) : M unit := λ st, (inr tt, f st).

Notation "x <- m ;; k" := (bind m (λ x, k))
  (at level 100, m at next level, right associativity).
Notation "m ;;; k" := (bind m (λ _, k))
  (at level 100, right associativity).

Definition when (b : bool) (m : M unit) : M unit :=
  if b then m else ret tt.

(** [datetime.now()] *)
Definition now : M Z :=
  λ st, (inr (clock st), upd_clock (λ t, t + 1) st).

(** A fresh primary key (the tables' auto-increment). *)
Definition fresh_pk : M nat :=
  λ st, (inr (next_pk st), upd_next_pk S st).

Definition send (s : Signal) : M unit :=
  modify (upd_signals (λ l, (l ++ [s])%list)).

(** ** Collaborators outside this module

    [has_perm] is Django's permission check; [LocalSite.is_accessible_by]
    and [Repository.is_accessible_by] are declared in the [site] and
    [scmtools] applications; the two manager queries are declared in
    [reviews/managers.py].  None of them is part of this module, so the
    model takes them as an interface. *)
Class Auth := {
  has_perm : User → string → bool;
  LocalSite_is_accessible_by : nat → User → bool;
  Repository_is_accessible_by : nat → User → bool
}.

Class Managers := {
  Group_objects_accessible : Store → User → list nat;
  DefaultReviewer_objects_for_repository : Store → option nat → list DefaultReviewer
}.

(** ** Access control *)

(** [queryset.filter(pk=pk).count()] on a many-to-many relation. *)
Definition count_pk (rel : gset nat) (pk : option nat) : Z :=
  match pk with
  | Some k => if decide (k ∈ rel) then 1 else 0
  | None => 0
  end.

(** [Group.is_accessible_by] *)
Definition Group_is_accessible_by `{Auth} (self : Group) (user : User) : bool :=
  if match g_local_site self with
     | Some site => negb (LocalSite_is_accessible_by site user)
     | None => false
     end
  then false
  else negb (invite_only self)
       || is_superuser user
       || (is_authenticated user && (0 <? count_pk (g_users self) (user_pk user))).

(** The relations of a review request ([self.target_groups] and the
    like); an unsaved request has none. *)
Definition relations_of (st : Store) (self : RR.t) : Relations :=
  match RR.id self with
  | Some pk => default no_relations (rr_relations st !! pk)
  | None => no_relations
  end.

(** [manager.all()] on a relation to groups: the rows of the related
    primary keys. *)
Definition group_rows (st : Store) (pks : list nat) : list Group :=
  omap (λ pk, groups st !! pk) pks.

(** [ReviewRequest.is_mutable_by] *)
Definition ReviewRequest_is_mutable_by `{Auth} (self : RR.t) (user : User) : bool :=
  has_perm user "reviews.can_edit_reviewrequest".

(** [ReviewRequest.is_accessible_by] *)
Definition ReviewRequest_is_accessible_by `{Auth} `{Managers}
    (st : Store) (self : RR.t) (user : User) (local_site : option nat) : bool :=
  if negb (RR.public self) && negb (ReviewRequest_is_mutable_by self user)
  then false
  else if match RR.repository self with
          | Some repo => negb (Repository_is_accessible_by repo user)
          | None => false
          end
  then false
  else if match local_site with
          | Some site => negb (LocalSite_is_accessible_by site user)
          | None => false
          end
  then false
  else if is_authenticated user
          && (0 <? count_pk (target_people (relations_of st self)) (user_pk user))
  then true
  else
    let groups := group_rows st (elements (target_groups (relations_of st self))) in
    match groups with
    | [] => true
    | _ =>
        if existsb (λ group, Group_is_accessible_by group user) groups
        then true
        else if existsb (λ group, Group_is_accessible_by group user)
                  (group_rows st (Group_objects_accessible st (RR.submitter self)))
        then true
        else if user_eqb (RR.submitter self) user
        then true
        else false
    end.

(** *** The visibility rule, as propositions

    The checks that come first: public or editable, the repository
    readable, the site (when one is given) accessible. *)
Definition passes_checks `{Auth} (self : RR.t) (user : User)
    (local_site : option nat) : Prop :=
  (RR.public self = true ∨ ReviewRequest_is_mutable_by self user = true)
  ∧ (∀ repo, RR.repository self = Some repo →
       Repository_is_accessible_by repo user = true)
  ∧ (∀ site, local_site = Some site →
       LocalSite_is_accessible_by site user = true).

Definition is_target_person (st : Store) (self : RR.t) (user : User) : Prop :=
  is_authenticated user = true
  ∧ ∃ pk, user_pk user = Some pk ∧ pk ∈ target_people (relations_of st self).

Definition target_group_rows (st : Store) (self : RR.t) : list Group :=
  group_rows st (elements (target_groups (relations_of st self))).

(** The four ways in of the rule: a target person, a target group the
    user can access, a group of the submitter the user can access, the
    submitter. *)
Definition is_reviewer_or_owner `{Auth} `{Managers}
    (st : Store) (self : RR.t) (user : User) : Prop :=
  is_target_person st self user
  ∨ (∃ g, g ∈ target_group_rows st self ∧ Group_is_accessible_by g user = true)
  ∨ (∃ g, g ∈ group_rows st (Group_objects_accessible st (RR.submitter self))
          ∧ Group_is_accessible_by g user = true)
  ∨ user_eqb (RR.submitter self) user = true.

(** The rule in the words of the specification: open to all who pass
    the checks when there are neither target groups nor target people,
    otherwise open exactly to reviewers and owner. *)
Definition visible_as_specified `{Auth} `{Managers}
    (st : Store) (self : RR.t) (user : User) (local_site : option nat) : Prop :=
  passes_checks self user local_site
  ∧ ((target_groups (relations_of st self) = ∅
      ∧ target_people (relations_of st self) = ∅)
     ∨ is_reviewer_or_owner st self user).

(** ** The default-reviewer matcher *)

(** [filediff.source_file or filediff.dest_file] *)
Definition filediff_path (f : FileDiff) : string :=
  if String.eqb (source_file f) "" then dest_file f else source_file f.

(** The loop of [ReviewRequest.add_default_reviewers] over the rules:
    [re.compile] is called bare, so its exception leaves the method. *)
Fixpoint match_defaults_request `{Builtins} (defaults : list DefaultReviewer)
    (files : list FileDiff) (people groups : gset nat)
    : exn + (gset nat * gset nat) :=
  match defaults with
  | [] => inr (people, groups)
  | default :: rest =>
      match re_compile (file_regex default) with
      | None => inl RegexError
      | Some regex =>
          if existsb (λ filediff, re_match regex (filediff_path filediff)) files
          then match_defaults_request rest files
                 (people ∪ dr_people default) (groups ∪ dr_groups default)
          else match_defaults_request rest files people groups
      end
  end.

(** The loop of [ReviewRequestDraft.add_default_reviewers]: the
    compilation is inside [try: ... except: continue]. *)
Fixpoint match_defaults_draft `{Builtins} (defaults : list DefaultReviewer)
    (files : list FileDiff) (people groups : gset nat)
    : gset nat * gset nat :=
  match defaults with
  | [] => (people, groups)
  | default :: rest =>
      match re_compile (file_regex default) with
      | None => match_defaults_draft rest files people groups
      | Some regex =>
          if existsb (λ filediff, re_match regex (filediff_path filediff)) files
          then match_defaults_draft rest files
                 (people ∪ dr_people default) (groups ∪ dr_groups default)
          else match_defaults_draft rest files people groups
      end
  end.

(** The rules whose pattern compiles. *)
Definition compiles `{Builtins} (d : DefaultReviewer) : bool :=
  match re_compile (file_regex d) with
  | Some _ => true
  | None => false
  end.

(** Adding every matched reviewer that is not yet a target. *)
Definition add_targets (people groups : gset nat) (r : Relations) : Relations :=
  set_target_groups (target_groups r ∪ groups)
    (set_target_people (target_people r ∪ people) r).

(** [ReviewRequest.add_default_reviewers] *)
Definition ReviewRequest_add_default_reviewers `{Builtins} `{Managers}
    (self : RR.t) : M unit :=
  st <- get_store ;;
  match filter (λ kd, ds_history kd.2 = Some (RR.diffset_history self))
               (map_to_list (diffsets st)) with
  | [(_, diffset)] =>
      match match_defaults_request
              (DefaultReviewer_objects_for_repository st (RR.repository self))
              (files diffset) ∅ ∅ with
      | inl e => raise e
      | inr (people, groups) =>
          match RR.id self with
          | Some pk =>
              modify (upd_rr_relations
                        <[pk := add_targets people groups (relations_of st self)]>)
          | None => if decide (people ∪ groups = ∅) then ret tt else raise ValueError
          end
      end
  | _ => ret tt
  end.

(** [ReviewRequestDraft.add_default_reviewers] *)
Definition ReviewRequestDraft_add_default_reviewers `{Builtins} `{Managers}
    (self : Draft.t) : M unit :=
  st <- get_store ;;
  match Draft.diffset self ≫= (λ k, diffsets st !! k) with
  | None => ret tt
  | Some diffset =>
      let repository :=
        review_requests st !! Draft.review_request self ≫= RR.repository in
      let '(people, groups) :=
        match_defaults_draft
          (DefaultReviewer_objects_for_repository st repository)
          (files diffset) ∅ ∅ in
      modify (upd_draft_relations (λ tbl,
        <[Draft.review_request self :=
            add_targets people groups
              (default no_relations (tbl !! Draft.review_request self))]> tbl))
  end.

(** ** Change descriptions in the store *)

(** [ChangeDescription(public=..., text=...)]: a new, unsaved object;
    its timestamp defaults to the time of construction. *)
Definition ChangeDescription_new (public : bool) (text : string)
    : M ChangeDescription :=
  t <- now ;;
  ret {| cd_id := None; cd_public := public; cd_text := text;
         cd_timestamp := t; fields_changed := ∅ |}.

(** [changedesc.save()]: insert under a fresh key, or update the row. *)
Definition ChangeDescription_save (cd : ChangeDescription) : M ChangeDescription :=
  match cd_id cd with
  | Some pk => modify (upd_changedescs <[pk := cd]>) ;;; ret cd
  | None =>
      pk <- fresh_pk ;;
      let cd := cd_with_id (Some pk) cd in
      modify (upd_changedescs <[pk := cd]>) ;;; ret cd
  end.

(** [self.changedescs.add(changedesc)] *)
Definition changedescs_add (self : RR.t) (cd : ChangeDescription) : M unit :=
  match RR.id self, cd_id cd with
  | Some pk, Some k =>
      modify (upd_rr_changedescs (λ tbl, <[pk := default ∅ (tbl !! pk) ∪ {[k]}]> tbl))
  | _, _ => raise ValueError
  end.

(** The change descriptions of a request, in ascending key order. *)
Definition changedescs_of (st : Store) (self : RR.t) : list ChangeDescription :=
  match RR.id self with
  | Some pk =>
      omap (λ k, changedescs st !! k) (elements (default ∅ (rr_changedescs st !! pk)))
  | None => []
  end.

(** [queryset.latest()] with [get_latest_by = "timestamp"]: the row with
    the greatest timestamp (the later row on a tie), or nothing. *)
Definition latest (l : list ChangeDescription) : option ChangeDescription :=
  foldl (λ best cd,
           match best with
           | Some b => if cd_timestamp cd <? cd_timestamp b then Some b else Some cd
           | None => Some cd
           end) None l.

(** [self.changedescs.filter(public=True).latest()] *)
Definition latest_public_changedesc (self : RR.t) : M ChangeDescription :=
  st <- get_store ;;
  match latest (filter (λ cd, cd_public cd = true) (changedescs_of st self)) with
  | Some cd => ret cd
  | None => raise DoesNotExist
  end.

(** ** Counters

    Modelled from the spec: [CounterField] is declared in
    [djblets.util.fields].  The spec has increment and decrement "as an
    atomic add on a persisted integer field" of every row of the given
    set. *)
Definition counter_add (delta : Z) (pks : gset nat) : M unit :=
  modify (upd_groups (λ tbl,
    map_imap (λ pk g,
      Some (if decide (pk ∈ pks)
            then set_incoming_request_count (λ n, n + delta) g
            else g)) tbl)).

(** ** [ReviewRequest]: saving and counting *)

(** [ReviewRequest.objects.get(pk=pk)] *)
Definition ReviewRequest_objects_get (pk : nat) : M RR.t :=
  st <- get_store ;;
  match review_requests st !! pk with
  | Some r => ret r
  | None => raise DoesNotExist
  end.

(** [ReviewRequest._update_counts], for [Group.incoming_request_count].
    The method also keeps the submitter's and the reviewers'
    [LocalSiteProfile] counters with the same increments and decrements;
    those rows belong to the [accounts] application and are left out of
    the store. *)
Definition ReviewRequest_update_counts (self : RR.t) : M unit :=
  old <- match RR.id self with
         | None => ret (None, false)
         | Some pk =>
             r <- ReviewRequest_objects_get pk ;;
             ret (Some (RR.status r), RR.public r)
         end ;;
  let old_status : option string := old.1 in
  let old_public : bool := old.2 in
  st <- get_store ;;
  if String.eqb (RR.status self) PENDING_REVIEW then
    if RR.public self && bool_decide (RR.id self ≠ None)
    then counter_add 1 (target_groups (relations_of st self))
    else ret tt
  else
    if old_public
    then counter_add (-1) (target_groups (relations_of st self))
    else ret tt.

(** [models.Model.save]: insert under a fresh key, or update the row. *)
Definition Model_save (self : RR.t) : M RR.t :=
  match RR.id self with
  | Some pk => modify (upd_review_requests <[pk := self]>) ;;; ret self
  | None =>
      pk <- fresh_pk ;;
      let self := RR.with_id (Some pk) self in
      modify (upd_review_requests <[pk := self]>) ;;; ret self
  end.

(** [ReviewRequest.save] *)
Definition ReviewRequest_save (self : RR.t) (update_counts : bool) : M RR.t :=
  let self := RR.with_bugs_closed (Py.strip (RR.bugs_closed self)) self in
  let self := RR.with_summary (truncate (RR.summary self) MAX_SUMMARY_LENGTH) self in
  when (update_counts || bool_decide (RR.id self = None))
       (ReviewRequest_update_counts self) ;;;
  when (negb (String.eqb (RR.status self) PENDING_REVIEW))
       (match RR.id self with
        | Some pk => modify (upd_rr_visits (delete pk))
        | None => ret tt
        end) ;;;
  Model_save self.

(** [ReviewRequest.delete]; the row's relations, visits and draft go
    with it. *)
Definition ReviewRequest_delete (self : RR.t) : M unit :=
  st <- get_store ;;
  when (RR.public self)
       (counter_add (-1) (target_groups (relations_of st self))) ;;;
  match RR.id self with
  | Some pk =>
      modify (λ st,
        upd_review_requests (delete pk)
          (upd_rr_relations (delete pk)
             (upd_rr_changedescs (delete pk)
                (upd_rr_visits (delete pk)
                   (upd_drafts (delete pk)
                      (upd_draft_relations (delete pk) st))))))
  | None => raise AssertionError
  end.

(** ** [ReviewRequestDraft] *)

(** [ReviewRequestDraft.save] *)
Definition ReviewRequestDraft_save (self : Draft.t) : M Draft.t :=
  let self :=
    Draft.with_text (truncate (Draft.summary self) MAX_SUMMARY_LENGTH)
                    (Py.strip (Draft.bugs_closed self)) self in
  modify (upd_drafts <[Draft.review_request self := self]>) ;;; ret self.

(** [draft.delete()] *)
Definition ReviewRequestDraft_delete (self : Draft.t) : M unit :=
  modify (λ st,
    upd_drafts (delete (Draft.review_request self))
      (upd_draft_relations (delete (Draft.review_request self)) st)).

(** [get_object_or_none(self.draft)] *)
Definition draft_of (st : Store) (self : RR.t) : option Draft.t :=
  RR.id self ≫= (λ pk, drafts st !! pk).

(** The loops of [ReviewRequestDraft.create] that set
    [draft_caption = caption] on the rows of a relation and save them.
    ([Screenshot.save] also re-saves the draft that holds the
    screenshot, to refresh its modification time; that changes no
    column of the model.) *)
Definition reset_draft_captions (pks : gset nat) (rows : gmap nat Captioned)
    : gmap nat Captioned :=
  map_imap (λ pk s,
    Some (if decide (pk ∈ pks)
          then {| caption := caption s; draft_caption := caption s |}
          else s)) rows.

(** [ReviewRequestDraft.create] *)
Definition ReviewRequestDraft_create (review_request : RR.t) : M Draft.t :=
  match RR.id review_request with
  | None => raise ValueError
  | Some pk =>
      st <- get_store ;;
      r <- match drafts st !! pk with
           | Some d => ret (d, false)
           | None =>
               d <- ReviewRequestDraft_save
                      {| Draft.review_request := pk;
                         Draft.summary := RR.summary review_request;
                         Draft.description := RR.description review_request;
                         Draft.testing_done := RR.testing_done review_request;
                         Draft.bugs_closed := RR.bugs_closed review_request;
                         Draft.diffset := None;
                         Draft.changedesc := None;
                         Draft.branch := RR.branch review_request |} ;;
               ret (d, true)
           end ;;
      let draft : Draft.t := r.1 in
      let draft_is_new : bool := r.2 in
      draft <- (if bool_decide (Draft.changedesc draft = None)
                   && RR.public review_request
                then
                  changedesc <- ChangeDescription_new false "" ;;
                  changedesc <- ChangeDescription_save changedesc ;;
                  ret (Draft.with_changedesc (cd_id changedesc) draft)
                else ret draft) ;;
      if draft_is_new then
        let rel := relations_of st review_request in
        modify (upd_draft_relations <[pk := rel]>) ;;;
        modify (upd_screenshot_rows
                  (reset_draft_captions (screenshots rel ∪ inactive_screenshots rel))) ;;;
        modify (upd_file_attachment_rows
                  (reset_draft_captions
                     (file_attachments rel ∪ inactive_file_attachments rel))) ;;;
        ReviewRequestDraft_save draft
      else ret draft
  end.

(** *** [ReviewRequestDraft.publish] *)

(** The local function [update_field(a, b, name, record_changes)]:
    [a] is the review request with the change description of the draft
    beside it, [value] is [b.__dict__[name]]. *)
Definition update_field (get_a : RR.t → string) (set_a : string → RR.t → RR.t)
    (value : string) (name : string) (record_changes : bool)
    (s : RR.t * option ChangeDescription) : RR.t * option ChangeDescription :=
  let old_value := get_a s.1 in
  if negb (String.eqb old_value value) then
    (set_a value s.1,
     if record_changes
     then record_field_change name (ScalarChange old_value value) <$> s.2
     else s.2)
  else s.

(** [aset.symmetric_difference(bset)] *)
Definition symmetric_difference (a b : gset nat) : gset nat :=
  (a ∖ b) ∪ (b ∖ a).

(** The local function [update_list(a, b, name, record_changes,
    name_field)] on the relation read by [get_rel]: [a] is the relation
    of the review request [pk], [b] that of the draft (stored under
    [draft_pk], the key of the request the draft belongs to). *)
Definition update_list (get_rel : Relations → gset nat)
    (set_rel : gset nat → Relations → Relations)
    (name : string) (record_changes : bool) (name_field : string)
    (pk draft_pk : nat)
    (cd : option ChangeDescription) : M (option ChangeDescription) :=
  st <- get_store ;;
  let a := get_rel (default no_relations (rr_relations st !! pk)) in
  let b := get_rel (default no_relations (draft_relations st !! draft_pk)) in
  if bool_decide (symmetric_difference a b ≠ ∅) then
    modify (upd_rr_relations (λ tbl,
      <[pk := set_rel b (default no_relations (tbl !! pk))]> tbl)) ;;;
    ret (if record_changes
         then record_field_change name (RelationChange a b name_field) <$> cd
         else cd)
  else ret cd.

(** One pass of the caption loop: for every item of the live relation
    that the draft also holds and whose caption differs from its draft
    caption, note [{old, new}] under the item's key and copy the
    caption. *)
Definition publish_captions (live draft : gset nat) (rows : gmap nat Captioned)
    : gmap nat Captioned * gmap nat (string * string) :=
  foldl (λ acc pk,
           match acc.1 !! pk with
           | Some s =>
               if bool_decide (pk ∈ draft)
                  && negb (String.eqb (caption s) (draft_caption s))
               then (<[pk := {| caption := draft_caption s;
                                draft_caption := draft_caption s |}]> acc.1,
                     <[pk := (caption s, draft_caption s)]> acc.2)
               else acc
           | None => acc
           end)
        (rows, ∅) (elements live).

(** [if caption_changes and self.changedesc:
       self.changedesc.fields_changed[key] = caption_changes] *)
Definition record_captions (key : string) (changes : gmap nat (string * string))
    (cd : option ChangeDescription) : option ChangeDescription :=
  if bool_decide (changes ≠ ∅)
  then record_field_change key (CaptionChanges changes) <$> cd
  else cd.

(** The body of [ReviewRequestDraft.publish] from the first
    [update_field] to the replacement of the inactive file
    attachments: the fields of the draft are compared with those of the
    review request [s.1] (stored under [pk]), the differences are
    recorded in the change description [s.2], when there is one, and
    copied onto the request. *)
Definition publish_fields `{Builtins} (self : Draft.t) (pk : nat)
    (s : RR.t * option ChangeDescription)
    : M (RR.t * option ChangeDescription) :=
  let draft_pk := Draft.review_request self in
  let s := update_field RR.summary RR.with_summary
             (Draft.summary self) "summary" true s in
  let s := update_field RR.description RR.with_description
             (Draft.description self) "description" true s in
  let s := update_field RR.testing_done RR.with_testing_done
             (Draft.testing_done self) "testing_done" true s in
  let s := update_field RR.branch RR.with_branch
             (Draft.branch self) "branch" true s in
  changedesc <- update_list target_groups set_target_groups
                  "target_groups" true "name" pk draft_pk s.2 ;;
  changedesc <- update_list target_people set_target_people
                  "target_people" true "username" pk draft_pk changedesc ;;
  let old_bugs := BugList.get_bug_list (RR.bugs_closed s.1) in
  let new_bugs := BugList.get_bug_list (Draft.bugs_closed self) in
  let s :=
    if bool_decide ((list_to_set old_bugs : gset string) ≠ list_to_set new_bugs)
    then
      let s' := update_field RR.bugs_closed RR.with_bugs_closed
                  (Draft.bugs_closed self) "bugs_closed" false (s.1, changedesc) in
      (s'.1, record_field_change "bugs_closed" (ListChange old_bugs new_bugs) <$> s'.2)
    else (s.1, changedesc) in
  let review_request := s.1 in
  let changedesc := s.2 in
  (* screenshots and their captions *)
  st <- get_store ;;
  let live := default no_relations (rr_relations st !! pk) in
  let mine := default no_relations (draft_relations st !! draft_pk) in
  let r := publish_captions (screenshots live) (screenshots mine)
             (screenshot_rows st) in
  modify (upd_screenshot_rows (λ _, r.1)) ;;;
  let changedesc := record_captions "screenshot_captions" r.2 changedesc in
  changedesc <- update_list screenshots set_screenshots
                  "screenshots" true "caption" pk draft_pk changedesc ;;
  modify (upd_rr_relations (λ tbl,
    <[pk := set_inactive_screenshots (inactive_screenshots mine)
              (default no_relations (tbl !! pk))]> tbl)) ;;;
  (* file attachments and their captions *)
  st <- get_store ;;
  let r := publish_captions (file_attachments live) (file_attachments mine)
             (file_attachment_rows st) in
  modify (upd_file_attachment_rows (λ _, r.1)) ;;;
  let changedesc := record_captions "file_captions" r.2 changedesc in
  changedesc <- update_list file_attachments set_file_attachments
                  "files" true "caption" pk draft_pk changedesc ;;
  modify (upd_rr_relations (λ tbl,
    <[pk := set_inactive_file_attachments (inactive_file_attachments mine)
              (default no_relations (tbl !! pk))]> tbl)) ;;;
  ret (review_request, changedesc).

(** The block [if self.diffset: ...]: the pending diff is noted in the
    change description, when there is one, and moved under the diff
    history of the review request. *)
Definition publish_diff (self : Draft.t) (review_request : RR.t)
    (changedesc : option ChangeDescription) : M (option ChangeDescription) :=
  st <- get_store ;;
  match Draft.diffset self with
  | Some k =>
      match diffsets st !! k with
      | Some ds =>
          modify (upd_diffsets
            <[k := {| revision := revision ds;
                      ds_history := Some (RR.diffset_history review_request);
                      files := files ds |}]>) ;;;
          ret (record_field_change "diff" (DiffAdded (revision ds) k)
                 <$> changedesc)
      | None => raise DoesNotExist
      end
  | None => ret changedesc
  end.

(** The block [if self.changedesc: ...]: the change description is
    stamped, made public, saved and added to the history. *)
Definition publish_changedesc (review_request : RR.t)
    (changedesc : option ChangeDescription) : M (option ChangeDescription) :=
  match changedesc with
  | Some cd =>
      t <- now ;;
      cd <- ChangeDescription_save
              (cd_with_public true (cd_with_timestamp t cd)) ;;
      changedescs_add review_request cd ;;;
      ret (Some cd)
  | None => ret None
  end.

(** [ReviewRequestDraft.publish].  It returns the change description
    and, beside it, the review request object it has updated (the
    caller's own object when one is passed in). *)
Definition ReviewRequestDraft_publish `{Builtins} (self : Draft.t)
    (review_request : option RR.t) (user : option User)
    (send_notification : bool) : M (RR.t * option ChangeDescription) :=
  review_request <- match review_request with
                    | Some r => ret r
                    | None => ReviewRequest_objects_get (Draft.review_request self)
                    end ;;
  let user := default (RR.submitter review_request) user in
  pk <- match RR.id review_request with
        | Some pk => ret pk
        | None => raise ValueError
        end ;;
  st <- get_store ;;
  changedesc <- match Draft.changedesc self ≫= (λ k, changedescs st !! k) with
                | Some cd => ret (Some cd)
                | None =>
                    if RR.public review_request
                    then cd <- ChangeDescription_new false "" ;; ret (Some cd)
                    else ret None
                end ;;
  s <- publish_fields self pk (review_request, changedesc) ;;
  let review_request := s.1 in
  changedesc <- publish_diff self review_request s.2 ;;
  changedesc <- publish_changedesc review_request changedesc ;;
  review_request <- ReviewRequest_save review_request false ;;
  when send_notification
       (send (review_request_published review_request user changedesc)) ;;;
  ret (review_request, changedesc).

(** *** A draft without differences

    Every caption of the relation equals its draft caption. *)
Definition captions_settled (pks : gset nat) (rows : gmap nat Captioned) : bool :=
  forallb (λ k, match rows !! k with
                | Some s => String.eqb (caption s) (draft_caption s)
                | None => true
                end) (elements pks).

(** The draft [self] does not differ from the review request: the four
    text fields are equal, the bug lists are equal as sets, the target
    groups, target people, screenshots and file attachments are the
    same, no caption is waiting, no diff is pending. *)
Definition no_differences `{Builtins} (st : Store) (self : Draft.t)
    (review_request : RR.t) : bool :=
  let live := relations_of st review_request in
  let mine := default no_relations (draft_relations st !! Draft.review_request self) in
  String.eqb (RR.summary review_request) (Draft.summary self)
  && String.eqb (RR.description review_request) (Draft.description self)
  && String.eqb (RR.testing_done review_request) (Draft.testing_done self)
  && String.eqb (RR.branch review_request) (Draft.branch self)
  && bool_decide (target_groups live = target_groups mine)
  && bool_decide (target_people live = target_people mine)
  && bool_decide ((list_to_set (BugList.get_bug_list (RR.bugs_closed review_request))
                   : gset string)
                  = list_to_set (BugList.get_bug_list (Draft.bugs_closed self)))
  && captions_settled (screenshots live) (screenshot_rows st)
  && bool_decide (screenshots live = screenshots mine)
  && captions_settled (file_attachments live) (file_attachment_rows st)
  && bool_decide (file_attachments live = file_attachments mine)
  && bool_decide (Draft.diffset self = None).

(** What the specification says of the change description that
    publishing such a draft returns: none, or one without entries. *)
Definition none_or_empty (result : option ChangeDescription) : Prop :=
  result = None ∨ ∃ cd, result = Some cd ∧ fields_changed cd = ∅.

(** The change description that a run of [publish] returned, when the
    run returned. *)
Definition returned_changedesc
    (r : (exn + RR.t * option ChangeDescription) * Store)
    : option ChangeDescription :=
  match r.1 with
  | inr (_, result) => result
  | inl _ => None
  end.

(** ** [ReviewRequest]: the lifecycle *)

(** The guard shared by [close] and [reopen]:
    [user and not self.is_mutable_by(user) and
     not user.has_perm("reviews.can_change_status")]. *)
Definition status_change_denied `{Auth} (self : RR.t) (user : option User) : bool :=
  match user with
  | Some u =>
      negb (ReviewRequest_is_mutable_by self u)
      && negb (has_perm u "reviews.can_change_status")
  | None => false
  end.

(** The end of [close]: [try: draft = self.draft.get() ... else:
    draft.delete()]. *)
Definition delete_draft_if_any (self : RR.t) : M unit :=
  st <- get_store ;;
  match draft_of st self with
  | Some draft => ReviewRequestDraft_delete draft
  | None => ret tt
  end.

(** [ReviewRequest.close] *)
Definition ReviewRequest_close `{Auth} (self : RR.t) (type : string)
    (user : option User) (description : option string) : M RR.t :=
  if status_change_denied self user then raise PermissionError
  else if negb (String.eqb type SUBMITTED || String.eqb type DISCARDED)
  then raise (AttributeError (type ++ " is not a valid close type"))
  else
    self <- (if negb (String.eqb (RR.status self) type) then
               changedesc <- ChangeDescription_new true (Py.or_empty description) ;;
               let changedesc :=
                 record_field_change "status"
                   (ScalarChange (RR.status self) type) changedesc in
               changedesc <- ChangeDescription_save changedesc ;;
               changedescs_add self changedesc ;;;
               let self := RR.with_status type self in
               self <- ReviewRequest_save self true ;;
               send (review_request_closed self user type) ;;;
               ret self
             else
               changedesc <- latest_public_changedesc self ;;
               t <- now ;;
               let changedesc :=
                 cd_with_text (Py.or_empty description)
                   (cd_with_timestamp t changedesc) in
               ChangeDescription_save changedesc ;;;
               ReviewRequest_save self false) ;;
    delete_draft_if_any self ;;;
    ret self.

(** [ReviewRequest.reopen] *)
Definition ReviewRequest_reopen `{Auth} (self : RR.t) (user : option User)
    : M RR.t :=
  if status_change_denied self user then raise PermissionError
  else
    self <- (if negb (String.eqb (RR.status self) PENDING_REVIEW) then
               changedesc <- ChangeDescription_new false "" ;;
               let changedesc :=
                 record_field_change "status"
                   (ScalarChange (RR.status self) PENDING_REVIEW) changedesc in
               self <- (if String.eqb (RR.status self) DISCARDED then
                          let self := RR.with_public false self in
                          changedesc <- ChangeDescription_save changedesc ;;
                          draft <- ReviewRequestDraft_create self ;;
                          let draft :=
                            Draft.with_changedesc (cd_id changedesc) draft in
                          ReviewRequestDraft_save draft ;;;
                          ret self
                        else
                          let changedesc := cd_with_public true changedesc in
                          changedesc <- ChangeDescription_save changedesc ;;
                          changedescs_add self changedesc ;;;
                          ret self) ;;
               let self := RR.with_status PENDING_REVIEW self in
               ReviewRequest_save self true
             else ret self) ;;
    send (review_request_reopened self user) ;;;
    ret self.

(** [ReviewRequest.publish]; [user] is a required argument, and [None]
    for it fails on the attribute access of [is_mutable_by]. *)
Definition ReviewRequest_publish `{Auth} `{Builtins} (self : RR.t)
    (user : option User) : M RR.t :=
  match user with
  | None => raise (AttributeError "'NoneType' object has no attribute 'has_perm'")
  | Some u =>
      if negb (ReviewRequest_is_mutable_by self u) then raise PermissionError
      else
        st <- get_store ;;
        when (RR.public self)
             (counter_add (-1) (target_groups (relations_of st self))) ;;;
        st <- get_store ;;
        r <- match draft_of st self with
             | Some draft =>
                 r <- ReviewRequestDraft_publish draft (Some self) None false ;;
                 ReviewRequestDraft_delete draft ;;;
                 ret r
             | None => ret (self, None)
             end ;;
        let changes : option ChangeDescription := r.2 in
        let self := RR.with_public true r.1 in
        self <- ReviewRequest_save self true ;;
        send (review_request_published self u changes) ;;;
        ret self
  end.

(** The change description of a status transition as [close] and
    [reopen] build it: one entry, for the field ["status"]. *)
Definition status_change (public : bool) (text : string) (old new : string)
    (t : Z) (k : nat) : ChangeDescription :=
  {| cd_id := Some k; cd_public := public; cd_text := text;
     cd_timestamp := t;
     fields_changed := {[ "status" := ScalarChange old new ]} |}.

(** ** Well-keyed stores

    The tables are keyed as their rows say, and every key in use is
    below the next key to be handed out. *)
Definition well_keyed (st : Store) : Prop :=
  map_Forall (λ k d, Draft.review_request d = k) (drafts st)
  ∧ map_Forall (λ k cd, cd_id cd = Some k ∧ (k < next_pk st)%nat) (changedescs st)
  ∧ map_Forall (λ k r, RR.id r = Some k ∧ (k < next_pk st)%nat) (review_requests st).

#[global] Instance well_keyed_dec (st : Store) : Decision (well_keyed st).
Proof. unfold well_keyed. apply _. Defined.

(** ** Sequences of lifecycle operations *)

(** Modelled from the spec: [ReviewRequestManager.create] is declared in
    [reviews/managers.py].  The spec has "new entity in [Pending], not
    public, owned by submitter; an initial diff-history container is
    created"; the new row is written by [ReviewRequest.save]. *)
Definition ReviewRequest_objects_create (submitter : User) : M RR.t :=
  history <- fresh_pk ;;
  ReviewRequest_save
    {| RR.id := None; RR.submitter := submitter;
       RR.status := PENDING_REVIEW; RR.public := false;
       RR.repository := None; RR.summary := ""; RR.description := "";
       RR.testing_done := ""; RR.bugs_closed := "";
       RR.diffset_history := history; RR.branch := "";
       RR.local_site := None |} false.

(** One request to the application: the review request is loaded from
    its table, the method runs on the loaded object.  [SetTargetGroups]
    is the edit that gives a request its reviewers: it opens the draft
    ([ReviewRequestDraft.create]) and replaces the draft's target
    groups, which the next [Publish] copies onto the request. *)
Inductive Op : Type :=
  | Create (submitter : User)
  | SetTargetGroups (pk : nat) (target : gset nat)
  | Publish (pk : nat) (user : User)
  | Close (pk : nat) (type : string)
  | Reopen (pk : nat)
  | Delete (pk : nat).

Definition run_op `{Auth} `{Builtins} (op : Op) : M unit :=
  match op with
  | Create submitter => ReviewRequest_objects_create submitter ;;; ret tt
  | SetTargetGroups pk target =>
      self <- ReviewRequest_objects_get pk ;;
      ReviewRequestDraft_create self ;;;
      modify (upd_draft_relations (λ tbl,
        <[pk := set_target_groups target (default no_relations (tbl !! pk))]> tbl))
  | Publish pk user =>
      self <- ReviewRequest_objects_get pk ;;
      ReviewRequest_publish self (Some user) ;;; ret tt
  | Close pk type =>
      self <- ReviewRequest_objects_get pk ;;
      ReviewRequest_close self type None None ;;; ret tt
  | Reopen pk =>
      self <- ReviewRequest_objects_get pk ;;
      ReviewRequest_reopen self None ;;; ret tt
  | Delete pk =>
      self <- ReviewRequest_objects_get pk ;;
      ReviewRequest_delete self
  end.

Fixpoint run_ops `{Auth} `{Builtins} (ops : list Op) : M unit :=
  match ops with
  | [] => ret tt
  | op :: rest => run_op op ;;; run_ops rest
  end.

(** Modelled from the spec: the counter's initializer is
    [ReviewRequest.objects.to_group(g, local_site=g.local_site).count()],
    and [to_group] is declared in [reviews/managers.py].  The spec has
    [Recompute] "re-derive the value from the authoritative relationship
    (e.g., count of requests matching a filter)": the number of stored
    review requests that target the group and pass the manager's filter
    [visible]. *)
Definition recompute (visible : RR.t → bool) (st : Store) (group : nat) : Z :=
  Z.of_nat (length (filter
    (λ kr, visible kr.2 = true
           ∧ group ∈ target_groups (default no_relations (rr_relations st !! kr.1)))
    (map_to_list (review_requests st)))).

(** The filter of the incoming-requests queries: public and pending. *)
Definition public_and_pending (r : RR.t) : bool :=
  RR.public r && String.eqb (RR.status r) PENDING_REVIEW.

(** The incrementally maintained counter of a group. *)
Definition counter_of (st : Store) (group : nat) : option Z :=
  incoming_request_count <$> groups st !! group.

(** ** Reference instances of the interfaces, for concrete runs *)

Module Reference.

(** Every authenticated user holds every permission and no site or
    repository is restricted. *)
Definition permissive : Auth :=
  {| has_perm := λ u _, is_authenticated u;
     LocalSite_is_accessible_by := λ _ _, true;
     Repository_is_accessible_by := λ _ _, true |}.

(** No user holds a permission. *)
Definition restrictive : Auth :=
  {| has_perm := λ _ _, false;
     LocalSite_is_accessible_by := λ _ _, true;
     Repository_is_accessible_by := λ _ _, true |}.

(** A pattern language of literal prefixes in which an opening
    parenthesis without its closing one does not compile, and
    [int] on ASCII decimal literals. *)
Fixpoint balanced (s : string) (depth : nat) : bool :=
  match s with
  | EmptyString => Nat.eqb depth 0
  | String "(" s' => balanced s' (S depth)
  | String ")" s' =>
      match depth with
      | O => false
      | S d => balanced s' d
      end
  | String _ s' => balanced s' depth
  end.

Definition builtins : Builtins :=
  {| py_int := BugList.decimal_int;
     regex := string;
     re_compile := λ s, if balanced s 0 then Some s else None;
     re_match := λ r s, String.prefix r s |}.

(** Managers over a store that holds no group and no reviewer rule:
    both queries find nothing. *)
Definition no_rules : Managers :=
  {| Group_objects_accessible := λ _ _, [];
     DefaultReviewer_objects_for_repository := λ _ _, [] |}.

Definition plain_group (name : string) : Group :=
  {| g_name := name; g_local_site := None; invite_only := false;
     g_users := ∅; incoming_request_count := 0; visible := true;
     ready_for_reviews := true |}.

Definition alice : User := AuthUser 1 false.
Definition bob : User := AuthUser 2 false.

(** A stored, pending, unpublished request with the given summary,
    under the key 2. *)
Definition request (summary : string) : RR.t :=
  {| RR.id := Some 2%nat; RR.submitter := alice;
     RR.status := PENDING_REVIEW; RR.public := false;
     RR.repository := None; RR.summary := summary; RR.description := "";
     RR.testing_done := ""; RR.bugs_closed := "";
     RR.diffset_history := 1%nat; RR.branch := "";
     RR.local_site := None |}.

Definition store_with (r : RR.t) : Store :=
  upd_next_pk (λ _, 3%nat)
    (upd_review_requests (λ _, {[ 2%nat := r ]})
       (upd_groups (λ _, {[ 7%nat := plain_group "reviewers" ]}) empty_store)).

Fixpoint repeat_string (n : nat) (s : string) : string :=
  match n with
  | O => ""
  | S n' => s ++ repeat_string n' s
  end.

(** 311 characters, the only periods at offsets 5 and 309. *)
Definition long_summary : string :=
  "A fix. " ++ repeat_string 30 "0123456789" ++ "tl.x".

(** The request of alice, public. *)
Definition public_request : RR.t := RR.with_public true (request "").

(** The public request with one target person (user 3) and no target
    group, in a store that holds no group at all: no query for groups
    can find a row there. *)
Definition store_with_target_person : Store :=
  upd_rr_relations (λ _, {[ 2%nat := set_target_people {[ 3%nat ]} no_relations ]})
    (upd_groups (λ _, ∅) (store_with public_request)).

(** The request of [store_with (request "")] closed as submitted with
    the description "done": the object and the store that [close]
    leaves. *)
Definition closed_once : (exn + RR.t) * Store :=
  ReviewRequest_close (H := permissive) (request "") SUBMITTED None
    (Some "done") (store_with (request "")).

Definition submitted_request : RR.t := RR.with_status SUBMITTED (request "").

(** A public request that was discarded. *)
Definition discarded_request : RR.t := RR.with_status DISCARDED public_request.

(** A store with the one group 7 and nothing else. *)
Definition group_store : Store :=
  upd_groups (λ _, {[ 7%nat := plain_group "reviewers" ]}) empty_store.

(** A request is created (key 2), given group 7 as its target,
    published, closed as submitted and then closed as discarded. *)
Definition closed_twice : list Op :=
  [Create alice; SetTargetGroups 2 {[ 7%nat ]}; Publish 2 alice;
   Close 2 SUBMITTED; Close 2 DISCARDED].

(** The discarded request reopened: the store that [reopen] leaves,
    the request as it is stored there and its draft, which carries
    change description 3 (status: D, P). *)
Definition reopened_store : Store :=
  (ReviewRequest_reopen (H := permissive) discarded_request None
     (store_with discarded_request)).2.

Definition reopened_request : RR.t :=
  RR.with_status PENDING_REVIEW (RR.with_public false discarded_request).

Definition reopened_draft : Draft.t :=
  {| Draft.review_request := 2%nat; Draft.summary := "";
     Draft.description := ""; Draft.testing_done := "";
     Draft.bugs_closed := ""; Draft.diffset := None;
     Draft.changedesc := Some 3%nat; Draft.branch := "" |}.

(** Two reviewer rules: the first pattern does not compile, the second
    sends every path under [app/] to group 7.  One diff, touching
    [app/main.py] and [README.md], in the history of [request]. *)
Definition two_rules : Managers :=
  {| Group_objects_accessible := λ _ _, [];
     DefaultReviewer_objects_for_repository := λ _ _,
       [ {| dr_name := "broken"; file_regex := "(";
            dr_groups := {[ 8%nat ]}; dr_people := ∅ |};
         {| dr_name := "app"; file_regex := "app/";
            dr_groups := {[ 7%nat ]}; dr_people := ∅ |} ] |}.

Definition one_diff : DiffSet :=
  {| revision := 1%nat; ds_history := Some 1%nat;
     files := [ {| source_file := "app/main.py"; dest_file := "app/main.py" |};
                {| source_file := ""; dest_file := "README.md" |} ] |}.

Definition draft_with_diff : Draft.t :=
  {| Draft.review_request := 2%nat; Draft.summary := "";
     Draft.description := ""; Draft.testing_done := "";
     Draft.bugs_closed := ""; Draft.diffset := Some 5%nat;
     Draft.changedesc := None; Draft.branch := "" |}.

Definition store_with_diff : Store :=
  upd_diffsets (λ _, {[ 5%nat := one_diff ]})
    (upd_drafts (λ _, {[ 2%nat := draft_with_diff ]})
       (store_with (request ""))).

End Reference.

(** * Specification predicates *)

(** What is required of a stored summary: at most [limit] characters
    and, when the input was longer and has a period among its first
    [limit] characters, the input cut just after the last such
    period. *)
Definition cut_at_sentence (limit : nat) (input stored : string) : Prop :=
  (String.length stored ≤ limit)%nat
  ∧ ((limit < String.length input)%nat →
     (∃ j, (j < limit)%nat ∧ String.get j input = Some "."%char) →
     ∃ i, (i < limit)%nat
          ∧ String.get i input = Some "."%char
          ∧ (∀ j, (i < j < limit)%nat → String.get j input ≠ Some "."%char)
          ∧ stored = substring 0 (S i) input).

(** [no_raise e m]: from no store does [m] raise [e]. *)
Definition no_raise {A} (e : exn) (m : M A) : Prop :=
  ∀ st, (m st).1 ≠ inl e.

(** What the steps of a publish may do to a change description: add
    entries, never give it another key. *)
Definition keeps_identity (g : ChangeDescription → ChangeDescription) : Prop :=
  ∀ c, cd_id (g c) = cd_id c.

(** What the steps of a publish leave alone in the store. *)
Definition same_ledger (st st' : Store) : Prop :=
  changedescs st' = changedescs st
  ∧ rr_changedescs st' = rr_changedescs st
  ∧ next_pk st' = next_pk st
  ∧ clock st' = clock st
  ∧ diffsets st' = diffsets st
  ∧ signals st' = signals st.

(** [x] is the change description [cd0], possibly with more entries. *)
Definition is_shaped (cd0 x : option ChangeDescription) : Prop :=
  ∃ g, keeps_identity g ∧ x = g <$> cd0.

(** A step that returns the change description it works on. *)
Definition shaped_cd (cd0 : option ChangeDescription)
    (m : M (option ChangeDescription)) : Prop :=
  ∀ st, ∃ x st', m st = (inr x, st') ∧ is_shaped cd0 x ∧ same_ledger st st'.

(** A step that returns the review request and the change
    description. *)
Definition shaped (cd0 : option ChangeDescription) (rr0 : RR.t)
    (m : M (RR.t * option ChangeDescription)) : Prop :=
  ∀ st, ∃ rr' x st',
    m st = (inr (rr', x), st')
    ∧ is_shaped cd0 x ∧ same_ledger st st' ∧ RR.id rr' = RR.id rr0.

(** The key under which [publish_changedesc] saves. *)
Definition key_of (st : Store) (c : ChangeDescription) : nat :=
  default (next_pk st) (cd_id c).

(** How [publish] starts: with the change description attached to the
    draft, or a new one when the request is public, or none. *)
Definition initial_changedesc (st : Store) (self : Draft.t) (rr : RR.t)
    : option ChangeDescription :=
  match Draft.changedesc self ≫= (λ k, changedescs st !! k) with
  | Some cd => Some cd
  | None =>
      if RR.public rr
      then Some {| cd_id := None; cd_public := false; cd_text := "";
                   cd_timestamp := clock st; fields_changed := ∅ |}
      else None
  end.

(** * Further methods of the module *)

(** ** [Comment.truncate_text] *)

Module Comment.

(** [Comment.truncate_text], on the text of the comment. *)
Definition truncate_text (text : string) : string :=
  if 60 <? Z.of_nat (String.length text)
  then Py.slice_to text 57 ++ "..."
  else text.

End Comment.

(** ** Change sets: [update_obj_with_changenum], [changeset_is_pending] *)

Module Changenum.

(** A change set as the SCM tool returns it ([scmtools.core.ChangeSet]):
    the attributes this module reads. *)
Record ChangeSet : Type := {
  cs_summary : string;
  cs_description : string;
  cs_testing_done : string;
  cs_branch : string;
  cs_bugs_closed : list string;
  cs_pending : bool
}.

(** The exceptions of a change-set lookup: the one this module raises,
    the two it catches in [changeset_is_pending], the [AttributeError]
    of a request without repository ([None.get_scmtool()]), and any
    other error of the tool. *)
Inductive error : Type :=
  | InvalidChangeNumberError
  | EmptyChangeSetError
  | NotImplementedError
  | NoRepository
  | ToolError (msg : string).

(** [repository.get_scmtool().get_changeset(changenum)]: the tool is
    not part of this module.  [inr None] is the answer [None]. *)
Class SCMTool := {
  get_changeset : nat → Z → error + option ChangeSet
}.

Definition lookup_changeset `{SCMTool} (repository : option nat) (number : Z)
    : error + option ChangeSet :=
  match repository with
  | Some repo => get_changeset repo number
  | None => inl NoRepository
  end.

(** The attributes of [obj] that [update_obj_with_changenum] assigns;
    [obj] is a review request or a draft. *)
Record Fields : Type := {
  changenum : option Z;
  summary : string;
  description : string;
  testing_done : string;
  branch : string;
  bugs_closed : string
}.

(** [update_obj_with_changenum(obj, repository, changenum)].  The only
    statement that can raise comes first, so [obj] is either updated as
    a whole or not at all. *)
Definition update_obj_with_changenum `{SCMTool} (obj : Fields)
    (repository : option nat) (number : Z) : error + Fields :=
  match lookup_changeset repository number with
  | inl e => inl e
  | inr None => inl InvalidChangeNumberError
  | inr (Some changeset) =>
      inr {| changenum := Some number;
             summary := cs_summary changeset;
             description := cs_description changeset;
             testing_done :=
               if String.eqb (cs_testing_done changeset) ""
               then testing_done obj else cs_testing_done changeset;
             branch :=
               if String.eqb (cs_branch changeset) ""
               then branch obj else cs_branch changeset;
             bugs_closed :=
               match cs_bugs_closed changeset with
               | [] => bugs_closed obj
               | bugs => BugList.join bugs
               end |}
  end.

(** [ReviewRequest.changeset_is_pending], on the request's [changenum]
    and repository.  The answer is [changeset and changeset.pending]:
    [None] without a change set, its [pending] flag otherwise. *)
Definition changeset_is_pending `{SCMTool} (number : option Z)
    (repository : option nat) : error + option bool :=
  match number with
  | None => inr None
  | Some n =>
      if n =? 0 then inr None
      else
        match lookup_changeset repository n with
        | inl EmptyChangeSetError => inr None
        | inl NotImplementedError => inr None
        | inl e => inl e
        | inr None => inr None
        | inr (Some changeset) => inr (Some (cs_pending changeset))
        end
  end.

End Changenum.

(** ** Reviews: [Review.is_accessible_by] *)

(** The columns of [Review] that the access rule and the queries
    read. *)
Record Review : Type := {
  rv_review_request : nat;
  rv_user : User;
  rv_public : bool;
  rv_base_reply_to : option nat
}.

(** [Review.is_accessible_by].  [self.review_request] loads the row of
    the foreign key. *)
Definition Review_is_accessible_by `{Auth} `{Managers}
    (st : Store) (self : Review) (user : User) : exn + bool :=
  if existsb (λ group, negb (ready_for_reviews group))
       (group_rows st (Group_objects_accessible st user))
  then inr false
  else
    match review_requests st !! rv_review_request self with
    | None => inl DoesNotExist
    | Some review_request =>
        if user_eqb (RR.submitter review_request) user then inr true
        else if existsb (λ group, Group_is_accessible_by group user)
                  (group_rows st (Group_objects_accessible st (rv_user self)))
        then inr true
        else inr false
    end.

(** ** Drafts of a request: [get_draft], [can_publish] *)

(** [ReviewRequest.get_draft].  With a user, the query is
    [self.draft.get(review_request__submitter=user)]: the submitter is
    read from the stored row of the request. *)
Definition ReviewRequest_get_draft (st : Store) (self : RR.t)
    (user : option User) : option Draft.t :=
  match user with
  | None => draft_of st self
  | Some user =>
      if is_authenticated user then
        match draft_of st self with
        | Some draft =>
            match review_requests st !! Draft.review_request draft with
            | Some row =>
                if user_eqb (RR.submitter row) user then Some draft else None
            | None => None
            end
        | None => None
        end
      else None
  end.

(** [ReviewRequest.can_publish] *)
Definition ReviewRequest_can_publish (st : Store) (self : RR.t) : bool :=
  negb (RR.public self) || bool_decide (draft_of st self ≠ None).

(** ** Sample data for the methods above *)

Module Samples.

(** A change set with two bugs, a branch and no testing notes; the tool
    knows it as number 7 of repository 1, has an empty change set under
    number 8 and nothing else. *)
Definition changeset_7 : Changenum.ChangeSet :=
  {| Changenum.cs_summary := "Fix crash";
     Changenum.cs_description := "Check the index.";
     Changenum.cs_testing_done := "";
     Changenum.cs_branch := "trunk";
     Changenum.cs_bugs_closed := ["10"; "9"];
     Changenum.cs_pending := true |}.

Definition tool : Changenum.SCMTool :=
  {| Changenum.get_changeset := λ _ number,
       if number =? 7 then inr (Some changeset_7)
       else if number =? 8 then inl Changenum.EmptyChangeSetError
       else inr None |}.

Definition edited_fields : Changenum.Fields :=
  {| Changenum.changenum := None;
     Changenum.summary := "wip";
     Changenum.description := "";
     Changenum.testing_done := "ran the unit tests";
     Changenum.branch := "";
     Changenum.bugs_closed := "1" |}.

(** An invite-only group of which user 1 is the only member, and a
    group that is not yet ready for reviews. *)
Definition private_group : Group :=
  {| g_name := "core"; g_local_site := None; invite_only := true;
     g_users := {[ 1%nat ]}; incoming_request_count := 0; visible := true;
     ready_for_reviews := true |}.

Definition unready_group : Group :=
  {| g_name := "students"; g_local_site := None; invite_only := false;
     g_users := ∅; incoming_request_count := 0; visible := true;
     ready_for_reviews := false |}.

(** A manager for which every user is in group 7. *)
Definition everyone_in_7 : Managers :=
  {| Group_objects_accessible := λ _ _, [7%nat];
     DefaultReviewer_objects_for_repository := λ _ _, [] |}.

(** The request of alice under key 2, with group 7 not ready for
    reviews, and a review of it by bob. *)
Definition unready_store : Store :=
  upd_groups (λ _, {[ 7%nat := unready_group ]})
    (Reference.store_with (Reference.request "")).

Definition review_by_bob : Review :=
  {| rv_review_request := 2%nat; rv_user := Reference.bob;
     rv_public := true; rv_base_reply_to := None |}.

(** The public request of alice with target group 7, counted once in
    the counter of the group. *)
Definition counted_group : Group :=
  {| g_name := "reviewers"; g_local_site := None; invite_only := false;
     g_users := ∅; incoming_request_count := 1; visible := true;
     ready_for_reviews := true |}.

Definition targeted_store : Store :=
  upd_groups (λ _, {[ 7%nat := counted_group ]})
    (upd_rr_relations
       (λ _, {[ 2%nat := set_target_groups {[ 7%nat ]} no_relations ]})
       (Reference.store_with Reference.public_request)).

(** The public request of alice with a stored draft that has no
    change description. *)
Definition plain_draft : Draft.t :=
  {| Draft.review_request := 2%nat; Draft.summary := "";
     Draft.description := ""; Draft.testing_done := "";
     Draft.bugs_closed := ""; Draft.diffset := None;
     Draft.changedesc := None; Draft.branch := "" |}.

Definition store_with_plain_draft : Store :=
  upd_drafts (λ _, {[ 2%nat := plain_draft ]})
    (Reference.store_with Reference.public_request).

(** One reviewer rule: every path under [app/] goes to group 7 and to
    user 3. *)
Definition app_rule : DefaultReviewer :=
  {| dr_name := "app"; file_regex := "app/";
     dr_groups := {[ 7%nat ]}; dr_people := {[ 3%nat ]} |}.

Definition one_rule : Managers :=
  {| Group_objects_accessible := λ _ _, [];
     DefaultReviewer_objects_for_repository := λ _ _, [app_rule] |}.

(** The pending, unpublished request of alice with a draft that has a
    new title, two bugs and group 7 as its target. *)
Definition edited_draft : Draft.t :=
  {| Draft.review_request := 2%nat; Draft.summary := "New title";
     Draft.description := "What changed."; Draft.testing_done := "";
     Draft.bugs_closed := "12, 7"; Draft.diffset := None;
     Draft.changedesc := None; Draft.branch := "trunk" |}.

Definition store_with_edited_draft : Store :=
  upd_draft_relations
    (λ _, {[ 2%nat := set_target_groups {[ 7%nat ]} no_relations ]})
    (upd_drafts (λ _, {[ 2%nat := edited_draft ]})
       (Reference.store_with (Reference.request ""))).

(** The public request of alice after it was submitted, with group 7
    as its target; the group counts nothing. *)
Definition submitted_store : Store :=
  upd_rr_relations
    (λ _, {[ 2%nat := set_target_groups {[ 7%nat ]} no_relations ]})
    (Reference.store_with (RR.with_status SUBMITTED Reference.public_request)).

End Samples.

(** * Further specification predicates *)

(** A rule of [rules] whose pattern compiles and matches the path of
    one of [files] names the reviewer [x] among [members]. *)
Definition matched_by `{Builtins} (rules : list DefaultReviewer)
    (files : list FileDiff) (members : DefaultReviewer → gset nat)
    (x : nat) : Prop :=
  ∃ default regex filediff,
    default ∈ rules
    ∧ re_compile (file_regex default) = Some regex
    ∧ filediff ∈ files
    ∧ re_match regex (filediff_path filediff) = true
    ∧ x ∈ members default.

(** [m] returns from [st], with a result and a store that satisfy
    [Q]. *)
Definition returns {A} (m : M A) (st : Store) (Q : A → Store → Prop) : Prop :=
  ∃ a st', m st = (inr a, st') ∧ Q a st'.

(** The relations of the request stored under [pk], and those of its
    draft. *)
Definition relations_at (st : Store) (pk : nat) : Relations :=
  default no_relations (rr_relations st !! pk).

Definition draft_relations_at (st : Store) (pk : nat) : Relations :=
  default no_relations (draft_relations st !! pk).

(** The tables that the copy of a draft onto its request leaves
    alone. *)
Definition same_rows (st st' : Store) : Prop :=
  groups st' = groups st
  ∧ review_requests st' = review_requests st
  ∧ rr_visits st' = rr_visits st
  ∧ drafts st' = drafts st
  ∧ draft_relations st' = draft_relations st.

(** A step of the copy: it changes the relations of the request [pk]
    by [F] and, besides the captions, nothing else. *)
Definition fields_step (pk : nat) (F : Relations → Relations)
    (st st' : Store) : Prop :=
  same_ledger st st'
  ∧ same_rows st st'
  ∧ relations_at st' pk = F (relations_at st pk)
  ∧ ∀ k, k ≠ pk → rr_relations st' !! k = rr_relations st !! k.

(** The columns of the request [rr'] after the fields of the draft
    [self] were copied onto [rr]: the four texts are the draft's, the
    bug string is the draft's unless the two bug lists were equal as
    sets, the other columns are as before. *)
Definition takes_fields `{Builtins} (self : Draft.t) (rr rr' : RR.t) : Prop :=
  RR.summary rr' = Draft.summary self
  ∧ RR.description rr' = Draft.description self
  ∧ RR.testing_done rr' = Draft.testing_done self
  ∧ RR.branch rr' = Draft.branch self
  ∧ RR.bugs_closed rr'
    = (if bool_decide
            ((list_to_set (BugList.get_bug_list (RR.bugs_closed rr)) : gset string)
             ≠ list_to_set (BugList.get_bug_list (Draft.bugs_closed self)))
       then Draft.bugs_closed self else RR.bugs_closed rr)
  ∧ RR.id rr' = RR.id rr
  ∧ RR.submitter rr' = RR.submitter rr
  ∧ RR.status rr' = RR.status rr
  ∧ RR.public rr' = RR.public rr
  ∧ RR.repository rr' = RR.repository rr
  ∧ RR.diffset_history rr' = RR.diffset_history rr
  ∧ RR.local_site rr' = RR.local_site rr.

(** The tables of requests, drafts, relations and groups and the
    signals are the same in the two stores. *)
Definition same_requests (st st' : Store) : Prop :=
  same_rows st st'
  ∧ rr_relations st' = rr_relations st
  ∧ signals st' = signals st.

(** What [ReviewRequest.save] makes of the columns: the bug string
    stripped, the summary cut. *)
Definition saved_columns (self : RR.t) : RR.t :=
  RR.with_summary (truncate (RR.summary self) MAX_SUMMARY_LENGTH)
    (RR.with_bugs_closed (Py.strip (RR.bugs_closed self)) self).

(** A diff moved under the diff history of a request. *)
Definition moved_to (history : nat) (ds : DiffSet) : DiffSet :=
  {| revision := revision ds; ds_history := Some history; files := files ds |}.

(** By how much [_update_counts] moves the counter of group [g] for the
    request [self] whose stored row is [row] and whose target groups
    are [targets]. *)
Definition count_delta (self row : RR.t) (targets : gset nat) (g : nat) : Z :=
  if bool_decide (g ∈ targets) then
    if String.eqb (RR.status self) PENDING_REVIEW
    then (if RR.public self then 1 else 0)
    else (if RR.public row then -1 else 0)
  else 0.

(** The counter of the group [g] is right: it is the number of public,
    pending requests that target the group. *)
Definition counted (st : Store) (g : nat) : Prop :=
  counter_of st g = Some (recompute public_and_pending st g).

(** [1] for a request that is counted for the group [g], [0]
    otherwise. *)
Definition counts_for (r : RR.t) (targets : gset nat) (g : nat) : Z :=
  if public_and_pending r && bool_decide (g ∈ targets) then 1 else 0.

(** * Properties *)

(** ** Issue status codes *)

Section IssueStatus.
Import BaseComment.

(** C10: for every status character in O, R, D the string form parses
    back to the character; [issue_status_to_string] is the empty string
    on every other input; [issue_string_to_status] raises on every
    string other than "open", "resolved", "dropped". *)
Theorem issue_status_codes (c : string) :
  (c ∈ ["O"; "R"; "D"] →
     issue_string_to_status (issue_status_to_string c) = inr c)
  ∧ (c ∉ ["O"; "R"; "D"] → issue_status_to_string c = "")
  ∧ (c ∉ ["open"; "resolved"; "dropped"] →
       issue_string_to_status c
       = inl (Exception ("Invalid issue status '" ++ c ++ "'"))).
Proof.
  split; [|split].
  - intros Hc. repeat (apply elem_of_cons in Hc as [->|Hc]; [reflexivity|]).
    by apply elem_of_nil in Hc.
  - intros Hc. unfold issue_status_to_string.
    repeat match goal with
           | |- context [String.eqb c ?k] =>
               destruct (String.eqb_spec c k) as [->|_];
               [exfalso; apply Hc; set_solver|]
           end.
    reflexivity.
  - intros Hc. unfold issue_string_to_status.
    repeat match goal with
           | |- context [String.eqb c ?k] =>
               destruct (String.eqb_spec c k) as [->|_];
               [exfalso; apply Hc; set_solver|]
           end.
    reflexivity.
Qed.

Lemma issue_status_codes_witness :
  BaseComment.issue_string_to_status (BaseComment.issue_status_to_string "R")
  = inr "R"
  ∧ BaseComment.issue_status_to_string "X" = ""
  ∧ BaseComment.issue_string_to_status "closed"
    = inl (Exception "Invalid issue status 'closed'").
Proof.
  destruct (issue_status_codes "R") as (H1 & _ & _).
  destruct (issue_status_codes "X") as (_ & H2 & _).
  destruct (issue_status_codes "closed") as (_ & _ & H3).
  split; [|split].
  - apply H1. set_solver.
  - apply H2. intros H. repeat (apply elem_of_cons in H as [H|H]; [discriminate H|]).
    by apply elem_of_nil in H.
  - apply H3. intros H. repeat (apply elem_of_cons in H as [H|H]; [discriminate H|]).
    by apply elem_of_nil in H.
Defined.

End IssueStatus.

(** ** Strings: prefixes and the last occurrence of a character *)

Section StringFacts.

Lemma length_prefix (n : nat) (s : string) :
  String.length (substring 0 n s) = Nat.min n (String.length s).
Proof.
  revert n. induction s as [|a s IH]; intros [|n]; simpl; auto.
Qed.

Lemma get_prefix (n j : nat) (s : string) :
  (j < n)%nat → String.get j (substring 0 n s) = String.get j s.
Proof.
  revert n j. induction s as [|a s IH]; intros [|n] [|j] Hj; simpl;
    try reflexivity; try lia.
  apply IH. lia.
Qed.

Lemma prefix_of_prefix (m n : nat) (s : string) :
  (m ≤ n)%nat → substring 0 m (substring 0 n s) = substring 0 m s.
Proof.
  revert m n. induction s as [|a s IH]; intros [|m] [|n] Hmn; simpl;
    try reflexivity; try lia.
  f_equal. apply IH. lia.
Qed.

Lemma get_Some_lt (j : nat) (s : string) (a : ascii) :
  String.get j s = Some a → (j < String.length s)%nat.
Proof.
  revert j. induction s as [|b s IH]; intros [|j] Hj; simpl in *;
    try discriminate; try lia.
  apply IH in Hj. lia.
Qed.

(** [find_last] answers [best] when the character does not occur, and
    otherwise the offset of its last occurrence. *)
Lemma find_last_spec (c : ascii) (s : string) (i best : Z) :
  (Py.find_last c s i best = best ∧ ∀ j, String.get j s ≠ Some c)
  ∨ (∃ k : nat,
       Py.find_last c s i best = i + Z.of_nat k
       ∧ String.get k s = Some c
       ∧ ∀ j, (k < j)%nat → String.get j s ≠ Some c).
Proof.
  revert i best. induction s as [|a s IH]; intros i best; simpl.
  - left. split; [reflexivity|]. intros j. by destruct j.
  - destruct (IH (i + 1) (if Ascii.eqb a c then i else best))
      as [[Hr Hno]|(k & Hr & Hk & Hlast)].
    + destruct (Ascii.eqb_spec a c) as [->|Hne].
      * right. exists 0%nat. rewrite Hr. split; [lia|]. split; [reflexivity|].
        intros [|j] Hj; [lia|]. apply Hno.
      * left. split; [exact Hr|]. intros [|j]; [congruence|apply Hno].
    + right. exists (S k). rewrite Hr. split; [lia|]. split; [exact Hk|].
      intros [|j] Hj; [lia|]. apply Hlast. lia.
Qed.

Lemma rfind_spec (s : string) (c : ascii) :
  (Py.rfind s c = -1 ∧ ∀ j, String.get j s ≠ Some c)
  ∨ (∃ k : nat,
       Py.rfind s c = Z.of_nat k
       ∧ String.get k s = Some c
       ∧ ∀ j, (k < j)%nat → String.get j s ≠ Some c).
Proof.
  unfold Py.rfind.
  destruct (find_last_spec c s 0 (-1)) as [H|(k & Hr & H)]; [by left|].
  right. exists k. by rewrite Hr.
Qed.

Lemma slice_to_nonneg (s : string) (n : nat) :
  Py.slice_to s (Z.of_nat n) = substring 0 n s.
Proof.
  unfold Py.slice_to. destruct (Z.ltb_spec (Z.of_nat n) 0); [lia|].
  by rewrite Nat2Z.id.
Qed.

End StringFacts.

(** ** The summary limit *)

Lemma truncate_short (s : string) (num : nat) :
  (String.length s ≤ num)%nat → truncate s (Z.of_nat num) = s.
Proof.
  intros Hlen. unfold truncate.
  destruct (Z.ltb_spec (Z.of_nat num) (Z.of_nat (String.length s))); [lia|done].
Qed.

Lemma truncate_cut_at_sentence (s : string) (num : nat) :
  cut_at_sentence num s (truncate s (Z.of_nat num)).
Proof.
  unfold cut_at_sentence.
  destruct (Nat.le_gt_cases (String.length s) num) as [Hshort|Hlong].
  { rewrite truncate_short by done. split; [done|lia]. }
  unfold truncate.
  destruct (Z.ltb_spec (Z.of_nat num) (Z.of_nat (String.length s))); [|lia].
  rewrite slice_to_nonneg.
  assert (Hp : String.length (substring 0 num s) = num)
    by (rewrite length_prefix; lia).
  destruct (rfind_spec (substring 0 num s) "."%char)
    as [[Hr Hno]|(k & Hr & Hk & Hlast)]; rewrite Hr.
  - simpl. split; [lia|]. intros _ (j & Hj & Hdot).
    exfalso. apply (Hno j). by rewrite get_prefix.
  - assert (Hklt : (k < num)%nat)
      by (apply get_Some_lt in Hk; lia).
    destruct (Z.eqb_spec (Z.of_nat k) (-1)); [lia|]. simpl.
    replace (Z.of_nat k + 1) with (Z.of_nat (S k)) by lia.
    rewrite slice_to_nonneg, prefix_of_prefix by lia.
    split; [rewrite length_prefix; lia|].
    intros _ _. exists k. split; [done|].
    split; [by rewrite <- (get_prefix num) by done|].
    split; [|done].
    intros j [Hj1 Hj2]. rewrite <- (get_prefix num) by done. by apply Hlast.
Qed.

(** ** Running the monad *)

Lemma upd_groups_id (st : Store) : upd_groups (λ g, g) st = st.
Proof. by destruct st. Qed.

Ltac run_monad :=
  unfold bind, ret, raise, modify, get_store, when, send, now, fresh_pk in *;
  simpl in *.

(** [_update_counts] raises only when the object has a key without a
    row; otherwise it returns and touches nothing but the group
    counters. *)
Lemma update_counts_returns (self : RR.t) (st : Store) :
  (∀ pk, RR.id self = Some pk → is_Some (review_requests st !! pk)) →
  ∃ f, ReviewRequest_update_counts self st = (inr (), upd_groups f st).
Proof.
  intros Hrow. unfold ReviewRequest_update_counts, ReviewRequest_objects_get,
    counter_add.
  destruct (RR.id self) as [pk|] eqn:Hid; run_monad.
  - destruct (Hrow pk eq_refl) as [r Hr]. rewrite Hr. simpl.
    destruct (String.eqb _ _); [destruct (RR.public self)|destruct (RR.public r)];
      simpl; eauto; exists (λ g, g); by rewrite upd_groups_id.
  - destruct (String.eqb _ _); rewrite ?andb_false_r;
      exists (λ g, g); by rewrite upd_groups_id.
Qed.

(** C6: whenever a review request or a draft is saved, the stored
    summary has at most 300 characters and, when the input was longer
    and has a period among its first 300 characters, it is the input
    cut just after the last such period. *)
Theorem saved_summary_is_cut :
  (∀ (self : RR.t) (update_counts : bool) (st : Store),
     (∀ pk, RR.id self = Some pk → is_Some (review_requests st !! pk)) →
     ∃ self' st' pk,
       ReviewRequest_save self update_counts st = (inr self', st')
       ∧ RR.id self' = Some pk
       ∧ review_requests st' !! pk = Some self'
       ∧ cut_at_sentence 300 (RR.summary self) (RR.summary self'))
  ∧ (∀ (self : Draft.t) (st : Store),
       ∃ self' st',
         ReviewRequestDraft_save self st = (inr self', st')
         ∧ drafts st' !! Draft.review_request self = Some self'
         ∧ cut_at_sentence 300 (Draft.summary self) (Draft.summary self')).
Proof.
  split.
  - intros self uc st Hrow. unfold ReviewRequest_save.
    set (self1 := RR.with_summary _ _).
    assert (Hsum : cut_at_sentence 300 (RR.summary self) (RR.summary self1))
      by apply (truncate_cut_at_sentence _ 300).
    assert (Hid : RR.id self1 = RR.id self) by reflexivity.
    assert (Hcounts : ∃ f, when (uc || bool_decide (RR.id self1 = None))
                             (ReviewRequest_update_counts self1) st
                           = (inr (), upd_groups f st)).
    { destruct (uc || _).
      - apply update_counts_returns. by rewrite Hid.
      - exists (λ g, g). by rewrite upd_groups_id. }
    destruct Hcounts as [f Hcounts].
    unfold bind at 1. rewrite Hcounts.
    unfold Model_save. rewrite Hid.
    destruct (RR.id self) as [pk|] eqn:Hpk.
    + destruct (negb _); run_monad;
        (exists self1; eexists; exists pk);
        (split; [reflexivity|]); simpl; rewrite lookup_insert_eq; auto.
    + destruct (negb _); run_monad;
        (eexists; eexists; exists (next_pk st));
        (split; [reflexivity|]); simpl; rewrite lookup_insert_eq; auto.
  - intros self st. unfold ReviewRequestDraft_save. run_monad.
    eexists. eexists. split; [reflexivity|]. simpl.
    rewrite lookup_insert_eq. split; [reflexivity|].
    apply (truncate_cut_at_sentence _ 300).
Qed.

Lemma saved_summary_is_cut_witness :
  (∃ self' st' pk,
     ReviewRequest_save (Reference.request Reference.long_summary) true
       (Reference.store_with (Reference.request "")) = (inr self', st')
     ∧ RR.id self' = Some pk
     ∧ review_requests st' !! pk = Some self'
     ∧ cut_at_sentence 300 Reference.long_summary (RR.summary self'))
  ∧ RR.summary
      (Reference.request (truncate Reference.long_summary MAX_SUMMARY_LENGTH))
    = "A fix.".
Proof.
  split; [|reflexivity].
  apply (proj1 saved_summary_is_cut).
  intros pk [= <-]. by eexists.
Defined.

(** ** Which exceptions a method can raise *)

Section NoRaise.
Context {A B : Type} (e : exn).

Lemma no_raise_ret (a : A) : no_raise e (ret a).
Proof. intros st. discriminate. Qed.

Lemma no_raise_bind (m : M A) (k : A → M B) :
  no_raise e m → (∀ a, no_raise e (k a)) → no_raise e (bind m k).
Proof.
  intros Hm Hk st. unfold bind. specialize (Hm st).
  destruct (m st) as [[e'|a] st']; simpl in *; [congruence|apply Hk].
Qed.

Lemma no_raise_raise (e' : exn) : e' ≠ e → no_raise e (raise e' : M A).
Proof. intros Hne st. simpl. congruence. Qed.

Lemma no_raise_modify (f : Store → Store) : no_raise e (modify f).
Proof. intros st. discriminate. Qed.

Lemma no_raise_get_store : no_raise e get_store.
Proof. intros st. discriminate. Qed.

Lemma no_raise_now : no_raise e now.
Proof. intros st. discriminate. Qed.

Lemma no_raise_fresh_pk : no_raise e fresh_pk.
Proof. intros st. discriminate. Qed.

Lemma no_raise_send (s : Signal) : no_raise e (send s).
Proof. intros st. discriminate. Qed.

Lemma no_raise_when (b : bool) (m : M unit) :
  no_raise e m → no_raise e (when b m).
Proof. intros Hm. destruct b; [done|]. intros st. discriminate. Qed.

End NoRaise.

Create HintDb no_raise.
#[export] Hint Resolve no_raise_ret no_raise_modify no_raise_get_store
  no_raise_now no_raise_fresh_pk no_raise_send : no_raise.

(** One step of a proof that a method does not raise [e]: through the
    binds and the case distinctions of its body. *)
Ltac no_raise_step :=
  match goal with
  | |- no_raise _ (bind _ _) => apply no_raise_bind; [|intros ?]
  | |- no_raise _ (when _ _) => apply no_raise_when
  | |- no_raise _ (raise _) => apply no_raise_raise; discriminate
  | |- no_raise _ (if ?b then _ else _) => destruct b
  | |- no_raise _ (match ?x with _ => _ end) => destruct x
  | |- no_raise _ _ => solve [auto with no_raise]
  end.

Ltac no_raise_auto := cbv zeta; repeat (no_raise_step; cbv zeta).

Section PermissionChecks.
Context `{Auth} `{Builtins}.

Lemma no_permission_error_in_save (self : RR.t) (update_counts : bool) :
  no_raise PermissionError (ReviewRequest_save self update_counts).
Proof.
  unfold ReviewRequest_save, ReviewRequest_update_counts,
    ReviewRequest_objects_get, Model_save, counter_add.
  no_raise_auto.
Qed.

Lemma no_permission_error_in_changedesc_save (cd : ChangeDescription) :
  no_raise PermissionError (ChangeDescription_save cd).
Proof. unfold ChangeDescription_save. no_raise_auto. Qed.

Lemma no_permission_error_in_draft_create (self : RR.t) :
  no_raise PermissionError (ReviewRequestDraft_create self).
Proof.
  pose proof no_permission_error_in_changedesc_save.
  unfold ReviewRequestDraft_create, ReviewRequestDraft_save,
    ChangeDescription_new.
  no_raise_auto.
Qed.

Hint Resolve no_permission_error_in_save
  no_permission_error_in_changedesc_save
  no_permission_error_in_draft_create : no_raise.

(** C9: with no acting user, [close] and [reopen] make no permission
    check and never raise [PermissionError], whatever the request and
    the store; [publish] checks its user and raises [PermissionError]
    for a user without the edit permission before it changes
    anything. *)
Theorem permission_checks_of_lifecycle :
  (∀ self type description,
     status_change_denied self None = false
     ∧ no_raise PermissionError (ReviewRequest_close self type None description))
  ∧ (∀ self,
       status_change_denied self None = false
       ∧ no_raise PermissionError (ReviewRequest_reopen self None))
  ∧ (∀ self user st,
       ReviewRequest_is_mutable_by self user = false →
       ReviewRequest_publish self (Some user) st = (inl PermissionError, st)).
Proof.
  split; [|split].
  - intros self type description. split; [reflexivity|].
    unfold ReviewRequest_close, latest_public_changedesc, changedescs_add,
      delete_draft_if_any, ReviewRequestDraft_delete, ChangeDescription_new.
    unfold status_change_denied. no_raise_auto.
  - intros self. split; [reflexivity|].
    unfold ReviewRequest_reopen, changedescs_add, ReviewRequestDraft_save,
      ChangeDescription_new.
    unfold status_change_denied. no_raise_auto.
  - intros self user st Hperm. unfold ReviewRequest_publish.
    by rewrite Hperm.
Qed.

End PermissionChecks.

Lemma permission_checks_of_lifecycle_witness :
  ReviewRequest_publish (H := Reference.restrictive) (H0 := Reference.builtins)
    (Reference.request "") (Some Reference.bob)
    (Reference.store_with (Reference.request ""))
  = (inl PermissionError, Reference.store_with (Reference.request "")).
Proof.
  apply (proj2 (proj2 (@permission_checks_of_lifecycle
                         Reference.restrictive Reference.builtins))).
  reflexivity.
Defined.

(** ** Default reviewers and malformed patterns *)

Section DefaultReviewers.
Context `{Builtins} `{Managers}.

(** The draft's matcher skips a rule whose pattern does not compile and
    goes on with the others: it answers what it answers on the rules
    that compile. *)
Lemma draft_matcher_skips_malformed (defaults : list DefaultReviewer)
    (files : list FileDiff) (people groups : gset nat) :
  match_defaults_draft defaults files people groups
  = match_defaults_draft (List.filter compiles defaults) files people groups.
Proof.
  revert people groups.
  induction defaults as [|d rest IH]; intros people groups; [reflexivity|].
  simpl. unfold compiles at 1.
  destruct (re_compile (file_regex d)) as [r|] eqn:Hd; [|apply IH].
  simpl. rewrite Hd. destruct (existsb _ _); apply IH.
Qed.

(** The draft's method returns from every store. *)
Lemma draft_add_default_reviewers_returns (self : Draft.t) (st : Store) :
  ∃ st', ReviewRequestDraft_add_default_reviewers self st = (inr (), st').
Proof.
  unfold ReviewRequestDraft_add_default_reviewers. run_monad.
  destruct (Draft.diffset self ≫= _); [|by eexists].
  destruct (match_defaults_draft _ _ _ _). by eexists.
Qed.

(** Where every pattern compiles the two matchers agree. *)
Lemma matchers_agree_on_compiling_rules (defaults : list DefaultReviewer)
    (files : list FileDiff) (people groups : gset nat) :
  forallb compiles defaults = true →
  match_defaults_request defaults files people groups
  = inr (match_defaults_draft defaults files people groups).
Proof.
  revert people groups.
  induction defaults as [|d rest IH]; intros people groups Hall; [reflexivity|].
  simpl in *. apply andb_prop in Hall as [Hd Hrest]. unfold compiles in Hd.
  destruct (re_compile (file_regex d)); [|discriminate].
  destruct (existsb _ _); by apply IH.
Qed.

(** The request's matcher raises as soon as one pattern does not
    compile. *)
Lemma request_matcher_raises (defaults : list DefaultReviewer)
    (files : list FileDiff) (people groups : gset nat) :
  forallb compiles defaults = false →
  match_defaults_request defaults files people groups = inl RegexError.
Proof.
  revert people groups.
  induction defaults as [|d rest IH]; intros people groups Hbad; [discriminate|].
  simpl in *. unfold compiles in Hbad at 1.
  destruct (re_compile (file_regex d)); [|reflexivity].
  destruct (existsb _ _); by apply IH.
Qed.

(** C7, on [ReviewRequest.add_default_reviewers]: when the request has
    one diff and some rule of its repository has a pattern that does not
    compile, the method raises the compilation error and adds no
    reviewer, where the claim has the rule skipped. *)
Theorem request_add_default_reviewers_raises (self : RR.t) (st : Store)
    (k : nat) (diffset : DiffSet) :
  filter (λ kd, ds_history kd.2 = Some (RR.diffset_history self))
         (map_to_list (diffsets st)) = [(k, diffset)] →
  forallb compiles
    (DefaultReviewer_objects_for_repository st (RR.repository self)) = false →
  ReviewRequest_add_default_reviewers self st = (inl RegexError, st).
Proof.
  intros Hone Hbad. unfold ReviewRequest_add_default_reviewers. run_monad.
  rewrite Hone. by rewrite request_matcher_raises.
Qed.

End DefaultReviewers.

Lemma request_add_default_reviewers_raises_witness :
  ReviewRequest_add_default_reviewers
    (H := Reference.builtins) (H0 := Reference.two_rules)
    (Reference.request "") Reference.store_with_diff
  = (inl RegexError, Reference.store_with_diff).
Proof.
  apply (@request_add_default_reviewers_raises
           Reference.builtins Reference.two_rules _ _ 5%nat Reference.one_diff);
    reflexivity.
Defined.

(** On the same store the draft's method skips the broken rule and adds
    group 7 for [app/main.py]. *)
Example draft_add_default_reviewers_skips :
  let r := ReviewRequestDraft_add_default_reviewers
             (H := Reference.builtins) (H0 := Reference.two_rules)
             Reference.draft_with_diff Reference.store_with_diff in
  r.1 = inr ()
  ∧ target_groups <$> draft_relations r.2 !! 2%nat = Some {[ 7%nat ]}.
Proof. split; reflexivity. Qed.

(** ** Visibility of a review request *)

Section Visibility.
Context `{Auth} `{Managers}.

Lemma count_pk_pos (rel : gset nat) (pk : option nat) :
  (0 <? count_pk rel pk) = true ↔ ∃ k, pk = Some k ∧ k ∈ rel.
Proof.
  unfold count_pk. destruct pk as [k|]; [destruct (decide (k ∈ rel))|]; simpl;
    split; try discriminate; try (intros (k' & [= <-] & Hk); done);
    try (intros (k' & Hk & _); discriminate); eauto.
Qed.

Lemma existsb_accessible (gs : list Group) (user : User) :
  existsb (λ group, Group_is_accessible_by group user) gs = true
  ↔ ∃ g, g ∈ gs ∧ Group_is_accessible_by g user = true.
Proof.
  rewrite existsb_exists. split; intros (g & Hg & Hacc); exists g;
    (split; [by apply list_elem_of_In|done]).
Qed.

(** The method as one boolean formula. *)
Lemma is_accessible_by_formula (st : Store) (self : RR.t) (user : User)
    (local_site : option nat) :
  ReviewRequest_is_accessible_by st self user local_site
  = (RR.public self || ReviewRequest_is_mutable_by self user)
    && match RR.repository self with
       | Some repo => Repository_is_accessible_by repo user
       | None => true
       end
    && match local_site with
       | Some site => LocalSite_is_accessible_by site user
       | None => true
       end
    && ((is_authenticated user
         && (0 <? count_pk (target_people (relations_of st self)) (user_pk user)))
        || bool_decide (target_group_rows st self = [])
        || existsb (λ group, Group_is_accessible_by group user)
             (target_group_rows st self)
        || existsb (λ group, Group_is_accessible_by group user)
             (group_rows st (Group_objects_accessible st (RR.submitter self)))
        || user_eqb (RR.submitter self) user).
Proof.
  unfold ReviewRequest_is_accessible_by, target_group_rows.
  destruct (RR.public self), (ReviewRequest_is_mutable_by self user); simpl;
    try reflexivity.
  all: destruct (RR.repository self) as [repo|];
    [destruct (Repository_is_accessible_by repo user); simpl; try reflexivity|].
  all: destruct local_site as [site|];
    [destruct (LocalSite_is_accessible_by site user); simpl; try reflexivity|].
  all: destruct (is_authenticated user && _); simpl; try reflexivity.
  all: destruct (group_rows st (elements _)) as [|g rows]; try reflexivity.
  all: rewrite bool_decide_eq_false_2 by discriminate.
  all: destruct (existsb _ (g :: rows)); simpl; try reflexivity.
  all: destruct (existsb _ _); simpl; try reflexivity.
  all: by destruct (user_eqb _ _).
Qed.

Lemma passes_checks_formula (self : RR.t) (user : User)
    (local_site : option nat) :
  (RR.public self || ReviewRequest_is_mutable_by self user)
  && match RR.repository self with
     | Some repo => Repository_is_accessible_by repo user
     | None => true
     end
  && match local_site with
     | Some site => LocalSite_is_accessible_by site user
     | None => true
     end = true
  ↔ passes_checks self user local_site.
Proof.
  unfold passes_checks.
  rewrite !andb_true_iff, orb_true_iff.
  split.
  - intros ((Hpub & Hrepo) & Hsite). split; [done|]. split.
    + intros repo Heq. by rewrite Heq in Hrepo.
    + intros site ->. done.
  - intros (Hpub & Hrepo & Hsite). split; [split; [done|]|].
    + destruct (RR.repository self) as [repo|]; auto.
    + destruct local_site as [site|]; auto.
Qed.

(** C2, as the code has it: a request is visible exactly when it passes
    the checks (public or editable, repository readable, site
    accessible) and either has no target group, whether or not it has
    target people, or the user is a target person, can access a target
    group, can access a group the submitter can access, or is the
    submitter. *)
Theorem is_accessible_by_iff (st : Store) (self : RR.t) (user : User)
    (local_site : option nat) :
  ReviewRequest_is_accessible_by st self user local_site = true
  ↔ passes_checks self user local_site
    ∧ (target_group_rows st self = [] ∨ is_reviewer_or_owner st self user).
Proof.
  rewrite is_accessible_by_formula, andb_true_iff, passes_checks_formula.
  apply and_iff_compat_l.
  unfold is_reviewer_or_owner, is_target_person.
  rewrite !orb_true_iff, andb_true_iff, count_pk_pos, !existsb_accessible,
    bool_decide_eq_true.
  tauto.
Qed.

End Visibility.

(** In a store without group rows a query for groups finds no row,
    whatever keys the manager answers. *)
Lemma group_rows_without_groups (st : Store) (pks : list nat) :
  groups st = ∅ → group_rows st pks = [].
Proof.
  intros Hnone. unfold group_rows. rewrite Hnone.
  induction pks as [|pk pks IH]; [done|].
  simpl. by rewrite lookup_empty.
Qed.

(** The public request with a target person, no target group and no
    group in the store: the code shows it to bob, who is not the target
    person and not the submitter, and the rule as specified does not,
    whatever [Group.objects.accessible] answers. *)
Lemma target_person_request_is_open (M : Managers) :
  ReviewRequest_is_accessible_by
    (H := Reference.restrictive) (H0 := M)
    Reference.store_with_target_person Reference.public_request
    Reference.bob None = true
  ∧ ¬ visible_as_specified
        (H := Reference.restrictive) (H0 := M)
        Reference.store_with_target_person Reference.public_request
        Reference.bob None.
Proof.
  split; [reflexivity|].
  intros [_ [[_ Hnobody]|Hreviewer]].
  - assert (Hin : 3%nat ∈ (∅ : gset nat)) by (rewrite <- Hnobody; set_solver).
    set_solver.
  - destruct Hreviewer as [(_ & pk & [= <-] & Hin)|[(g & Hg & _)|[(g & Hg & _)|Heq]]].
    + change (2%nat ∈ ({[ 3%nat ]} : gset nat)) in Hin. set_solver.
    + by apply elem_of_nil in Hg.
    + rewrite group_rows_without_groups in Hg by reflexivity.
      by apply elem_of_nil in Hg.
    + discriminate Heq.
Qed.

(** C2, as stated, fails: a public request with a target person and no
    target group is visible to a user who is neither that person nor
    the submitter; the store holds no group, so the user can access no
    target group and no group of the submitter. *)
Lemma visible_without_being_reviewer :
  ¬ (ReviewRequest_is_accessible_by
       (H := Reference.restrictive) (H0 := Reference.no_rules)
       Reference.store_with_target_person Reference.public_request
       Reference.bob None = true
     ↔ visible_as_specified
         (H := Reference.restrictive) (H0 := Reference.no_rules)
         Reference.store_with_target_person Reference.public_request
         Reference.bob None).
Proof.
  intros [Hvisible _].
  destruct (target_person_request_is_open Reference.no_rules) as [Hopen Hnot].
  exact (Hnot (Hvisible Hopen)).
Qed.

(** ** Closing a review request *)

Lemma latest_elem_of (l : list ChangeDescription) (cd : ChangeDescription) :
  latest l = Some cd → cd ∈ l.
Proof.
  unfold latest.
  assert (Hgen : ∀ best,
            foldl (λ best cd,
                     match best with
                     | Some b =>
                         if cd_timestamp cd <? cd_timestamp b then Some b else Some cd
                     | None => Some cd
                     end) best l = Some cd →
            best = Some cd ∨ cd ∈ l).
  { induction l as [|x l IH]; intros best Hfold; simpl in Hfold; [by left|].
    apply IH in Hfold as [Hbest|Hin]; [|right; by right].
    destruct best as [b|]; [destruct (_ <? _)|]; simplify_eq.
    - by left.
    - right; left.
    - right; left. }
  intros Hl. by destruct (Hgen None Hl).
Qed.

Lemma changedescs_of_keyed (st : Store) (self : RR.t) (cd : ChangeDescription) :
  well_keyed st →
  cd ∈ changedescs_of st self →
  ∃ k, cd_id cd = Some k ∧ changedescs st !! k = Some cd.
Proof.
  intros (_ & Hcds & _) Hin. unfold changedescs_of in Hin.
  destruct (RR.id self); [|by apply elem_of_nil in Hin].
  apply list_elem_of_omap in Hin as (k & _ & Hk).
  exists k. split; [|done]. by destruct (Hcds k cd Hk).
Qed.

Section Close.
Context `{Auth}.

(** C4: closing to a status other than the current one creates exactly
    one change description, public, with the given text and the single
    entry status: old, new, adds it to the history of the request,
    stores the new status and sends the closed signal; closing again to
    the same status rewrites the text and the timestamp of the latest
    public change description and creates nothing and sends nothing;
    both paths leave the request without a draft. *)
Theorem close_records_or_refreshes (self : RR.t) (type : string)
    (user : option User) (description : option string) (st : Store)
    (pk : nat) :
  RR.id self = Some pk →
  is_Some (review_requests st !! pk) →
  well_keyed st →
  status_change_denied self user = false →
  type = SUBMITTED ∨ type = DISCARDED →
  (RR.status self ≠ type →
   ∃ self' st',
     ReviewRequest_close self type user description st = (inr self', st')
     ∧ changedescs st'
       = <[next_pk st :=
             status_change true (Py.or_empty description) (RR.status self) type
               (clock st) (next_pk st)]> (changedescs st)
     ∧ size (changedescs st') = S (size (changedescs st))
     ∧ rr_changedescs st' !! pk
       = Some (default ∅ (rr_changedescs st !! pk) ∪ {[ next_pk st ]})
     ∧ RR.status self' = type
     ∧ review_requests st' !! pk = Some self'
     ∧ signals st' = (signals st ++ [review_request_closed self' user type])%list
     ∧ drafts st' !! pk = None)
  ∧ (RR.status self = type →
     ∀ cd, latest (filter (λ cd, cd_public cd = true) (changedescs_of st self))
           = Some cd →
     ∃ self' st' k,
       ReviewRequest_close self type user description st = (inr self', st')
       ∧ cd_id cd = Some k
       ∧ changedescs st'
         = <[k := cd_with_text (Py.or_empty description)
                    (cd_with_timestamp (clock st) cd)]> (changedescs st)
       ∧ size (changedescs st') = size (changedescs st)
       ∧ rr_changedescs st' = rr_changedescs st
       ∧ RR.status self' = type
       ∧ signals st' = signals st
       ∧ drafts st' !! pk = None).
Proof.
  intros Hid [row Hrow] Hwk Hperm Htype.
  assert (Hvalid : negb (String.eqb type SUBMITTED || String.eqb type DISCARDED)
                   = false)
    by (destruct Htype as [-> | ->]; reflexivity).
  assert (Hdraft : ∀ d, drafts st !! pk = Some d → Draft.review_request d = pk)
    by (intros d Hd; by apply (proj1 Hwk)).
  assert (Hfresh : changedescs st !! next_pk st = None).
  { destruct (changedescs st !! next_pk st) as [cd|] eqn:Hcd; [|done].
    destruct (proj1 (proj2 Hwk) _ _ Hcd). lia. }
  split.
  - intros Hne. unfold ReviewRequest_close. rewrite Hperm, Hvalid.
    apply String.eqb_neq in Hne. rewrite Hne. simpl negb. cbv iota.
    unfold ChangeDescription_new, ChangeDescription_save, changedescs_add,
      ReviewRequest_save, ReviewRequest_update_counts,
      ReviewRequest_objects_get, Model_save, delete_draft_if_any, draft_of,
      ReviewRequestDraft_delete, counter_add.
    run_monad. rewrite Hid. simpl. rewrite Hrow. simpl.
    assert (Hnotpending : String.eqb type PENDING_REVIEW = false)
      by (destruct Htype as [-> | ->]; reflexivity).
    rewrite Hnotpending. simpl. rewrite ?Hid. simpl.
    destruct (RR.public row); simpl; rewrite ?Hid; simpl;
      destruct (drafts st !! pk) as [d|] eqn:Hd; simpl;
      try rewrite (Hdraft d eq_refl);
      (eexists; eexists; split; [reflexivity|]); simpl;
      rewrite ?lookup_insert_eq, ?lookup_delete_eq;
      (split; [reflexivity|]);
      (split; [by apply map_size_insert_None|]);
      repeat (split; [reflexivity|]); done.
  - intros Heq cd Hlatest.
    assert (Hin : cd ∈ changedescs_of st self).
    { apply latest_elem_of in Hlatest.
      by apply list_elem_of_filter in Hlatest as [_ ?]. }
    destruct (changedescs_of_keyed st self cd Hwk Hin) as (k & Hk & Hcd).
    unfold ReviewRequest_close. rewrite Hperm, Hvalid.
    apply String.eqb_eq in Heq as Heqb. rewrite Heqb. simpl negb. cbv iota.
    unfold latest_public_changedesc, ChangeDescription_save,
      ReviewRequest_save, Model_save, delete_draft_if_any, draft_of,
      ReviewRequestDraft_delete.
    run_monad. rewrite Hlatest. simpl. rewrite Hk, Hid. simpl.
    assert (Hnotpending : String.eqb (RR.status self) PENDING_REVIEW = false)
      by (rewrite Heq; destruct Htype as [-> | ->]; reflexivity).
    rewrite Hnotpending. simpl. rewrite ?Hid. simpl.
    destruct (drafts st !! pk) as [d|] eqn:Hd; simpl;
      try rewrite (Hdraft d eq_refl);
      (eexists; eexists; exists k; split; [reflexivity|]); simpl;
      rewrite ?lookup_delete_eq;
      (split; [reflexivity|]); (split; [reflexivity|]);
      (split; [by apply map_size_insert_Some|]);
      repeat (split; [reflexivity|]); done.
Qed.

End Close.

(** The scenario of the specification: a pending request closed as
    submitted with "done", then closed as submitted again with
    "done v2". *)
Lemma close_records_or_refreshes_witness :
  (∃ self' st',
     ReviewRequest_close (H := Reference.permissive) (Reference.request "")
       SUBMITTED None (Some "done") (Reference.store_with (Reference.request ""))
     = (inr self', st')
     ∧ changedescs st'
       = {[ 3%nat := status_change true "done" "P" "S" 0 3 ]}
     ∧ drafts st' !! 2%nat = None)
  ∧ (∃ self' st',
       ReviewRequest_close (H := Reference.permissive)
         Reference.submitted_request SUBMITTED None (Some "done v2")
         Reference.closed_once.2
       = (inr self', st')
       ∧ changedescs st'
         = {[ 3%nat := status_change true "done v2" "P" "S" 1 3 ]}
       ∧ signals st' = signals Reference.closed_once.2).
Proof.
  split.
  - destruct (close_records_or_refreshes (H := Reference.permissive)
                (Reference.request "") SUBMITTED None (Some "done")
                (Reference.store_with (Reference.request "")) 2%nat)
      as [Hfirst _].
    + reflexivity.
    + by eexists.
    + apply (bool_decide_unpack _). vm_compute. exact I.
    + reflexivity.
    + by left.
    + destruct Hfirst as (self' & st' & Hrun & Hcd & _ & _ & _ & _ & _ & Hd).
      { discriminate. }
      exists self', st'. split; [exact Hrun|]. split; [exact Hcd|exact Hd].
  - destruct (close_records_or_refreshes (H := Reference.permissive)
                Reference.submitted_request SUBMITTED None (Some "done v2")
                Reference.closed_once.2 2%nat)
      as [_ Hagain].
    + reflexivity.
    + by eexists.
    + apply (bool_decide_unpack _). vm_compute. exact I.
    + reflexivity.
    + by left.
    + destruct (Hagain eq_refl (status_change true "done" "P" "S" 0 3))
        as (self' & st' & k & Hrun & Hk & Hcd & _ & _ & _ & Hsig & _).
      { reflexivity. }
      injection Hk as <-.
      exists self', st'. split; [exact Hrun|]. split; [|exact Hsig].
      rewrite Hcd. apply insert_insert_eq.
Defined.

(** ** Reopening a review request *)

Section Reopen.
Context `{Auth}.


End Reopen.



(** ** Publishing a draft *)

Lemma same_ledger_refl (st : Store) : same_ledger st st.
Proof. by repeat split. Qed.

Lemma same_ledger_trans (st1 st2 st3 : Store) :
  same_ledger st1 st2 → same_ledger st2 st3 → same_ledger st1 st3.
Proof.
  intros (?&?&?&?&?&?) (?&?&?&?&?&?). repeat split; congruence.
Qed.

Lemma is_shaped_refl (cd0 : option ChangeDescription) : is_shaped cd0 cd0.
Proof. exists (λ c, c). split; [done|]. by rewrite option_fmap_id. Qed.

Lemma is_shaped_record (cd0 x : option ChangeDescription) (name : string)
    (c : FieldChange) :
  is_shaped cd0 x → is_shaped cd0 (record_field_change name c <$> x).
Proof.
  intros (g & Hg & ->). exists (record_field_change name c ∘ g).
  split; [intros cd; simpl; apply Hg|]. by rewrite option_fmap_compose.
Qed.

Lemma is_shaped_update_field (cd0 : option ChangeDescription)
    (get_a : RR.t → string) (set_a : string → RR.t → RR.t)
    (value name : string) (record_changes : bool)
    (s : RR.t * option ChangeDescription) :
  is_shaped cd0 s.2 →
  is_shaped cd0 (update_field get_a set_a value name record_changes s).2.
Proof.
  intros Hs. unfold update_field.
  destruct (negb _); [destruct record_changes|]; simpl; try done.
  by apply is_shaped_record.
Qed.

Lemma id_update_field (get_a : RR.t → string) (set_a : string → RR.t → RR.t)
    (value name : string) (record_changes : bool)
    (s : RR.t * option ChangeDescription) :
  (∀ v r, RR.id (set_a v r) = RR.id r) →
  RR.id (update_field get_a set_a value name record_changes s).1 = RR.id s.1.
Proof.
  intros Hset. unfold update_field. destruct (negb _); simpl; [apply Hset|done].
Qed.

Lemma is_shaped_record_captions (cd0 x : option ChangeDescription)
    (key : string) (changes : gmap nat (string * string)) :
  is_shaped cd0 x → is_shaped cd0 (record_captions key changes x).
Proof.
  intros Hx. unfold record_captions.
  destruct (bool_decide _); [by apply is_shaped_record|done].
Qed.

Lemma shaped_cd_update_list (cd0 x : option ChangeDescription)
    (get_rel : Relations → gset nat)
    (set_rel : gset nat → Relations → Relations)
    (name : string) (record_changes : bool) (name_field : string)
    (pk draft_pk : nat) :
  is_shaped cd0 x →
  shaped_cd cd0 (update_list get_rel set_rel name record_changes name_field
                   pk draft_pk x).
Proof.
  intros Hx st. unfold update_list. run_monad.
  destruct (bool_decide _); [destruct record_changes|]; simpl;
    eexists _, _; (split; [reflexivity|]);
    (split; [try done; by apply is_shaped_record|by repeat split]).
Qed.

Section Shaped.
Context (cd0 : option ChangeDescription) (rr0 : RR.t).

Lemma shaped_bind_cd (m : M (option ChangeDescription))
    (k : option ChangeDescription → M (RR.t * option ChangeDescription)) :
  shaped_cd cd0 m →
  (∀ x, is_shaped cd0 x → shaped cd0 rr0 (k x)) →
  shaped cd0 rr0 (bind m k).
Proof.
  intros Hm Hk st. destruct (Hm st) as (x & st1 & Em & Hx & L1).
  destruct (Hk x Hx st1) as (rr' & y & st2 & Ek & Hy & L2 & Hid).
  exists rr', y, st2. unfold bind. rewrite Em.
  split; [exact Ek|]. split; [exact Hy|].
  split; [by eapply same_ledger_trans|exact Hid].
Qed.

Lemma shaped_get_store (k : Store → M (RR.t * option ChangeDescription)) :
  (∀ st, shaped cd0 rr0 (k st)) → shaped cd0 rr0 (bind get_store k).
Proof. intros Hk st. apply (Hk st st). Qed.

Lemma shaped_modify (f : Store → Store)
    (k : M (RR.t * option ChangeDescription)) :
  (∀ st, same_ledger st (f st)) →
  shaped cd0 rr0 k →
  shaped cd0 rr0 (bind (modify f) (λ _, k)).
Proof.
  intros Hf Hk st. destruct (Hk (f st)) as (rr' & y & st2 & Ek & Hy & L2 & Hid).
  exists rr', y, st2. split; [exact Ek|]. split; [exact Hy|].
  split; [by eapply same_ledger_trans|exact Hid].
Qed.

Lemma shaped_ret (rr' : RR.t) (x : option ChangeDescription) :
  is_shaped cd0 x → RR.id rr' = RR.id rr0 → shaped cd0 rr0 (ret (rr', x)).
Proof.
  intros Hx Hid st. exists rr', x, st.
  split; [reflexivity|]. split; [exact Hx|]. split; [apply same_ledger_refl|exact Hid].
Qed.

End Shaped.

Section DraftPublish.
Context `{Builtins}.

Lemma publish_fields_shaped (self : Draft.t) (pk : nat) (rr : RR.t)
    (cd : option ChangeDescription) :
  shaped cd rr (publish_fields self pk (rr, cd)).
Proof.
  unfold publish_fields. cbv zeta.
  apply shaped_bind_cd.
  { apply shaped_cd_update_list.
    repeat apply is_shaped_update_field. apply is_shaped_refl. }
  intros x1 Hx1.
  apply shaped_bind_cd; [by apply shaped_cd_update_list|].
  intros x2 Hx2.
  apply shaped_get_store. intros st1.
  apply shaped_modify; [intros st; by repeat split|].
  apply shaped_bind_cd.
  { apply shaped_cd_update_list, is_shaped_record_captions.
    destruct (bool_decide _); simpl; [|done].
    by apply is_shaped_record, is_shaped_update_field. }
  intros x3 Hx3.
  apply shaped_modify; [intros st; by repeat split|].
  apply shaped_get_store. intros st2.
  apply shaped_modify; [intros st; by repeat split|].
  apply shaped_bind_cd.
  { by apply shaped_cd_update_list, is_shaped_record_captions. }
  intros x4 Hx4.
  apply shaped_modify; [intros st; by repeat split|].
  apply shaped_ret; [done|].
  destruct (bool_decide _);
    repeat (cbn [fst snd]; rewrite id_update_field by done); done.
Qed.

End DraftPublish.

Lemma bind_returns {A B} (m : M A) (k : A → M B) (st st1 : Store) (a : A)
    (P : (exn + B) * Store → Prop) :
  m st = (inr a, st1) → P (k a st1) → P (bind m k st).
Proof. intros Hm Hk. unfold bind. by rewrite Hm. Qed.

Lemma update_field_same (get_a : RR.t → string) (set_a : string → RR.t → RR.t)
    (value name : string) (record_changes : bool)
    (s : RR.t * option ChangeDescription) :
  String.eqb (get_a s.1) value = true →
  update_field get_a set_a value name record_changes s = s.
Proof. intros Heq. unfold update_field. by rewrite Heq. Qed.

Lemma symmetric_difference_diag (a : gset nat) :
  symmetric_difference a a = ∅.
Proof.
  unfold symmetric_difference. apply set_eq. intros x.
  rewrite elem_of_union, elem_of_difference, elem_of_empty. tauto.
Qed.

Lemma update_list_same (get_rel : Relations → gset nat)
    (set_rel : gset nat → Relations → Relations)
    (name : string) (record_changes : bool) (name_field : string)
    (pk draft_pk : nat) (cd : option ChangeDescription) (st : Store) :
  get_rel (default no_relations (rr_relations st !! pk))
  = get_rel (default no_relations (draft_relations st !! draft_pk)) →
  update_list get_rel set_rel name record_changes name_field pk draft_pk cd st
  = (inr cd, st).
Proof.
  intros Heq. unfold update_list. run_monad. rewrite Heq.
  rewrite bool_decide_eq_false_2; [done|].
  intros Hne. apply Hne, symmetric_difference_diag.
Qed.

Lemma publish_captions_settled (live draft : gset nat) (rows : gmap nat Captioned) :
  captions_settled live rows = true →
  publish_captions live draft rows = (rows, ∅).
Proof.
  unfold captions_settled, publish_captions.
  generalize (elements live). intros l.
  induction l as [|k l IH]; intros Hall; [done|].
  simpl in *. apply andb_prop in Hall as [Hk Hl].
  destruct (rows !! k) as [s|]; [|by apply IH].
  rewrite Hk. rewrite andb_false_r. by apply IH.
Qed.

Section NoDifferences.
Context `{Builtins}.

Lemma publish_fields_no_differences (self : Draft.t) (pk : nat) (rr : RR.t)
    (cd : option ChangeDescription) (st : Store) :
  RR.id rr = Some pk →
  no_differences st self rr = true →
  ∃ st', publish_fields self pk (rr, cd) st = (inr (rr, cd), st').
Proof.
  intros Hid Hnd. unfold no_differences, relations_of in Hnd. rewrite Hid in Hnd.
  cbv zeta in Hnd.
  repeat (apply andb_prop in Hnd as [Hnd ?]).
  repeat match goal with
         | Hb : bool_decide _ = true |- _ => apply bool_decide_eq_true in Hb
         end.
  unfold publish_fields. cbv zeta.
  rewrite (update_field_same RR.summary _ _ _ _ (rr, cd)) by assumption.
  rewrite (update_field_same RR.description _ _ _ _ (rr, cd)) by assumption.
  rewrite (update_field_same RR.testing_done _ _ _ _ (rr, cd)) by assumption.
  rewrite (update_field_same RR.branch _ _ _ _ (rr, cd)) by assumption.
  cbn [fst snd].
  eapply bind_returns; [by apply update_list_same|].
  eapply bind_returns; [by apply update_list_same|].
  rewrite bool_decide_eq_false_2 by (intros Hne; by apply Hne).
  cbn [fst snd].
  eapply bind_returns; [reflexivity|].
  rewrite publish_captions_settled by done. cbn [fst snd].
  eapply bind_returns; [reflexivity|].
  unfold record_captions at 1. rewrite bool_decide_eq_false_2 by (intros Hne; by apply Hne).
  eapply bind_returns; [by apply update_list_same|].
  eapply bind_returns; [reflexivity|].
  eapply bind_returns; [reflexivity|].
  cbn [file_attachment_rows upd_rr_relations upd_screenshot_rows].
  rewrite publish_captions_settled by done. cbn [fst snd].
  eapply bind_returns; [reflexivity|].
  unfold record_captions at 1. rewrite bool_decide_eq_false_2 by (intros Hne; by apply Hne).
  eapply bind_returns.
  { apply update_list_same. simpl. rewrite lookup_insert_eq. simpl. done. }
  eapply bind_returns; [reflexivity|].
  by eexists.
Qed.

End NoDifferences.

Lemma publish_diff_shaped (self : Draft.t) (rr : RR.t)
    (cd : option ChangeDescription) (st : Store) :
  (∀ k, Draft.diffset self = Some k → is_Some (diffsets st !! k)) →
  ∃ x st',
    publish_diff self rr cd st = (inr x, st')
    ∧ is_shaped cd x
    ∧ (Draft.diffset self = None → x = cd)
    ∧ changedescs st' = changedescs st
    ∧ rr_changedescs st' = rr_changedescs st
    ∧ next_pk st' = next_pk st
    ∧ clock st' = clock st.
Proof.
  intros Hds. unfold publish_diff. run_monad.
  destruct (Draft.diffset self) as [k|].
  - destruct (Hds k eq_refl) as [ds Hk]. rewrite Hk. simpl.
    eexists _, _. split; [reflexivity|].
    split; [apply is_shaped_record, is_shaped_refl|]. by repeat split.
  - exists cd, st. split; [reflexivity|]. split; [apply is_shaped_refl|].
    by repeat split.
Qed.

Lemma publish_changedesc_spec (rr : RR.t) (pk : nat)
    (cd : option ChangeDescription) (st : Store) :
  RR.id rr = Some pk →
  ∃ st',
    publish_changedesc rr cd st
    = (inr ((λ c, cd_with_id (Some (key_of st c))
                    (cd_with_public true (cd_with_timestamp (clock st) c)))
            <$> cd), st')
    ∧ changedescs st'
      = match cd with
        | Some c =>
            <[key_of st c :=
                cd_with_id (Some (key_of st c))
                  (cd_with_public true (cd_with_timestamp (clock st) c))]>
              (changedescs st)
        | None => changedescs st
        end.
Proof.
  intros Hid. unfold publish_changedesc, ChangeDescription_save, changedescs_add.
  destruct cd as [c|]; [|by exists st].
  run_monad. unfold key_of. destruct (cd_id c) as [k|] eqn:Hk; simpl;
    rewrite Hid; simpl; eexists; split; try reflexivity.
  all: destruct c; simpl in *; subst; reflexivity.
Qed.

Lemma save_keeps_changedescs (rr : RR.t) (pk : nat) (st : Store) :
  RR.id rr = Some pk →
  ∃ rr' st',
    ReviewRequest_save rr false st = (inr rr', st')
    ∧ changedescs st' = changedescs st.
Proof.
  intros Hid. unfold ReviewRequest_save, Model_save. run_monad. rewrite Hid.
  simpl. destruct (negb _); simpl; by eexists _, _.
Qed.

Section DraftPublishTheorem.
Context `{Builtins}.

(** C3, as the code has it: publishing a draft creates a change
    description (one more row, under a fresh key) exactly when the
    review request is public and the draft has none attached; it returns
    none exactly when the request is not public and the draft has none
    attached; and for a draft without differences the change
    description it returns has the entries of the one that was attached
    to the draft, or none when it is new: no entry is added. *)
Theorem draft_publish_changedesc (self : Draft.t) (review_request : RR.t)
    (user : option User) (send_notification : bool) (st : Store) (pk : nat) :
  RR.id review_request = Some pk →
  well_keyed st →
  (∀ k, Draft.changedesc self = Some k → is_Some (changedescs st !! k)) →
  (∀ k, Draft.diffset self = Some k → is_Some (diffsets st !! k)) →
  ∃ rr' result st',
    ReviewRequestDraft_publish self (Some review_request) user
      send_notification st = (inr (rr', result), st')
    ∧ size (changedescs st')
      = (if RR.public review_request
            && bool_decide (Draft.changedesc self = None)
         then S (size (changedescs st))
         else size (changedescs st))
    ∧ (result = None
       ↔ RR.public review_request = false ∧ Draft.changedesc self = None)
    ∧ (no_differences st self review_request = true →
       fields_changed <$> result
       = match Draft.changedesc self ≫= (λ k, changedescs st !! k) with
         | Some attached => Some (fields_changed attached)
         | None => if RR.public review_request then Some ∅ else None
         end).
Proof.
  intros Hid Hwk Hfk Hds.
  (* the start *)
  assert (Hinit : ∃ st1,
    (match Draft.changedesc self ≫= (λ k, changedescs st !! k) with
     | Some cd => ret (Some cd)
     | None =>
         if RR.public review_request
         then cd <- ChangeDescription_new false "" ;; ret (Some cd)
         else ret None
     end) st = (inr (initial_changedesc st self review_request), st1)
    ∧ changedescs st1 = changedescs st ∧ next_pk st1 = next_pk st
    ∧ diffsets st1 = diffsets st
    ∧ no_differences st1 self review_request
      = no_differences st self review_request).
  { unfold initial_changedesc, ChangeDescription_new.
    destruct (Draft.changedesc self ≫= _); [by exists st|].
    destruct (RR.public review_request); [|by exists st].
    run_monad. by eexists. }
  destruct Hinit as (st1 & Einit & C1 & N1 & D1 & ND1).
  set (cd0 := initial_changedesc st self review_request) in *.
  destruct (publish_fields_shaped self pk review_request cd0 st1)
    as (rr1 & x1 & st2 & Efields & (g1 & Hg1 & ->) & L2 & Hid1).
  destruct L2 as (C2 & RC2 & N2 & T2 & D2 & S2).
  destruct (publish_diff_shaped self rr1 (g1 <$> cd0) st2)
    as (x2 & st3 & Ediff & (g2 & Hg2 & ->) & Hnodiff & C3 & RC3 & N3 & T3).
  { intros k Hk. rewrite D2, D1. by apply Hds. }
  destruct (publish_changedesc_spec rr1 pk (g2 <$> (g1 <$> cd0)) st3)
    as (st4 & Ecd & C4); [congruence|].
  destruct (save_keeps_changedescs rr1 pk st4) as (rr5 & st5 & Esave & C5);
    [congruence|].
  set (result := (λ c, cd_with_id (Some (key_of st3 c))
                         (cd_with_public true (cd_with_timestamp (clock st3) c)))
                 <$> (g2 <$> (g1 <$> cd0))) in *.
  exists rr5, result.
  exists (if send_notification
          then upd_signals
                 (λ l, (l ++ [review_request_published rr5
                                (default (RR.submitter review_request) user)
                                result])%list) st5
          else st5).
  split.
  { unfold ReviewRequestDraft_publish. unfold bind at 1. unfold ret at 1.
    cbv beta iota zeta. rewrite Hid.
    unfold bind at 1. unfold ret at 1. cbv beta iota.
    unfold bind at 1. unfold get_store at 1. cbv beta iota.
    eapply bind_returns; [exact Einit|].
    eapply bind_returns; [exact Efields|]. cbn [fst snd].
    eapply bind_returns; [exact Ediff|].
    eapply bind_returns; [exact Ecd|].
    eapply bind_returns; [exact Esave|].
    by destruct send_notification. }
  assert (Hsize_same : changedescs
            (if send_notification
             then upd_signals
                    (λ l, (l ++ [review_request_published rr5
                                   (default (RR.submitter review_request) user)
                                   result])%list) st5
             else st5) = changedescs st4).
  { destruct send_notification; simpl; exact C5. }
  rewrite Hsize_same, C4. clear Hsize_same.
  (* what a draft without differences leaves of the start *)
  assert (Hsame : no_differences st self review_request = true →
                  g2 <$> (g1 <$> cd0) = cd0).
  { intros Hnd. rewrite <- ND1 in Hnd.
    destruct (publish_fields_no_differences self pk review_request cd0 st1
                Hid Hnd) as (st2' & Efields').
    rewrite Efields' in Efields. injection Efields as _ Hx _.
    rewrite ND1 in Hnd. unfold no_differences in Hnd.
    apply andb_prop in Hnd as [_ Hd]. apply bool_decide_eq_true in Hd.
    rewrite (Hnodiff Hd). congruence. }
  assert (Hfields : fields_changed <$> cd0
                    = match Draft.changedesc self ≫= (λ k, changedescs st !! k) with
                      | Some attached => Some (fields_changed attached)
                      | None => if RR.public review_request then Some ∅ else None
                      end).
  { unfold cd0, initial_changedesc.
    destruct (Draft.changedesc self ≫= _); [done|].
    by destruct (RR.public review_request). }
  assert (Hcases :
    (∃ k0 attached, Draft.changedesc self = Some k0
                    ∧ changedescs st !! k0 = Some attached
                    ∧ cd_id attached = Some k0
                    ∧ cd0 = Some attached)
    ∨ (Draft.changedesc self = None ∧ RR.public review_request = true
       ∧ ∃ c, cd0 = Some c ∧ cd_id c = None)
    ∨ (Draft.changedesc self = None ∧ RR.public review_request = false
       ∧ cd0 = None)).
  { unfold cd0, initial_changedesc.
    destruct (Draft.changedesc self) as [k0|] eqn:Hk0; simpl.
    - left. destruct (Hfk k0 eq_refl) as [attached Hattached].
      exists k0, attached. rewrite Hattached.
      repeat split; try done. by destruct (proj1 (proj2 Hwk) _ _ Hattached).
    - right. destruct (RR.public review_request); [left|right]; eauto 10. }
  unfold result. rewrite <- Hfields. clear Hfields.
  clearbody cd0. clear Einit Efields Ediff Ecd Esave.
  destruct Hcases as [(k0 & attached & Hk0 & Hattached & Hkey & ->)
                     |[(Hk0 & Hpub & c & -> & Hc)|(Hk0 & Hpub & ->)]];
    rewrite Hk0, ?Hpub; simpl.
  - rewrite andb_false_r.
    assert (Hkey2 : key_of st3 (g2 (g1 attached)) = k0)
      by (unfold key_of; by rewrite Hg2, Hg1, Hkey).
    rewrite Hkey2. split; [|split].
    + rewrite C3, C2, C1. apply map_size_insert_Some. by eexists.
    + split; [discriminate|intros [_ [=]]].
    + intros Hnd. specialize (Hsame Hnd). simpl in Hsame.
      injection Hsame as ->. done.
  - assert (Hkey2 : key_of st3 (g2 (g1 c)) = next_pk st)
      by (unfold key_of; rewrite Hg2, Hg1, Hc; simpl; congruence).
    rewrite Hkey2. split; [|split].
    + rewrite C3, C2, C1. apply map_size_insert_None.
      destruct (changedescs st !! next_pk st) as [c'|] eqn:Hc'; [|done].
      destruct (proj1 (proj2 Hwk) _ _ Hc'). lia.
    + split; [discriminate|intros [[=] _]].
    + intros Hnd. specialize (Hsame Hnd). simpl in Hsame.
      injection Hsame as ->. done.
  - split; [|split]; try done. by rewrite C3, C2, C1.
Qed.

End DraftPublishTheorem.

(** The reference draft and request are the rows that [reopen] left in
    the reference store. *)
Example reopened_rows :
  drafts Reference.reopened_store !! 2%nat = Some Reference.reopened_draft
  ∧ review_requests Reference.reopened_store !! 2%nat
    = Some Reference.reopened_request.
Proof. split; vm_compute; reflexivity. Qed.

(** The draft of a reopened request published: a change description is
    returned, since one is attached. *)
Lemma draft_publish_changedesc_witness :
  ∃ rr' result st',
    ReviewRequestDraft_publish (H := Reference.builtins)
      Reference.reopened_draft (Some Reference.reopened_request) None false
      Reference.reopened_store = (inr (rr', result), st')
    ∧ (result = None
       ↔ RR.public Reference.reopened_request = false
         ∧ Draft.changedesc Reference.reopened_draft = None).
Proof.
  destruct (draft_publish_changedesc (H := Reference.builtins)
              Reference.reopened_draft Reference.reopened_request None false
              Reference.reopened_store 2%nat)
    as (rr' & result & st' & Hrun & _ & Hnone & _).
  - reflexivity.
  - apply (bool_decide_unpack _). vm_compute. exact I.
  - intros k Hk. injection Hk as <-. vm_compute. eexists. reflexivity.
  - intros k Hk. discriminate Hk.
  - exists rr', result, st'. split; [exact Hrun|exact Hnone].
Defined.

(** C3, as stated, fails on its second part: the draft that [reopen]
    makes for a discarded request does not differ from the request, and
    publishing it returns a change description with one entry, the
    status change that [reopen] recorded. *)
Lemma reopened_draft_publishes_its_status_entry :
  ¬ (no_differences (H := Reference.builtins) Reference.reopened_store
       Reference.reopened_draft Reference.reopened_request = true →
     none_or_empty
       (returned_changedesc
          (ReviewRequestDraft_publish (H := Reference.builtins)
             Reference.reopened_draft (Some Reference.reopened_request)
             None false Reference.reopened_store))).
Proof.
  set (r := ReviewRequestDraft_publish _ _ _ _ _).
  assert (Hnd : no_differences (H := Reference.builtins)
                  Reference.reopened_store Reference.reopened_draft
                  Reference.reopened_request = true)
    by (vm_compute; reflexivity).
  assert (Hentry : returned_changedesc r ≫= (λ cd, fields_changed cd !! "status")
                   = Some (ScalarChange "D" "P"))
    by (vm_compute; reflexivity).
  clearbody r. intros Hclaim.
  destruct (Hclaim Hnd) as [Hnone|(cd & Hcd & Hempty)].
  - rewrite Hnone in Hentry. discriminate Hentry.
  - rewrite Hcd in Hentry. simpl in Hentry. rewrite Hempty in Hentry.
    rewrite lookup_empty in Hentry. discriminate Hentry.
Qed.

(** ** The incoming-request counter of a group *)

Lemma recompute_nonneg (visible : RR.t → bool) (st : Store) (group : nat) :
  0 ≤ recompute visible st group.
Proof. unfold recompute. lia. Qed.

(** C1, on the code: after create, publish to group 7, close as
    submitted, the counter of the group and the recomputed count agree
    (both 0); a further close as discarded runs without an exception
    and decrements the counter a second time, to -1, which no count of
    review requests equals, whatever filter the recomputation uses. *)
Theorem counter_drifts_after_second_close :
  let before :=
    run_ops (H := Reference.permissive) (H0 := Reference.builtins)
      [Create Reference.alice; SetTargetGroups 2 {[ 7%nat ]};
       Publish 2 Reference.alice; Close 2 SUBMITTED] Reference.group_store in
  let after :=
    run_ops (H := Reference.permissive) (H0 := Reference.builtins)
      Reference.closed_twice Reference.group_store in
  before.1 = inr ()
  ∧ counter_of before.2 7 = Some (recompute public_and_pending before.2 7)
  ∧ after.1 = inr ()
  ∧ counter_of after.2 7 = Some (-1)
  ∧ recompute public_and_pending after.2 7 = 0
  ∧ ∀ visible, counter_of after.2 7 ≠ Some (recompute visible after.2 7).
Proof.
  intros before after.
  assert (Hb1 : before.1 = inr ()) by (vm_compute; reflexivity).
  assert (Hb2 : counter_of before.2 7
                = Some (recompute public_and_pending before.2 7))
    by (vm_compute; reflexivity).
  assert (Ha1 : after.1 = inr ()) by (vm_compute; reflexivity).
  assert (Ha2 : counter_of after.2 7 = Some (-1)) by (vm_compute; reflexivity).
  assert (Ha3 : recompute public_and_pending after.2 7 = 0)
    by (vm_compute; reflexivity).
  clearbody before after.
  repeat (split; [assumption|]).
  intros visible Heq.
  pose proof (recompute_nonneg visible after.2 7) as Hge.
  rewrite Ha2 in Heq. injection Heq as Heq. lia.
Qed.

(** The same drift when a public request that is not pending is
    deleted: [delete] decrements for every public request, pending or
    not. *)
Example counter_drifts_after_delete_of_closed :
  let after :=
    run_ops (H := Reference.permissive) (H0 := Reference.builtins)
      [Create Reference.alice; SetTargetGroups 2 {[ 7%nat ]};
       Publish 2 Reference.alice; Close 2 SUBMITTED; Delete 2]
      Reference.group_store in
  after.1 = inr ()
  ∧ counter_of after.2 7 = Some (-1)
  ∧ recompute public_and_pending after.2 7 = 0.
Proof.
  intros after.
  assert (H1 : after.1 = inr ()) by (vm_compute; reflexivity).
  split; [exact H1|].
  split; vm_compute; reflexivity.
Qed.

(** Where no request is closed twice the counter follows the count:
    close as discarded, reopen, publish again. *)
Example counter_follows_reopen :
  let after :=
    run_ops (H := Reference.permissive) (H0 := Reference.builtins)
      [Create Reference.alice; SetTargetGroups 2 {[ 7%nat ]};
       Publish 2 Reference.alice; Close 2 DISCARDED; Reopen 2;
       Publish 2 Reference.alice]
      Reference.group_store in
  after.1 = inr ()
  ∧ counter_of after.2 7 = Some 1
  ∧ recompute public_and_pending after.2 7 = 1.
Proof.
  intros after.
  assert (H1 : after.1 = inr ()) by (vm_compute; reflexivity).
  split; [exact H1|].
  split; vm_compute; reflexivity.
Qed.

(** ** Bug lists: [get_bug_list] normalizes *)

(** *** Strings *)

Section Append.

Lemma append_nil_r (s : string) : s ++ "" = s.
Proof.
  induction s as [|a s IH]; [done|].
  unfold String.append; fold String.append. by rewrite IH.
Qed.

Lemma append_cons (a : ascii) (s t : string) :
  String a s ++ t = String a (s ++ t).
Proof. reflexivity. Qed.

Lemma append_assoc (s t u : string) : (s ++ t) ++ u = s ++ (t ++ u).
Proof.
  induction s as [|a s IH]; [done|]. rewrite !append_cons. by rewrite IH.
Qed.

End Append.

(** *** [re.split] and [','.join] *)

Section SplitJoin.
Import BugList.

Lemma sep_free_app (s t : string) :
  sep_free (s ++ t) = sep_free s && sep_free t.
Proof.
  induction s as [|a s IH]; [done|]. rewrite append_cons. simpl.
  rewrite IH. by rewrite andb_assoc.
Qed.

Lemma split_go_token_false (cur t rest : string) :
  sep_free t = true →
  split_go cur false (t ++ rest) = split_go (cur ++ t) false rest.
Proof.
  revert cur. induction t as [|a t IH]; intros cur Ht.
  - by rewrite append_nil_r.
  - simpl in Ht. apply andb_prop in Ht as [Ha Ht].
    rewrite append_cons. simpl. apply negb_true_iff in Ha. rewrite Ha.
    rewrite IH by done. by rewrite append_assoc.
Qed.

Lemma split_go_token_true (cur t rest : string) :
  token t →
  split_go cur true (t ++ rest) = split_go (cur ++ t) false rest.
Proof.
  intros [Hne Ht]. destruct t as [|a t]; [done|].
  simpl in Ht. apply andb_prop in Ht as [Ha Ht].
  rewrite append_cons. simpl. apply negb_true_iff in Ha. rewrite Ha.
  rewrite split_go_token_false by done. by rewrite append_assoc.
Qed.

(** A token is read as a whole, whatever came before it. *)
Lemma split_go_token (cur t rest : string) (b : bool) :
  token t →
  split_go cur b (t ++ rest) = split_go (cur ++ t) false rest.
Proof.
  intros Ht. destruct b; [by apply split_go_token_true|].
  apply split_go_token_false, Ht.
Qed.

Lemma join_cons (t t' : string) (l : list string) :
  join (t :: t' :: l) = t ++ String "," (join (t' :: l)).
Proof. reflexivity. Qed.

Lemma split_go_join (t : string) (l : list string) (b : bool) :
  token t → Forall token l → split_go "" b (join (t :: l)) = t :: l.
Proof.
  intros Ht Hl. revert t b Ht.
  induction Hl as [|t' l Ht' Hl IH]; intros t b Ht.
  - change (join [t]) with t. rewrite <- (append_nil_r t) at 1.
    by rewrite split_go_token.
  - rewrite join_cons, split_go_token by done. simpl.
    f_equal. by apply IH.
Qed.

(** Splitting the comma-joined tokens gives the tokens back. *)
Lemma re_split_join (l : list string) :
  l ≠ [] → Forall token l → re_split (join l) = l.
Proof.
  intros Hne Hl. destruct l as [|t l]; [done|].
  apply Forall_cons in Hl as [Ht Hl]. by apply split_go_join.
Qed.

Lemma join_nonempty (l : list string) :
  l ≠ [] → Forall token l → join l ≠ "".
Proof.
  intros Hne Hl. destruct l as [|t l]; [done|].
  apply Forall_cons in Hl as [[Ht _] Hl].
  destruct t as [|a t]; [done|]. destruct l; discriminate.
Qed.

(** What [re.split] returns has no separator inside. *)
Lemma split_go_sep_free (cur s : string) (b : bool) :
  sep_free cur = true → Forall (λ t, sep_free t = true) (split_go cur b s).
Proof.
  revert cur b. induction s as [|a s IH]; intros cur b Hcur; simpl.
  - by constructor.
  - destruct (is_sep a) eqn:Ha.
    + destruct b; [by apply IH|]. constructor; [done|]. by apply IH.
    + apply IH. rewrite sep_free_app, Hcur. simpl. by rewrite Ha.
Qed.

Lemma split_go_not_nil (cur s : string) (b : bool) : split_go cur b s ≠ [].
Proof.
  revert cur b. induction s as [|a s IH]; intros cur b; simpl; [done|].
  destruct (is_sep a); [destruct b|]; try done; apply IH.
Qed.

(** The pieces of a well-formed bug string are tokens. *)
Lemma valid_tokens (s : string) :
  valid_bug_string s = true → s ≠ "" → Forall token (re_split s).
Proof.
  intros Hvalid Hne. unfold valid_bug_string in Hvalid.
  apply orb_prop in Hvalid as [Hall|Hempty].
  - pose proof (split_go_sep_free "" s false eq_refl) as Hfree.
    rewrite forallb_forall in Hall. apply Forall_forall. intros t Ht.
    split.
    + specialize (Hall t (proj1 (list_elem_of_In _ _) Ht)).
      apply negb_true_iff, String.eqb_neq in Hall. done.
    + rewrite Forall_forall in Hfree. by apply Hfree.
  - apply String.eqb_eq in Hempty. done.
Qed.

End SplitJoin.

(** *** [list.sort()] *)

Section LexicalSort.
Import BugList.

Lemma lex_le_le (a b : string) : lex_le a b ↔ String.le a b.
Proof.
  unfold lex_le, String.le, String.leb.
  destruct (String.compare a b); simpl; split; try done.
Qed.

#[local] Instance lex_le_antisymm : AntiSymm (=) lex_le.
Proof.
  intros a b Hab Hba. apply lex_le_le in Hab, Hba.
  by apply (anti_symm String.le).
Qed.

#[local] Instance lex_le_trans : Transitive lex_le.
Proof.
  intros a b c Hab Hbc. apply lex_le_le. apply lex_le_le in Hab, Hbc.
  by trans b.
Qed.

Lemma lex_le_flip (a b : string) : String.compare a b = Gt → lex_le b a.
Proof.
  intros Hgt. unfold lex_le. rewrite String.compare_antisym, Hgt. discriminate.
Qed.

Lemma insert_lex_Permutation (x : string) (l : list string) :
  insert_lex x l ≡ₚ x :: l.
Proof.
  induction l as [|y l IH]; simpl; [done|].
  destruct (String.compare x y); try done.
  rewrite IH. apply perm_swap.
Qed.

Lemma sort_lex_Permutation_self (l : list string) : sort_lex l ≡ₚ l.
Proof.
  induction l as [|x l IH]; simpl; [done|].
  by rewrite insert_lex_Permutation, IH.
Qed.

Lemma insert_lex_Sorted (x : string) (l : list string) :
  Sorted lex_le l → Sorted lex_le (insert_lex x l).
Proof.
  induction 1 as [|y l Hl IH Hhd]; simpl; [by repeat constructor|].
  destruct (String.compare x y) eqn:Exy.
  - constructor; [by constructor|]. constructor. unfold lex_le. by rewrite Exy.
  - constructor; [by constructor|]. constructor. unfold lex_le. by rewrite Exy.
  - constructor; [exact IH|].
    destruct Hhd as [|z l Hyz]; simpl.
    + constructor. by apply lex_le_flip.
    + destruct (String.compare x z); constructor; try done.
      all: by apply lex_le_flip.
Qed.

Lemma sort_lex_Sorted (l : list string) : Sorted lex_le (sort_lex l).
Proof.
  induction l as [|x l IH]; simpl; [constructor|by apply insert_lex_Sorted].
Qed.

(** Sorting a sorted list changes nothing. *)
Lemma sort_lex_sorted (l : list string) : Sorted lex_le l → sort_lex l = l.
Proof.
  induction 1 as [|x l Hl IH Hhd]; simpl; [done|].
  rewrite IH. destruct Hhd as [|y l Hxy]; simpl; [done|].
  unfold lex_le in Hxy. by destruct (String.compare x y).
Qed.

(** The result of [list.sort()] does not depend on the order in which
    the list comes: whatever the failed numeric sort left behind, the
    fallback returns the same list. *)
Lemma sort_lex_Permutation (l l' : list string) :
  l ≡ₚ l' → sort_lex l = sort_lex l'.
Proof.
  intros Hperm. apply (Sorted_unique lex_le); try apply sort_lex_Sorted.
  by rewrite !sort_lex_Permutation_self.
Qed.

End LexicalSort.

(** *** [list.sort(cmp=...)] with [int] *)

Section NumericSort.
Context `{Builtins}.
Import BugList.

Lemma cmp_le_int_le (a b : string) : cmp_le a b ↔ int_le a b.
Proof.
  unfold cmp_le, int_le, int_cmp. split.
  - intros (c & Hc & Hgt).
    destruct (py_int a) as [x|], (py_int b) as [y|]; try discriminate.
    exists x, y. repeat split. injection Hc as <-. by apply Z.compare_le_iff.
  - intros (x & y & -> & -> & Hle). exists (x ?= y). split; [done|].
    by apply Z.compare_le_iff.
Qed.

Lemma Sorted_cmp_le_int_le (l : list string) :
  Sorted cmp_le l → Sorted int_le l.
Proof.
  induction 1 as [|x l Hl IH Hhd]; constructor; [done|].
  destruct Hhd; constructor. by apply cmp_le_int_le.
Qed.

Lemma cmp_gt_flip (a b : string) :
  int_cmp a b = Some Gt → cmp_le b a.
Proof.
  unfold cmp_le, int_cmp.
  destruct (py_int a) as [x|], (py_int b) as [y|]; try discriminate.
  intros [= Hgt]. exists (y ?= x). split; [done|].
  rewrite Z.compare_antisym, Hgt. discriminate.
Qed.

Lemma insert_cmp_Permutation (x : string) (l r : list string) :
  insert_cmp int_cmp x l = Some r → r ≡ₚ x :: l.
Proof.
  revert r. induction l as [|y l IH]; intros r; simpl.
  - by intros [= <-].
  - destruct (int_cmp x y) as [[| |]|]; try discriminate; try by intros [= <-].
    destruct (insert_cmp int_cmp x l) as [r'|]; [|discriminate].
    intros [= <-]. rewrite (IH r' eq_refl). apply perm_swap.
Qed.

Lemma sort_cmp_Permutation (l r : list string) :
  sort_cmp int_cmp l = Some r → r ≡ₚ l.
Proof.
  revert r. induction l as [|x l IH]; intros r; simpl.
  - by intros [= <-].
  - destruct (sort_cmp int_cmp l) as [r'|]; [|discriminate].
    intros Hins. apply insert_cmp_Permutation in Hins.
    by rewrite Hins, (IH r' eq_refl).
Qed.

Lemma insert_cmp_Sorted (x : string) (l r : list string) :
  Sorted cmp_le l → insert_cmp int_cmp x l = Some r → Sorted cmp_le r.
Proof.
  intros Hl. revert r. induction Hl as [|y l Hl IH Hhd]; intros r; simpl.
  - intros [= <-]. by repeat constructor.
  - destruct (int_cmp x y) as [c|] eqn:Exy; [|discriminate].
    destruct c.
    + intros [= <-]. constructor; [by constructor|]. constructor.
      exists Eq. by split.
    + intros [= <-]. constructor; [by constructor|]. constructor.
      exists Lt. by split.
    + destruct (insert_cmp int_cmp x l) as [r'|] eqn:Eins; [|discriminate].
      intros [= <-]. constructor; [by apply IH|].
      destruct Hhd as [|z l Hyz]; simpl in Eins.
      * injection Eins as <-. constructor. by apply cmp_gt_flip.
      * destruct (int_cmp x z) as [[| |]|]; try discriminate;
          try (injection Eins as <-; constructor; by apply cmp_gt_flip).
        destruct (insert_cmp int_cmp x l); [|discriminate].
        injection Eins as <-. by constructor.
Qed.

Lemma sort_cmp_Sorted (l r : list string) :
  sort_cmp int_cmp l = Some r → Sorted cmp_le r.
Proof.
  revert r. induction l as [|x l IH]; intros r; simpl.
  - intros [= <-]. constructor.
  - destruct (sort_cmp int_cmp l) as [r'|]; [|discriminate].
    apply insert_cmp_Sorted. by apply IH.
Qed.

(** Sorting a sorted list changes nothing: the sort is stable. *)
Lemma sort_cmp_sorted (l : list string) :
  Sorted cmp_le l → sort_cmp int_cmp l = Some l.
Proof.
  induction 1 as [|x l Hl IH Hhd]; simpl; [done|].
  rewrite IH. destruct Hhd as [|y l (c & Hc & Hgt)]; simpl; [done|].
  rewrite Hc. by destruct c.
Qed.

(** The numeric sort returns on numeric tokens. *)
Lemma insert_cmp_numeric (x : string) (l : list string) :
  numeric x → Forall numeric l → is_Some (insert_cmp int_cmp x l).
Proof.
  intros [zx Hx] Hl. induction Hl as [|y l [zy Hy] Hl IH]; simpl; [done|].
  assert (Hc : int_cmp x y = Some (zx ?= zy))
    by (unfold int_cmp; by rewrite Hx, Hy).
  rewrite Hc. destruct (zx ?= zy); try done.
  destruct IH as [r ->]. done.
Qed.

Lemma sort_cmp_numeric (l : list string) :
  Forall numeric l → is_Some (sort_cmp int_cmp l).
Proof.
  induction 1 as [|x l Hx Hl IH]; simpl; [done|].
  destruct IH as [r Hr]. rewrite Hr.
  apply insert_cmp_numeric; [done|].
  apply sort_cmp_Permutation in Hr. by rewrite Hr.
Qed.

(** It raises as soon as there are two tokens and one of them is not
    numeric: every element of such a list is compared at least once. *)
Lemma insert_cmp_not_numeric (x : string) (l : list string) :
  l ≠ [] → ¬ (numeric x ∧ Forall numeric l) →
  Forall numeric l ∨ length l = 1%nat →
  insert_cmp int_cmp x l = None.
Proof.
  intros Hne Hnot Hl. destruct l as [|y l]; [done|]. simpl.
  unfold int_cmp.
  destruct (py_int x) as [zx|] eqn:Hx; [|done].
  destruct (py_int y) as [zy|] eqn:Hy; [|done].
  exfalso. apply Hnot. split; [by eexists|].
  destruct Hl as [Hl|Hlen]; [done|].
  destruct l; [|discriminate]. constructor; [by eexists|constructor].
Qed.

Lemma sort_cmp_not_numeric (l : list string) :
  (2 ≤ length l)%nat → ¬ Forall numeric l → sort_cmp int_cmp l = None.
Proof.
  induction l as [|x l IH]; intros Hlen Hnot; simpl in *; [lia|].
  destruct (sort_cmp int_cmp l) as [r|] eqn:Hr; [|done].
  assert (Hperm : r ≡ₚ l) by by apply sort_cmp_Permutation.
  apply insert_cmp_not_numeric.
  - intros ->. apply Permutation_nil_l in Hperm. subst. simpl in Hlen. lia.
  - intros [Hx Hall]. apply Hnot. constructor; [done|]. by rewrite <- Hperm.
  - destruct (decide (2 ≤ length l)%nat) as [Hge|Hlt].
    + left. rewrite Hperm.
      destruct (decide (Forall numeric l)) as [Hall|Hnall]; [done|].
      specialize (IH Hge Hnall). congruence.
    + right. rewrite Hperm. lia.
Qed.

Lemma sort_cmp_None (l : list string) :
  sort_cmp int_cmp l = None ↔ (2 ≤ length l)%nat ∧ ¬ Forall numeric l.
Proof.
  split.
  - intros Hnone. split.
    + destruct l as [|x [|y l]]; simpl in *; try discriminate. lia.
    + intros Hall. apply sort_cmp_numeric in Hall as [r Hr]. congruence.
  - intros [Hlen Hnot]. by apply sort_cmp_not_numeric.
Qed.

(** *** [get_bug_list] *)

(** The list of a non-empty string is a rearrangement of its pieces. *)
Lemma get_bug_list_Permutation (s : string) :
  s ≠ "" → get_bug_list s ≡ₚ re_split s.
Proof.
  intros Hne. unfold get_bug_list.
  apply String.eqb_neq in Hne. rewrite Hne.
  destruct (sort_cmp int_cmp (re_split s)) as [r|] eqn:Hr.
  - by apply sort_cmp_Permutation.
  - apply sort_lex_Permutation_self.
Qed.

(** The list of a list that [get_bug_list] returned, read again. *)
Lemma get_bug_list_again (l : list string) :
  (sort_cmp int_cmp l = Some l
   ∨ sort_cmp int_cmp l = None ∧ sort_lex l = l) →
  l ≠ [] → Forall token l →
  get_bug_list (join l) = l.
Proof.
  intros Hfix Hne Htok. unfold get_bug_list.
  pose proof (join_nonempty l Hne Htok) as Hjoin.
  apply String.eqb_neq in Hjoin. rewrite Hjoin.
  rewrite (re_split_join l Hne Htok).
  destruct Hfix as [->|[-> Hlex]]; done.
Qed.

(** C8: for every well-formed bug string (tokens separated by runs of
    commas and spaces, no separator at either end), reading the
    comma-joined result of [get_bug_list] again gives the same list;
    the result is a rearrangement of the tokens; when every token is
    numeric it is in ascending numeric order, and when some token is
    not numeric it is in lexical order. *)
Theorem get_bug_list_normalizes (s : string) :
  valid_bug_string s = true →
  get_bug_list (join (get_bug_list s)) = get_bug_list s
  ∧ (s ≠ "" → get_bug_list s ≡ₚ re_split s)
  ∧ (Forall numeric (re_split s) → Sorted int_le (get_bug_list s))
  ∧ (¬ Forall numeric (re_split s) → Sorted lex_le (get_bug_list s)).
Proof.
  intros Hvalid.
  destruct (decide (s = "")) as [->|Hne].
  { repeat split; try done; intros; constructor. }
  pose proof (valid_tokens s Hvalid Hne) as Htok.
  pose proof (get_bug_list_Permutation s Hne) as Hperm.
  assert (Hnil : get_bug_list s ≠ []).
  { intros Hnil. rewrite Hnil in Hperm. apply Permutation_nil_l in Hperm.
    by apply (split_go_not_nil "" s false). }
  assert (Htok' : Forall token (get_bug_list s)) by by rewrite Hperm.
  split; [|split; [done|]].
  - apply get_bug_list_again; try done.
    revert Hperm. unfold get_bug_list.
    apply String.eqb_neq in Hne. rewrite Hne.
    destruct (sort_cmp int_cmp (re_split s)) as [r|] eqn:Hr; intros Hperm.
    + left. by apply sort_cmp_sorted, (sort_cmp_Sorted (re_split s)).
    + right. split.
      * apply sort_cmp_None. apply sort_cmp_None in Hr as [Hlen Hnot].
        rewrite Hperm. by split.
      * apply sort_lex_sorted, sort_lex_Sorted.
  - unfold get_bug_list. apply String.eqb_neq in Hne. rewrite Hne.
    destruct (sort_cmp int_cmp (re_split s)) as [r|] eqn:Hr; split.
    + intros _. by apply Sorted_cmp_le_int_le, (sort_cmp_Sorted (re_split s)).
    + intros Hnot.
      assert (Hlen : (length r < 2)%nat).
      { destruct (decide (2 ≤ length (re_split s))%nat) as [Hge|Hlt].
        - assert (Hnone : sort_cmp int_cmp (re_split s) = None)
            by by apply sort_cmp_None.
          congruence.
        - apply sort_cmp_Permutation in Hr. rewrite Hr. lia. }
      destruct r as [|x [|y r]]; simpl in Hlen; try lia; by repeat constructor.
    + intros Hall. apply sort_cmp_numeric in Hall as [r Hr']. congruence.
    + intros _. apply sort_lex_Sorted.
Qed.

End NumericSort.

(** Runs on the reference [int]. *)

Section BugListRuns.
Import BugList.
#[local] Existing Instance Reference.builtins.

Lemma get_bug_list_normalizes_witness :
  get_bug_list (join (get_bug_list "10, 9,2")) = get_bug_list "10, 9,2"
  ∧ ("10, 9,2" ≠ "" → get_bug_list "10, 9,2" ≡ₚ re_split "10, 9,2")
  ∧ (Forall numeric (re_split "10, 9,2") →
     Sorted int_le (get_bug_list "10, 9,2"))
  ∧ (¬ Forall numeric (re_split "10, 9,2") →
     Sorted lex_le (get_bug_list "10, 9,2")).
Proof.
  apply (@get_bug_list_normalizes Reference.builtins "10, 9,2").
  reflexivity.
Defined.

(** Numeric tokens, mixed tokens, and a string with a separator at both
    ends, whose two empty pieces become one when the joined result is
    read again. *)
Example get_bug_list_numeric :
  get_bug_list "10, 9,2" = ["2"; "9"; "10"].
Proof. vm_compute. reflexivity. Qed.

Example get_bug_list_mixed :
  get_bug_list "b12, 9,10" = ["10"; "9"; "b12"].
Proof. vm_compute. reflexivity. Qed.

Example get_bug_list_of_padded_string :
  get_bug_list ",1," = [""; ""; "1"]
  ∧ get_bug_list (join (get_bug_list ",1,")) = [""; "1"].
Proof. split; vm_compute; reflexivity. Qed.

End BugListRuns.

(** * Further properties *)

(** ** [truncate] *)

Section Truncate.

Lemma prefix_split (n : nat) (s : string) : ∃ rest, s = substring 0 n s ++ rest.
Proof.
  revert n. induction s as [|a s IH]; intros [|n]; simpl.
  - by exists "".
  - by exists "".
  - by exists (String a s).
  - destruct (IH n) as [rest Hrest]. exists rest.
    rewrite append_cons. by rewrite <- Hrest.
Qed.

Lemma slice_to_prefix (s : string) (n : Z) : ∃ rest, s = Py.slice_to s n ++ rest.
Proof. unfold Py.slice_to. destruct (n <? 0); apply prefix_split. Qed.

(** With a limit that is not negative, what [truncate] returns is
    short enough to be returned unchanged. *)
Lemma truncate_idempotent (s : string) (num : Z) :
  0 ≤ num → truncate (truncate s num) num = truncate s num.
Proof.
  intros Hnum. rewrite <- (Z2Nat.id num Hnum).
  apply truncate_short.
  apply (truncate_cut_at_sentence s (Z.to_nat num)).
Qed.

(** X1: [truncate] returns a prefix of its input, whatever the limit,
    and with a limit that is not negative it is idempotent: what it
    returns is short enough to be returned unchanged. *)
Theorem truncate_prefix_idempotent (s : string) (num : Z) :
  (∃ rest, s = truncate s num ++ rest)
  ∧ (0 ≤ num → truncate (truncate s num) num = truncate s num).
Proof.
  split.
  - unfold truncate. destruct (num <? _); [|exists ""; by rewrite append_nil_r].
    destruct (slice_to_prefix s num) as [r1 Hr1].
    destruct (negb _); [|by exists r1].
    destruct (slice_to_prefix (Py.slice_to s num)
                (Py.rfind (Py.slice_to s num) "." + 1)) as [r2 Hr2].
    exists (r2 ++ r1). rewrite <- append_assoc. by rewrite <- Hr2.
  - apply truncate_idempotent.
Qed.

Lemma truncate_prefix_idempotent_witness :
  (∃ rest, "One. Two" = truncate "One. Two" 6 ++ rest)
  ∧ truncate (truncate "One. Two" 6) 6 = truncate "One. Two" 6.
Proof.
  destruct (truncate_prefix_idempotent "One. Two" 6) as [Hprefix Hidem].
  split; [exact Hprefix|]. apply Hidem. lia.
Defined.

(** With a negative limit the slice counts from the end, and every
    call cuts again. *)
Example truncate_negative_limit :
  truncate "abc" (-1) = "ab" ∧ truncate (truncate "abc" (-1)) (-1) = "a".
Proof. split; reflexivity. Qed.

End Truncate.

(** ** [Comment.truncate_text] *)

Section TruncateText.
Import Comment.

Lemma length_append (s t : string) :
  String.length (s ++ t) = (String.length s + String.length t)%nat.
Proof. induction s as [|a s IH]; [done|]. rewrite append_cons. simpl. by rewrite IH. Qed.

(** X2: the text that [truncate_text] returns has at most 60
    characters; a text of at most 60 characters is returned as it is, a
    longer one as its first 57 characters and three dots, 60 characters
    in all; truncating twice is truncating once. *)
Theorem truncate_text_bounded (text : string) :
  (String.length (truncate_text text) ≤ 60)%nat
  ∧ ((String.length text ≤ 60)%nat → truncate_text text = text)
  ∧ ((60 < String.length text)%nat →
     truncate_text text = substring 0 57 text ++ "..."
     ∧ String.length (truncate_text text) = 60%nat)
  ∧ truncate_text (truncate_text text) = truncate_text text.
Proof.
  assert (Hshort : ∀ t, (String.length t ≤ 60)%nat → truncate_text t = t).
  { intros t Ht. unfold truncate_text.
    destruct (Z.ltb_spec 60 (Z.of_nat (String.length t))); [lia|done]. }
  assert (Hlong : (60 < String.length text)%nat →
                  truncate_text text = substring 0 57 text ++ "..."
                  ∧ String.length (truncate_text text) = 60%nat).
  { intros Ht. unfold truncate_text.
    destruct (Z.ltb_spec 60 (Z.of_nat (String.length text))); [|lia].
    change 57 with (Z.of_nat 57). rewrite slice_to_nonneg.
    split; [done|]. rewrite length_append, length_prefix.
    change (String.length "...") with 3%nat. lia. }
  assert (Hlen : (String.length (truncate_text text) ≤ 60)%nat).
  { destruct (Nat.le_gt_cases (String.length text) 60) as [Hle|Hgt].
    - by rewrite Hshort.
    - destruct (Hlong Hgt) as [_ ->]. lia. }
  split; [exact Hlen|]. split; [exact (Hshort text)|].
  split; [exact Hlong|]. by apply Hshort.
Qed.

Lemma truncate_text_bounded_witness :
  truncate_text "short" = "short"
  ∧ String.length
      (truncate_text (Reference.repeat_string 7 "0123456789")) = 60%nat.
Proof.
  destruct (truncate_text_bounded "short") as (_ & Hshort & _).
  destruct (truncate_text_bounded (Reference.repeat_string 7 "0123456789"))
    as (_ & _ & Hlong & _).
  split.
  - apply Hshort. simpl. lia.
  - apply Hlong. simpl. lia.
Defined.

End TruncateText.

(** ** Change sets *)

Section Changesets.
Context `{Changenum.SCMTool} `{Builtins}.
Import Changenum.

(** X3: [update_obj_with_changenum] raises [InvalidChangeNumberError]
    when the tool has no change set for the number and lets the tool's
    own error through; otherwise the object takes the number, the
    summary and the description of the change set, keeps its testing
    notes, its branch and its bugs where the change set has none, and
    never ends with empty testing notes or an empty branch that it did
    not have before. *)
Theorem update_obj_with_changenum_fields (obj : Fields)
    (repository : option nat) (number : Z) :
  (lookup_changeset repository number = inr None →
   update_obj_with_changenum obj repository number
   = inl InvalidChangeNumberError)
  ∧ (∀ e, lookup_changeset repository number = inl e →
          update_obj_with_changenum obj repository number = inl e)
  ∧ (∀ changeset,
       lookup_changeset repository number = inr (Some changeset) →
       ∃ obj',
         update_obj_with_changenum obj repository number = inr obj'
         ∧ changenum obj' = Some number
         ∧ summary obj' = cs_summary changeset
         ∧ description obj' = cs_description changeset
         ∧ (cs_testing_done changeset = "" →
            testing_done obj' = testing_done obj)
         ∧ (cs_branch changeset = "" → branch obj' = branch obj)
         ∧ (cs_bugs_closed changeset = [] → bugs_closed obj' = bugs_closed obj)
         ∧ (testing_done obj ≠ "" → testing_done obj' ≠ "")
         ∧ (branch obj ≠ "" → branch obj' ≠ "")).
Proof.
  unfold update_obj_with_changenum.
  split; [|split].
  - by intros ->.
  - by intros e ->.
  - intros changeset ->. eexists. split; [reflexivity|]. simpl.
    repeat match goal with |- _ ∧ _ => split end; try reflexivity.
    + by intros ->.
    + by intros ->.
    + by intros ->.
    + intros Hobj. by destruct (String.eqb_spec (cs_testing_done changeset) "").
    + intros Hobj. by destruct (String.eqb_spec (cs_branch changeset) "").
Qed.

(** X4: the bug ids of a change set come back from [get_bug_list]:
    when the change set lists bugs and each one is a token (not empty,
    without comma or space), the bug list of the updated object is a
    rearrangement of them. *)
Theorem changeset_bugs_come_back (obj obj' : Fields)
    (repository : option nat) (number : Z) (changeset : ChangeSet) :
  lookup_changeset repository number = inr (Some changeset) →
  cs_bugs_closed changeset ≠ [] →
  Forall BugList.token (cs_bugs_closed changeset) →
  update_obj_with_changenum obj repository number = inr obj' →
  BugList.get_bug_list (bugs_closed obj') ≡ₚ cs_bugs_closed changeset.
Proof.
  intros Hcs Hne Htok. unfold update_obj_with_changenum. rewrite Hcs.
  intros [= <-]. simpl.
  destruct (cs_bugs_closed changeset) as [|b bugs] eqn:Hbugs; [done|].
  rewrite get_bug_list_Permutation by by apply join_nonempty.
  by rewrite re_split_join.
Qed.

(** X5: [changeset_is_pending] raises neither [EmptyChangeSetError] nor
    [NotImplementedError]; without a change number ([None] or [0]) it
    answers [None] and does not ask the tool, a request without
    repository included; and where the tool has no change set it
    answers [None], where [update_obj_with_changenum] raises. *)
Theorem changeset_is_pending_quiet (number : option Z)
    (repository : option nat) :
  changeset_is_pending number repository ≠ inl EmptyChangeSetError
  ∧ changeset_is_pending number repository ≠ inl NotImplementedError
  ∧ (number = None ∨ number = Some 0 →
     changeset_is_pending number repository = inr None)
  ∧ (∀ n, number = Some n → lookup_changeset repository n = inr None →
          changeset_is_pending number repository = inr None).
Proof.
  unfold changeset_is_pending.
  split; [|split; [|split]].
  - destruct number as [n|]; [|done]. destruct (n =? 0); [done|].
    by destruct (lookup_changeset repository n) as [[]|[]].
  - destruct number as [n|]; [|done]. destruct (n =? 0); [done|].
    by destruct (lookup_changeset repository n) as [[]|[]].
  - by intros [-> | ->].
  - intros n -> ->. by destruct (n =? 0).
Qed.

End Changesets.

Lemma update_obj_with_changenum_fields_witness :
  ∃ obj',
    Changenum.update_obj_with_changenum (H := Samples.tool)
      Samples.edited_fields (Some 1%nat) 7 = inr obj'
    ∧ Changenum.changenum obj' = Some 7
    ∧ Changenum.summary obj' = "Fix crash"
    ∧ Changenum.testing_done obj' = "ran the unit tests"
    ∧ Changenum.branch obj' = "trunk".
Proof.
  destruct (@update_obj_with_changenum_fields Samples.tool
              Samples.edited_fields (Some 1%nat) 7) as (_ & _ & Hset).
  destruct (Hset Samples.changeset_7 eq_refl)
    as (obj' & Hrun & Hnum & Hsum & _ & Htest & _ & _ & _ & _).
  exists obj'. split; [exact Hrun|]. split; [exact Hnum|].
  split; [exact Hsum|]. split; [by apply Htest|].
  injection Hrun as <-. reflexivity.
Defined.

Lemma changeset_bugs_come_back_witness :
  BugList.get_bug_list (H := Reference.builtins) "10,9" ≡ₚ ["10"; "9"].
Proof.
  apply (@changeset_bugs_come_back Samples.tool Reference.builtins
           Samples.edited_fields
           {| Changenum.changenum := Some 7;
              Changenum.summary := "Fix crash";
              Changenum.description := "Check the index.";
              Changenum.testing_done := "ran the unit tests";
              Changenum.branch := "trunk";
              Changenum.bugs_closed := "10,9" |}
           (Some 1%nat) 7 Samples.changeset_7).
  - reflexivity.
  - discriminate.
  - repeat constructor; discriminate.
  - reflexivity.
Defined.

Lemma changeset_is_pending_quiet_witness :
  Changenum.changeset_is_pending (H := Samples.tool) (Some 0) None = inr None
  ∧ Changenum.changeset_is_pending (H := Samples.tool) (Some 9) (Some 1%nat)
    = inr None.
Proof.
  destruct (@changeset_is_pending_quiet Samples.tool (Some 0) None)
    as (_ & _ & Hzero & _).
  destruct (@changeset_is_pending_quiet Samples.tool (Some 9) (Some 1%nat))
    as (_ & _ & _ & Hnone).
  split; [apply Hzero; by right|]. by apply (Hnone 9).
Defined.

(** A bug id with a space in it does not come back as one bug. *)
Example changeset_bug_with_space :
  BugList.get_bug_list (H := Reference.builtins) (BugList.join ["b 12"; "7"])
  = ["12"; "7"; "b"].
Proof. vm_compute. reflexivity. Qed.

(** ** Access to groups and to reviews *)

Section GroupAccess.
Context `{Auth}.

(** X6: a group is accessible to a user exactly when its site, if it
    has one, admits the user and the group is not invite-only or the
    user is a superuser or a member; so an anonymous visitor enters a
    group exactly when the site admits them and the group is not
    invite-only, and a superuser is kept out by the site only. *)
Theorem group_is_accessible_by_iff (self : Group) (user : User) :
  (Group_is_accessible_by self user = true ↔
     (∀ site, g_local_site self = Some site →
              LocalSite_is_accessible_by site user = true)
     ∧ (invite_only self = false
        ∨ is_superuser user = true
        ∨ ∃ pk, user_pk user = Some pk ∧ pk ∈ g_users self))
  ∧ (Group_is_accessible_by self AnonymousUser = true ↔
       (∀ site, g_local_site self = Some site →
                LocalSite_is_accessible_by site AnonymousUser = true)
       ∧ invite_only self = false)
  ∧ (is_superuser user = true → g_local_site self = None →
     Group_is_accessible_by self user = true).
Proof.
  assert (Hiff : ∀ u,
    Group_is_accessible_by self u = true ↔
      (∀ site, g_local_site self = Some site →
               LocalSite_is_accessible_by site u = true)
      ∧ (invite_only self = false
         ∨ is_superuser u = true
         ∨ ∃ pk, user_pk u = Some pk ∧ pk ∈ g_users self)).
  { intros u. unfold Group_is_accessible_by.
    destruct (g_local_site self) as [site|].
    - destruct (LocalSite_is_accessible_by site u) eqn:Hsite; simpl.
      + rewrite !orb_true_iff, andb_true_iff, negb_true_iff, count_pk_pos.
        split.
        * intros [[Hopen|Hsuper]|[Hauth Hmember]]; (split; [by intros ? [= <-]|]);
            auto.
        * intros [_ [Hopen|[Hsuper|Hmember]]]; auto.
          right. split; [|done]. destruct Hmember as (pk & Hpk & _).
          by destruct u.
      + split; [discriminate|]. intros [Hsite' _].
        specialize (Hsite' site eq_refl). congruence.
    - rewrite !orb_true_iff, andb_true_iff, negb_true_iff, count_pk_pos.
      split.
      + intros [[Hopen|Hsuper]|[Hauth Hmember]]; (split; [discriminate|]); auto.
      + intros [_ [Hopen|[Hsuper|Hmember]]]; auto.
        right. split; [|done]. destruct Hmember as (pk & Hpk & _).
        by destruct u. }
  split; [apply Hiff|]. split.
  - rewrite Hiff. split.
    + intros [Hsite [Hopen|[Hsuper|(pk & Hpk & _)]]]; try discriminate. done.
    + intros [Hsite Hopen]. auto.
  - intros Hsuper Hnosite. apply Hiff. split; [|auto].
    intros site. rewrite Hnosite. discriminate.
Qed.

End GroupAccess.

Lemma group_is_accessible_by_iff_witness :
  Group_is_accessible_by (H := Reference.permissive)
    Samples.private_group (AuthUser 9 true) = true.
Proof.
  apply (@group_is_accessible_by_iff Reference.permissive
           Samples.private_group (AuthUser 9 true)); reflexivity.
Defined.

(** The invite-only group of user 1: the member enters, another user
    and the anonymous visitor do not. *)
Example private_group_access :
  Group_is_accessible_by (H := Reference.permissive)
    Samples.private_group Reference.alice = true
  ∧ Group_is_accessible_by (H := Reference.permissive)
      Samples.private_group Reference.bob = false
  ∧ Group_is_accessible_by (H := Reference.permissive)
      Samples.private_group AnonymousUser = false.
Proof. repeat split. Qed.

Section ReviewAccess.
Context `{Auth} `{Managers}.

(** X7: a review is hidden from every user who is in a group that is
    not ready for reviews, the submitter of the request and superusers
    included; a user whose groups are all ready sees the review exactly
    when they submitted the request or can access one of the groups of
    the review's author. *)
Theorem review_is_accessible_by_iff (st : Store) (self : Review) (user : User) :
  ((∃ g, g ∈ group_rows st (Group_objects_accessible st user)
         ∧ ready_for_reviews g = false) →
   Review_is_accessible_by st self user = inr false)
  ∧ (∀ review_request,
       review_requests st !! rv_review_request self = Some review_request →
       (∃ answer, Review_is_accessible_by st self user = inr answer)
       ∧ (Review_is_accessible_by st self user = inr true ↔
            (∀ g, g ∈ group_rows st (Group_objects_accessible st user) →
                  ready_for_reviews g = true)
            ∧ (user_eqb (RR.submitter review_request) user = true
               ∨ ∃ g, g ∈ group_rows st
                            (Group_objects_accessible st (rv_user self))
                      ∧ Group_is_accessible_by g user = true))).
Proof.
  unfold Review_is_accessible_by.
  destruct (existsb _ (group_rows st (Group_objects_accessible st user)))
    eqn:Hready.
  - apply existsb_exists in Hready as (g0 & Hg0 & Hnot).
    apply negb_true_iff in Hnot. apply list_elem_of_In in Hg0.
    split; [done|]. intros rr Hrr. split; [by eexists|].
    split; [discriminate|]. intros [Hall _].
    specialize (Hall g0 Hg0). congruence.
  - assert (Hall : ∀ g, g ∈ group_rows st (Group_objects_accessible st user) →
                        ready_for_reviews g = true).
    { intros g Hg. apply list_elem_of_In in Hg.
      destruct (ready_for_reviews g) eqn:Hr; [done|].
      assert (existsb (λ group, negb (ready_for_reviews group))
                (group_rows st (Group_objects_accessible st user)) = true)
        by (apply existsb_exists; exists g; by rewrite Hr).
      congruence. }
    split.
    + intros (g & Hg & Hnot). specialize (Hall g Hg). congruence.
    + intros rr ->.
      destruct (user_eqb (RR.submitter rr) user) eqn:Hsub.
      * split; [by eexists|]. split; [auto|done].
      * destruct (existsb (λ group, Group_is_accessible_by group user) _)
          eqn:Hshare.
        -- split; [by eexists|]. split; [|done].
           intros _. split; [done|]. right. by apply existsb_accessible.
        -- split; [by eexists|]. split; [discriminate|].
           intros [_ [Hs|Hg]]; [discriminate|].
           apply existsb_accessible in Hg. congruence.
Qed.

End ReviewAccess.

(** Alice submitted the request, but she is in a group that is not
    ready for reviews: bob's review is hidden from her. *)
Lemma review_is_accessible_by_iff_witness :
  Review_is_accessible_by (H := Reference.permissive)
    (H0 := Samples.everyone_in_7)
    Samples.unready_store Samples.review_by_bob Reference.alice
  = inr false.
Proof.
  apply (@review_is_accessible_by_iff Reference.permissive
           Samples.everyone_in_7 Samples.unready_store
           Samples.review_by_bob Reference.alice).
  exists Samples.unready_group. split; [|reflexivity].
  apply list_elem_of_In. vm_compute. by left.
Defined.

(** ** Saving a review request *)

Section Strip.

Lemma rstrip_idempotent (s : string) : Py.rstrip (Py.rstrip s) = Py.rstrip s.
Proof.
  induction s as [|a s IH]; [done|]. simpl.
  destruct (Py.rstrip s) as [|b r] eqn:Hr.
  - destruct (Py.is_space a) eqn:Ha; [done|]. simpl. by rewrite Ha.
  - simpl in *. by rewrite IH.
Qed.

Lemma lstrip_head (s : string) :
  Py.lstrip s = "" ∨ ∃ a r, Py.lstrip s = String a r ∧ Py.is_space a = false.
Proof.
  induction s as [|a s IH]; [by left|]. simpl.
  destruct (Py.is_space a) eqn:Ha; [done|]. right. by exists a, s.
Qed.

Lemma lstrip_rstrip_lstrip (s : string) :
  Py.lstrip (Py.rstrip (Py.lstrip s)) = Py.rstrip (Py.lstrip s).
Proof.
  destruct (lstrip_head s) as [->|(a & r & -> & Ha)]; [done|].
  simpl. destruct (Py.rstrip r); rewrite ?Ha; simpl; by rewrite Ha.
Qed.

(** [strip] is idempotent. *)
Lemma strip_idempotent (s : string) : Py.strip (Py.strip s) = Py.strip s.
Proof.
  unfold Py.strip. by rewrite lstrip_rstrip_lstrip, rstrip_idempotent.
Qed.

End Strip.

Section Save.

(** X8: saving a review request that has a row returns and stores the
    object under its key, with the bug string stripped of outer
    whitespace and the summary cut, and with the key, status, public
    flag, submitter, repository, description, testing notes, diff
    history, branch and site it was given; the rows of the other
    requests, the drafts, the change descriptions and the relations are
    as before and no signal is sent; the visits of the request are
    forgotten when it is not pending and kept when it is; and a second
    save of what was returned writes the same bug string and the same
    summary again and, without [update_counts], moves no counter of a
    group. *)
Theorem save_normalizes_once (self : RR.t) (update_counts : bool)
    (st : Store) (pk : nat) :
  RR.id self = Some pk →
  is_Some (review_requests st !! pk) →
  ∃ self' st',
    ReviewRequest_save self update_counts st = (inr self', st')
    ∧ review_requests st' !! pk = Some self'
    ∧ RR.bugs_closed self' = Py.strip (RR.bugs_closed self)
    ∧ RR.summary self' = truncate (RR.summary self) MAX_SUMMARY_LENGTH
    ∧ (RR.id self' = RR.id self
       ∧ RR.status self' = RR.status self
       ∧ RR.public self' = RR.public self
       ∧ RR.submitter self' = RR.submitter self
       ∧ RR.repository self' = RR.repository self
       ∧ RR.description self' = RR.description self
       ∧ RR.testing_done self' = RR.testing_done self
       ∧ RR.diffset_history self' = RR.diffset_history self
       ∧ RR.branch self' = RR.branch self
       ∧ RR.local_site self' = RR.local_site self)
    ∧ (∀ k, k ≠ pk → review_requests st' !! k = review_requests st !! k)
    ∧ drafts st' = drafts st
    ∧ changedescs st' = changedescs st
    ∧ rr_relations st' = rr_relations st
    ∧ signals st' = signals st
    ∧ rr_visits st'
      = (if String.eqb (RR.status self) PENDING_REVIEW
         then rr_visits st else delete pk (rr_visits st))
    ∧ ∃ self'' st'',
        ReviewRequest_save self' false st' = (inr self'', st'')
        ∧ RR.bugs_closed self'' = RR.bugs_closed self'
        ∧ RR.summary self'' = RR.summary self'
        ∧ groups st'' = groups st'.
Proof.
  intros Hid [row Hrow].
  assert (Hagain : ∀ st1,
    ∃ st2,
      ReviewRequest_save
        (RR.with_summary (truncate (RR.summary self) MAX_SUMMARY_LENGTH)
           (RR.with_bugs_closed (Py.strip (RR.bugs_closed self)) self))
        false st1
      = (inr (RR.with_summary (truncate (RR.summary self) MAX_SUMMARY_LENGTH)
                (RR.with_bugs_closed (Py.strip (RR.bugs_closed self)) self)),
         st2)
      ∧ groups st2 = groups st1).
  { intros st1. unfold ReviewRequest_save, Model_save.
    simpl. rewrite strip_idempotent.
    rewrite truncate_idempotent by (unfold MAX_SUMMARY_LENGTH; lia).
    rewrite Hid. run_monad.
    destruct (String.eqb (RR.status self) PENDING_REVIEW); unfold ret; simpl;
      (eexists; split; [reflexivity|]); reflexivity. }
  set (self1 := RR.with_summary (truncate (RR.summary self) MAX_SUMMARY_LENGTH)
                  (RR.with_bugs_closed (Py.strip (RR.bugs_closed self)) self))
    in *.
  assert (Hfirst : ∃ st',
    ReviewRequest_save self update_counts st = (inr self1, st')
    ∧ review_requests st' = <[pk := self1]> (review_requests st)
    ∧ drafts st' = drafts st
    ∧ changedescs st' = changedescs st
    ∧ rr_relations st' = rr_relations st
    ∧ signals st' = signals st
    ∧ rr_visits st'
      = (if String.eqb (RR.status self) PENDING_REVIEW
         then rr_visits st else delete pk (rr_visits st))).
  { subst self1. unfold ReviewRequest_save.
    set (self1 := RR.with_summary _ _).
    destruct (update_counts_returns self1 st) as [f Hcounts].
    { intros k. change (RR.id self1) with (RR.id self). rewrite Hid.
      intros [= <-]. by eexists. }
    assert (Hwhen : ∃ g, when (update_counts || bool_decide (RR.id self1 = None))
                           (ReviewRequest_update_counts self1) st
                         = (inr (), upd_groups g st)).
    { destruct (update_counts || _); [by exists f|].
      exists (λ g, g). by rewrite upd_groups_id. }
    destruct Hwhen as [g Hwhen].
    unfold bind at 1. rewrite Hwhen.
    unfold Model_save. change (RR.id self1) with (RR.id self). rewrite Hid.
    change (RR.status self1) with (RR.status self).
    destruct (String.eqb (RR.status self) PENDING_REVIEW) eqn:Hstatus;
      run_monad; (eexists; split; [reflexivity|]); simpl;
      repeat (split; [reflexivity|]); reflexivity. }
  destruct Hfirst as (st' & Hrun & Hrows & Hdrafts & Hcds & Hrel & Hsig & Hvisits).
  destruct (Hagain st') as (st'' & Hrun2 & Hgroups).
  exists self1, st'. split; [exact Hrun|].
  split; [by rewrite Hrows, lookup_insert_eq|].
  split; [reflexivity|]. split; [reflexivity|].
  split; [by repeat split|].
  split; [intros k Hk; by rewrite Hrows, lookup_insert_ne|].
  split; [exact Hdrafts|]. split; [exact Hcds|]. split; [exact Hrel|].
  split; [exact Hsig|]. split; [exact Hvisits|].
  exists self1, st''. split; [exact Hrun2|].
  split; [reflexivity|]. split; [reflexivity|exact Hgroups].
Qed.

End Save.

(** A pending request is saved with a summary of 311 characters: the
    stored summary ends at the first sentence, and a second save writes
    it again. *)
Lemma save_normalizes_once_witness :
  ∃ self' st',
    ReviewRequest_save (Reference.request Reference.long_summary) true
      (Reference.store_with (Reference.request "")) = (inr self', st')
    ∧ review_requests st' !! 2%nat = Some self'
    ∧ RR.summary self' = "A fix."
    ∧ ∃ self'' st'',
        ReviewRequest_save self' false st' = (inr self'', st'')
        ∧ RR.summary self'' = "A fix.".
Proof.
  destruct (save_normalizes_once (Reference.request Reference.long_summary)
              true (Reference.store_with (Reference.request "")) 2%nat)
    as (self' & st' & Hrun & Hstored & _ & Hsummary & _ & _ & _ & _ & _ & _ & _
        & self'' & st'' & Hagain & _ & Hsame & _).
  - reflexivity.
  - by eexists.
  - assert (Hcut : RR.summary self' = "A fix.")
      by (rewrite Hsummary; vm_compute; reflexivity).
    exists self', st'. split; [exact Hrun|]. split; [exact Hstored|].
    split; [exact Hcut|].
    exists self'', st''. split; [exact Hagain|]. by rewrite Hsame.
Defined.

(** ** Deleting a review request *)

Section Delete.

(** X9: deleting a stored review request returns; the row, its
    relations, its visits, its history links and its draft are gone,
    the change descriptions themselves stay and no signal is sent;
    looking the request up afterwards raises [DoesNotExist]; every other
    row is as before; and when the request was public the counter of
    each of its target groups goes down by one, whatever its status. *)
Theorem delete_removes_request (self : RR.t) (st : Store) (pk : nat) :
  RR.id self = Some pk →
  ∃ st',
    ReviewRequest_delete self st = (inr (), st')
    ∧ review_requests st' = delete pk (review_requests st)
    ∧ drafts st' = delete pk (drafts st)
    ∧ rr_relations st' !! pk = None
    ∧ draft_relations st' !! pk = None
    ∧ rr_visits st' !! pk = None
    ∧ rr_changedescs st' !! pk = None
    ∧ changedescs st' = changedescs st
    ∧ signals st' = signals st
    ∧ ReviewRequest_objects_get pk st' = (inl DoesNotExist, st')
    ∧ ∀ g, counter_of st' g
           = (λ n, if RR.public self
                      && bool_decide (g ∈ target_groups (relations_of st self))
                   then n - 1 else n) <$> counter_of st g.
Proof.
  intros Hid.
  unfold ReviewRequest_delete, ReviewRequest_objects_get, counter_add.
  run_monad. rewrite Hid.
  destruct (RR.public self); simpl;
    (eexists; split; [reflexivity|]); simpl;
    rewrite ?lookup_delete_eq; repeat (split; [reflexivity|]);
    intros g; unfold counter_of; simpl; rewrite ?map_lookup_imap;
    destruct (groups st !! g) as [grp|]; try done; simpl.
  destruct (decide (g ∈ target_groups (relations_of st self))).
  - by rewrite bool_decide_eq_true_2.
  - by rewrite bool_decide_eq_false_2.
Qed.

End Delete.

Lemma delete_removes_request_witness :
  ∃ st',
    ReviewRequest_delete Reference.public_request Samples.targeted_store
    = (inr (), st')
    ∧ review_requests st' = ∅
    ∧ ReviewRequest_objects_get 2 st' = (inl DoesNotExist, st')
    ∧ counter_of st' 7 = Some 0.
Proof.
  destruct (delete_removes_request Reference.public_request
              Samples.targeted_store 2%nat eq_refl)
    as (st' & Hrun & Hrows & _ & _ & _ & _ & _ & _ & _ & Hget & Hcount).
  exists st'. split; [exact Hrun|]. split; [|split; [exact Hget|]].
  - rewrite Hrows. vm_compute. reflexivity.
  - rewrite Hcount. vm_compute. reflexivity.
Defined.

(** ** Creating a draft *)

Section CreateDraft.

(** X10: [ReviewRequestDraft.create] on a stored request without draft
    stores a draft under the key of the request that copies its
    description, testing notes and branch, its summary cut and its bug
    string stripped, and all six relations; the draft has no diff, and
    a change description exactly when the request is public; the row of
    the request is not touched; and a second call returns the same
    draft and changes nothing. *)
Theorem create_draft_once (review_request : RR.t) (st : Store) (pk : nat) :
  RR.id review_request = Some pk →
  drafts st !! pk = None →
  ∃ draft st',
    ReviewRequestDraft_create review_request st = (inr draft, st')
    ∧ drafts st' !! pk = Some draft
    ∧ Draft.review_request draft = pk
    ∧ Draft.summary draft = truncate (RR.summary review_request) MAX_SUMMARY_LENGTH
    ∧ Draft.bugs_closed draft = Py.strip (RR.bugs_closed review_request)
    ∧ Draft.description draft = RR.description review_request
    ∧ Draft.testing_done draft = RR.testing_done review_request
    ∧ Draft.branch draft = RR.branch review_request
    ∧ Draft.diffset draft = None
    ∧ Draft.changedesc draft
      = (if RR.public review_request then Some (next_pk st) else None)
    ∧ draft_relations st' !! pk = Some (relations_of st review_request)
    ∧ review_requests st' = review_requests st
    ∧ rr_relations st' = rr_relations st
    ∧ signals st' = signals st
    ∧ ReviewRequestDraft_create review_request st' = (inr draft, st').
Proof.
  intros Hid Hnone.
  unfold ReviewRequestDraft_create, ReviewRequestDraft_save,
    ChangeDescription_new, ChangeDescription_save.
  rewrite Hid. run_monad. rewrite Hnone. simpl.
  destruct (RR.public review_request) eqn:Hpub; simpl;
    (eexists; eexists; split; [reflexivity|]); simpl;
    rewrite ?lookup_insert_eq;
    rewrite ?strip_idempotent;
    rewrite ?truncate_idempotent by (unfold MAX_SUMMARY_LENGTH; lia);
    repeat (split; [reflexivity|]); reflexivity.
Qed.

(** X11: when the request already has a draft, [create] returns it and
    leaves every draft row and every draft relation as stored; for a
    public request whose draft has no change description it saves a new
    change description and hands it out on the returned draft, but the
    stored draft is not saved and still has none. *)
Theorem create_draft_returns_existing (review_request : RR.t) (st : Store)
    (pk : nat) (stored : Draft.t) :
  RR.id review_request = Some pk →
  drafts st !! pk = Some stored →
  ∃ draft st',
    ReviewRequestDraft_create review_request st = (inr draft, st')
    ∧ drafts st' = drafts st
    ∧ draft_relations st' = draft_relations st
    ∧ review_requests st' = review_requests st
    ∧ (Draft.changedesc stored ≠ None ∨ RR.public review_request = false →
       draft = stored ∧ st' = st)
    ∧ (Draft.changedesc stored = None → RR.public review_request = true →
       draft = Draft.with_changedesc (Some (next_pk st)) stored
       ∧ changedescs st'
         = <[next_pk st := {| cd_id := Some (next_pk st); cd_public := false;
                              cd_text := ""; cd_timestamp := clock st;
                              fields_changed := ∅ |}]> (changedescs st)).
Proof.
  intros Hid Hstored.
  unfold ReviewRequestDraft_create, ChangeDescription_new,
    ChangeDescription_save.
  rewrite Hid. run_monad. rewrite Hstored. simpl.
  destruct (Draft.changedesc stored) as [k|] eqn:Hcd; simpl.
  - eexists; eexists; split; [reflexivity|]. repeat (split; [reflexivity|]).
    split; [done|]. intros [=].
  - destruct (RR.public review_request) eqn:Hpub; simpl;
      (eexists; eexists; split; [reflexivity|]); simpl;
      repeat (split; [reflexivity|]).
    + split; [intros [?|?]; done|]. done.
    + split; [done|]. intros _ [=].
Qed.

End CreateDraft.

Lemma create_draft_once_witness :
  ∃ draft st',
    ReviewRequestDraft_create Reference.public_request
      (Reference.store_with Reference.public_request) = (inr draft, st')
    ∧ drafts st' !! 2%nat = Some draft
    ∧ Draft.changedesc draft = Some 3%nat
    ∧ ReviewRequestDraft_create Reference.public_request st' = (inr draft, st').
Proof.
  destruct (create_draft_once Reference.public_request
              (Reference.store_with Reference.public_request) 2%nat)
    as (draft & st' & Hrun & Hstored & _ & _ & _ & _ & _ & _ & _ & Hcd
        & _ & _ & _ & _ & Hagain).
  - reflexivity.
  - reflexivity.
  - exists draft, st'. split; [exact Hrun|]. split; [exact Hstored|].
    split; [exact Hcd|exact Hagain].
Defined.

(** The public request has a stored draft without change description:
    [create] hands out the draft with change description 3, the stored
    draft has none. *)
Lemma create_draft_returns_existing_witness :
  ∃ draft st',
    ReviewRequestDraft_create Reference.public_request
      Samples.store_with_plain_draft = (inr draft, st')
    ∧ drafts st' = drafts Samples.store_with_plain_draft
    ∧ draft = Draft.with_changedesc (Some 3%nat) Samples.plain_draft.
Proof.
  destruct (create_draft_returns_existing Reference.public_request
              Samples.store_with_plain_draft 2%nat Samples.plain_draft)
    as (draft & st' & Hrun & Hdrafts & _ & _ & _ & Hnew).
  - reflexivity.
  - reflexivity.
  - exists draft, st'. split; [exact Hrun|]. split; [exact Hdrafts|].
    by destruct (Hnew eq_refl eq_refl).
Defined.

(** ** Rejected status changes *)

Section Rejected.
Context `{Auth}.

(** X12: a user who holds neither the edit permission nor the
    permission to change the status cannot close or reopen a request,
    the submitter included: [PermissionError] is raised and the store is
    as before; the check comes before the check of the close type; and a
    permitted call of [close] with a type other than submitted or
    discarded raises [AttributeError] and changes nothing either. *)
Theorem status_change_rejected (self : RR.t) (type : string)
    (description : option string) (st : Store) :
  (∀ user,
     has_perm user "reviews.can_edit_reviewrequest" = false →
     has_perm user "reviews.can_change_status" = false →
     ReviewRequest_close self type (Some user) description st
     = (inl PermissionError, st)
     ∧ ReviewRequest_reopen self (Some user) st = (inl PermissionError, st))
  ∧ (∀ user,
       status_change_denied self user = false →
       type ≠ SUBMITTED → type ≠ DISCARDED →
       ReviewRequest_close self type user description st
       = (inl (AttributeError (type ++ " is not a valid close type")), st)).
Proof.
  split.
  - intros user Hedit Hstatus.
    unfold ReviewRequest_close, ReviewRequest_reopen, status_change_denied,
      ReviewRequest_is_mutable_by.
    by rewrite Hedit, Hstatus.
  - intros user Hperm Hs Hd. unfold ReviewRequest_close. rewrite Hperm.
    apply String.eqb_neq in Hs, Hd. by rewrite Hs, Hd.
Qed.

End Rejected.

(** Alice holds no permission: she cannot close her own request; and
    nobody can close a request as pending. *)
Lemma status_change_rejected_witness :
  ReviewRequest_close (H := Reference.restrictive) (Reference.request "")
    SUBMITTED (Some Reference.alice) None
    (Reference.store_with (Reference.request ""))
  = (inl PermissionError, Reference.store_with (Reference.request ""))
  ∧ ReviewRequest_close (H := Reference.permissive) (Reference.request "")
      PENDING_REVIEW None None (Reference.store_with (Reference.request ""))
    = (inl (AttributeError "P is not a valid close type"),
       Reference.store_with (Reference.request "")).
Proof.
  split.
  - apply (@status_change_rejected Reference.restrictive (Reference.request "")
             SUBMITTED None (Reference.store_with (Reference.request "")));
      reflexivity.
  - apply (@status_change_rejected Reference.permissive (Reference.request "")
             PENDING_REVIEW None (Reference.store_with (Reference.request "")));
      [reflexivity|discriminate|discriminate].
Defined.

(** ** Default reviewers *)

Section DefaultReviewersAdded.
Context `{Builtins} `{Managers}.

Lemma existsb_matches (regex : regex) (files : list FileDiff) :
  existsb (λ filediff, re_match regex (filediff_path filediff)) files = true
  ↔ ∃ filediff, filediff ∈ files
                ∧ re_match regex (filediff_path filediff) = true.
Proof.
  rewrite existsb_exists. split; intros (f & Hf & Hm); exists f;
    (split; [by apply list_elem_of_In|done]).
Qed.

(** What the draft's matcher collects: what it started with, and the
    people and groups of every rule that compiles and matches. *)
Lemma match_defaults_draft_spec (defaults : list DefaultReviewer)
    (files : list FileDiff) (people groups : gset nat) :
  (∀ p, p ∈ (match_defaults_draft defaults files people groups).1
        ↔ p ∈ people ∨ matched_by defaults files dr_people p)
  ∧ (∀ g, g ∈ (match_defaults_draft defaults files people groups).2
          ↔ g ∈ groups ∨ matched_by defaults files dr_groups g).
Proof.
  revert people groups.
  induction defaults as [|d rest IH]; intros people groups; simpl.
  { split; intros x; (split; [by left|]);
      intros [Hx|(d & r & f & Hd & _)]; [done| |done|];
      by apply elem_of_nil in Hd. }
  assert (Hskip : ∀ members x,
            (∀ regex, re_compile (file_regex d) = Some regex →
                      existsb (λ filediff, re_match regex (filediff_path filediff))
                        files = false) →
            matched_by (d :: rest) files members x
            ↔ matched_by rest files members x).
  { intros members x Hno. split.
    - intros (d' & r & f & Hd' & Hr & Hf & Hm & Hx).
      apply elem_of_cons in Hd' as [->|Hd']; [|by exists d', r, f].
      specialize (Hno r Hr).
      assert (existsb (λ filediff, re_match r (filediff_path filediff)) files
              = true) by (apply existsb_matches; eauto).
      congruence.
    - intros (d' & r & f & Hd' & Hrest). exists d', r, f.
      split; [by right|done]. }
  assert (Htake : ∀ members x regex,
            re_compile (file_regex d) = Some regex →
            existsb (λ filediff, re_match regex (filediff_path filediff)) files
            = true →
            matched_by (d :: rest) files members x
            ↔ x ∈ members d ∨ matched_by rest files members x).
  { intros members x regex Hr Hm. split.
    - intros (d' & r & f & Hd' & Hr' & Hf & Hm' & Hx).
      apply elem_of_cons in Hd' as [->|Hd']; [by left|].
      right. by exists d', r, f.
    - intros [Hx|(d' & r & f & Hd' & Hrest)].
      + apply existsb_matches in Hm as (f & Hf & Hm).
        exists d, regex, f. split; [by left|done].
      + exists d', r, f. split; [by right|done]. }
  destruct (re_compile (file_regex d)) as [regex|] eqn:Hr.
  - destruct (existsb _ files) eqn:Hm.
    + destruct (IH (people ∪ dr_people d) (groups ∪ dr_groups d)) as [IHp IHg].
      split; intros x; [rewrite IHp|rewrite IHg];
        rewrite (Htake _ x regex eq_refl Hm), elem_of_union; tauto.
    + destruct (IH people groups) as [IHp IHg].
      split; intros x; [rewrite IHp|rewrite IHg];
        rewrite Hskip; try tauto; intros r [= <-]; done.
  - destruct (IH people groups) as [IHp IHg].
    split; intros x; [rewrite IHp|rewrite IHg];
      rewrite Hskip; try tauto; intros r [=].
Qed.

(** X13: [ReviewRequestDraft.add_default_reviewers] does nothing for a
    draft without diff; for a draft with a diff it returns and changes
    the draft's relations only: a person or group is a target afterwards
    exactly when it was one before or is named by a rule of the
    repository whose pattern compiles and matches the path of a file of
    the diff; no target is removed and the screenshots and file
    attachments stay. *)
Theorem draft_default_reviewers_added (self : Draft.t) (st : Store) :
  (Draft.diffset self = None →
   ReviewRequestDraft_add_default_reviewers self st = (inr (), st))
  ∧ (∀ k diffset row,
       Draft.diffset self = Some k →
       diffsets st !! k = Some diffset →
       review_requests st !! Draft.review_request self = Some row →
       let rules := DefaultReviewer_objects_for_repository st (RR.repository row) in
       let before :=
         default no_relations (draft_relations st !! Draft.review_request self) in
       ∃ after,
         ReviewRequestDraft_add_default_reviewers self st
         = (inr (), upd_draft_relations <[Draft.review_request self := after]> st)
         ∧ (∀ p, p ∈ target_people after
                 ↔ p ∈ target_people before
                   ∨ matched_by rules (files diffset) dr_people p)
         ∧ (∀ g, g ∈ target_groups after
                 ↔ g ∈ target_groups before
                   ∨ matched_by rules (files diffset) dr_groups g)
         ∧ screenshots after = screenshots before
         ∧ inactive_screenshots after = inactive_screenshots before
         ∧ file_attachments after = file_attachments before
         ∧ inactive_file_attachments after = inactive_file_attachments before).
Proof.
  split.
  - intros Hnone. unfold ReviewRequestDraft_add_default_reviewers.
    by rewrite Hnone.
  - intros k diffset row Hk Hds Hrow rules before.
    unfold ReviewRequestDraft_add_default_reviewers.
    run_monad. rewrite Hk. simpl. rewrite Hds, Hrow. simpl.
    fold rules.
    destruct (match_defaults_draft_spec rules (files diffset) ∅ ∅) as [Hp Hg].
    destruct (match_defaults_draft rules (files diffset) ∅ ∅)
      as [people groups] eqn:Hmatch.
    simpl in Hp, Hg.
    exists (add_targets people groups before).
    split; [reflexivity|]. simpl.
    split; [|split; [|done]].
    + intros p. rewrite elem_of_union, Hp, elem_of_empty. tauto.
    + intros g. rewrite elem_of_union, Hg, elem_of_empty. tauto.
Qed.

(** X14: [ReviewRequest.add_default_reviewers] does nothing unless the
    diff history of the request holds exactly one diff; with one diff
    and rules whose patterns all compile it returns and changes the
    relations of the request only, the targets afterwards being the
    targets before and the people and groups of the rules that match
    the path of a file of the diff. *)
Theorem request_default_reviewers_added (self : RR.t) (st : Store) (pk : nat) :
  RR.id self = Some pk →
  let history :=
    filter (λ kd, ds_history kd.2 = Some (RR.diffset_history self))
           (map_to_list (diffsets st)) in
  let rules := DefaultReviewer_objects_for_repository st (RR.repository self) in
  (length history ≠ 1%nat →
   ReviewRequest_add_default_reviewers self st = (inr (), st))
  ∧ (∀ k diffset,
       history = [(k, diffset)] →
       forallb compiles rules = true →
       ∃ after,
         ReviewRequest_add_default_reviewers self st
         = (inr (), upd_rr_relations <[pk := after]> st)
         ∧ (∀ p, p ∈ target_people after
                 ↔ p ∈ target_people (relations_of st self)
                   ∨ matched_by rules (files diffset) dr_people p)
         ∧ (∀ g, g ∈ target_groups after
                 ↔ g ∈ target_groups (relations_of st self)
                   ∨ matched_by rules (files diffset) dr_groups g)
         ∧ screenshots after = screenshots (relations_of st self)
         ∧ file_attachments after = file_attachments (relations_of st self)).
Proof.
  intros Hid history rules.
  unfold ReviewRequest_add_default_reviewers. run_monad. fold history.
  split.
  - intros Hlen. destruct history as [|[k ds] [|? ?]]; simpl in *; done.
  - intros k diffset -> Hall. fold rules.
    rewrite matchers_agree_on_compiling_rules by done.
    destruct (match_defaults_draft_spec rules (files diffset) ∅ ∅) as [Hp Hg].
    destruct (match_defaults_draft rules (files diffset) ∅ ∅)
      as [people groups] eqn:Hmatch.
    simpl in Hp, Hg. rewrite Hid.
    exists (add_targets people groups (relations_of st self)).
    split; [reflexivity|]. simpl.
    split; [|split; [|done]].
    + intros p. rewrite elem_of_union, Hp, elem_of_empty. tauto.
    + intros g. rewrite elem_of_union, Hg, elem_of_empty. tauto.
Qed.

End DefaultReviewersAdded.

Lemma app_rule_matches :
  matched_by (H := Reference.builtins) [Samples.app_rule]
    (files Reference.one_diff) dr_groups 7%nat.
Proof.
  exists Samples.app_rule, "app/",
    {| source_file := "app/main.py"; dest_file := "app/main.py" |}.
  split; [by left|]. split; [reflexivity|]. split; [by left|].
  split; [reflexivity|]. apply (bool_decide_unpack _). vm_compute. exact I.
Qed.

Lemma draft_default_reviewers_added_witness :
  ∃ after,
    ReviewRequestDraft_add_default_reviewers
      (H := Reference.builtins) (H0 := Samples.one_rule)
      Reference.draft_with_diff Reference.store_with_diff
    = (inr (), upd_draft_relations <[2%nat := after]> Reference.store_with_diff)
    ∧ 7%nat ∈ target_groups after.
Proof.
  destruct (@draft_default_reviewers_added Reference.builtins Samples.one_rule
              Reference.draft_with_diff Reference.store_with_diff)
    as [_ Hadd].
  destruct (Hadd 5%nat Reference.one_diff (Reference.request "")
              eq_refl eq_refl eq_refl)
    as (after & Hrun & _ & Hgroups & _).
  exists after. split; [exact Hrun|].
  apply Hgroups. right. exact app_rule_matches.
Defined.

Lemma request_default_reviewers_added_witness :
  ∃ after,
    ReviewRequest_add_default_reviewers
      (H := Reference.builtins) (H0 := Samples.one_rule)
      (Reference.request "") Reference.store_with_diff
    = (inr (), upd_rr_relations <[2%nat := after]> Reference.store_with_diff)
    ∧ 7%nat ∈ target_groups after.
Proof.
  destruct (@request_default_reviewers_added Reference.builtins
              Samples.one_rule (Reference.request "")
              Reference.store_with_diff 2%nat eq_refl)
    as [_ Hadd].
  destruct (Hadd 5%nat Reference.one_diff eq_refl eq_refl)
    as (after & Hrun & _ & Hgroups & _).
  exists after. split; [exact Hrun|].
  apply Hgroups. right. exact app_rule_matches.
Defined.

(** ** Methods that return *)

Section Returns.
Context {A B : Type}.

Lemma returns_ret (a : A) (st : Store) (Q : A → Store → Prop) :
  Q a st → returns (ret a) st Q.
Proof. intros HQ. by exists a, st. Qed.

Lemma returns_bind (m : M A) (k : A → M B) (st : Store)
    (Q : B → Store → Prop) :
  returns m st (λ a st1, returns (k a) st1 Q) → returns (bind m k) st Q.
Proof.
  intros (a & st1 & Hm & b & st2 & Hk & HQ). exists b, st2.
  unfold bind. by rewrite Hm.
Qed.

Lemma returns_mono (m : M A) (st : Store) (Q Q' : A → Store → Prop) :
  returns m st Q → (∀ a st', Q a st' → Q' a st') → returns m st Q'.
Proof. intros (a & st' & Hm & HQ) Himp. exists a, st'. auto. Qed.

Lemma returns_get_store (k : Store → M B) (st : Store)
    (Q : B → Store → Prop) :
  returns (k st) st Q → returns (bind get_store k) st Q.
Proof. done. Qed.

Lemma returns_modify (f : Store → Store) (k : M B) (st : Store)
    (Q : B → Store → Prop) :
  returns k (f st) Q → returns (bind (modify f) (λ _, k)) st Q.
Proof. done. Qed.

End Returns.

(** ** Copying a draft onto its request *)

Section Copy.

Lemma symmetric_difference_empty (a b : gset nat) :
  symmetric_difference a b = ∅ → a = b.
Proof.
  unfold symmetric_difference. intros Hempty. apply set_eq. intros x.
  assert (Hx : x ∉ (a ∖ b) ∪ (b ∖ a)) by (rewrite Hempty; apply not_elem_of_empty).
  rewrite elem_of_union, !elem_of_difference in Hx.
  destruct (decide (x ∈ a)), (decide (x ∈ b)); tauto.
Qed.

Lemma same_rows_trans (st1 st2 st3 : Store) :
  same_rows st1 st2 → same_rows st2 st3 → same_rows st1 st3.
Proof.
  intros (?&?&?&?&?) (?&?&?&?&?). repeat split; congruence.
Qed.

(** [update_list] returns; afterwards the request has the relation of
    the draft. *)
Lemma update_list_returns (get_rel : Relations → gset nat)
    (set_rel : gset nat → Relations → Relations)
    (name : string) (record_changes : bool) (name_field : string)
    (pk draft_pk : nat) (cd : option ChangeDescription) (st : Store) :
  (∀ r, set_rel (get_rel r) r = r) →
  returns (update_list get_rel set_rel name record_changes name_field
             pk draft_pk cd) st
    (λ _ st', fields_step pk
                (set_rel (get_rel (draft_relations_at st draft_pk))) st st').
Proof.
  intros Hlens. unfold update_list, returns. run_monad.
  destruct (bool_decide _) eqn:Hdiff.
  - eexists _, _. split; [reflexivity|].
    split; [by repeat split|]. split; [by repeat split|].
    split.
    + unfold relations_at. simpl. by rewrite lookup_insert_eq.
    + intros k Hk. simpl. by rewrite lookup_insert_ne.
  - eexists _, _. split; [reflexivity|].
    apply bool_decide_eq_false in Hdiff.
    assert (Hsame : get_rel (default no_relations (rr_relations st !! pk))
                    = get_rel (default no_relations (draft_relations st !! draft_pk))).
    { apply symmetric_difference_empty.
      destruct (decide (symmetric_difference
                  (get_rel (default no_relations (rr_relations st !! pk)))
                  (get_rel (default no_relations (draft_relations st !! draft_pk)))
                = ∅)); [done|by exfalso; apply Hdiff]. }
    split; [apply same_ledger_refl|]. split; [by repeat split|].
    split; [|done].
    unfold relations_at, draft_relations_at. rewrite <- Hsame. by rewrite Hlens.
Qed.

Lemma fields_step_trans (pk : nat) (F G : Relations → Relations)
    (st0 st1 st2 : Store) :
  fields_step pk F st0 st1 → fields_step pk G st1 st2 →
  fields_step pk (λ r, G (F r)) st0 st2.
Proof.
  intros (L1 & R1 & H1 & O1) (L2 & R2 & H2 & O2).
  split; [by eapply same_ledger_trans|].
  split; [by eapply same_rows_trans|].
  split; [by rewrite H2, H1|].
  intros k Hk. rewrite O2, O1; done.
Qed.

Lemma fields_step_ext (pk : nat) (F F' : Relations → Relations)
    (st st' : Store) :
  fields_step pk F st st' →
  F (relations_at st pk) = F' (relations_at st pk) →
  fields_step pk F' st st'.
Proof.
  intros (L & R & H & O) Heq. repeat split; try apply L; try apply R; try done.
  by rewrite H.
Qed.

Lemma fields_step_screenshot_rows (pk : nat)
    (f : gmap nat Captioned → gmap nat Captioned) (st : Store) :
  fields_step pk (λ r, r) st (upd_screenshot_rows f st).
Proof. split; [by repeat split|]. by repeat split. Qed.

Lemma fields_step_file_attachment_rows (pk : nat)
    (f : gmap nat Captioned → gmap nat Captioned) (st : Store) :
  fields_step pk (λ r, r) st (upd_file_attachment_rows f st).
Proof. split; [by repeat split|]. by repeat split. Qed.

Lemma fields_step_set (pk : nat) (F : Relations → Relations) (st : Store) :
  fields_step pk F st
    (upd_rr_relations
       (λ tbl, <[pk := F (default no_relations (tbl !! pk))]> tbl) st).
Proof.
  split; [by repeat split|]. split; [by repeat split|]. split.
  - unfold relations_at. simpl. by rewrite lookup_insert_eq.
  - intros k Hk. simpl. by rewrite lookup_insert_ne.
Qed.

Section WithBuiltins.
Context `{Builtins}.

(** The four texts after the four calls of [update_field]. *)
Lemma update_fields_take (self : Draft.t) (rr : RR.t)
    (cd : option ChangeDescription) :
  let s :=
    update_field RR.branch RR.with_branch (Draft.branch self) "branch" true
      (update_field RR.testing_done RR.with_testing_done
         (Draft.testing_done self) "testing_done" true
         (update_field RR.description RR.with_description
            (Draft.description self) "description" true
            (update_field RR.summary RR.with_summary
               (Draft.summary self) "summary" true (rr, cd)))) in
  RR.summary s.1 = Draft.summary self
  ∧ RR.description s.1 = Draft.description self
  ∧ RR.testing_done s.1 = Draft.testing_done self
  ∧ RR.branch s.1 = Draft.branch self
  ∧ RR.bugs_closed s.1 = RR.bugs_closed rr
  ∧ RR.id s.1 = RR.id rr
  ∧ RR.submitter s.1 = RR.submitter rr
  ∧ RR.status s.1 = RR.status rr
  ∧ RR.public s.1 = RR.public rr
  ∧ RR.repository s.1 = RR.repository rr
  ∧ RR.diffset_history s.1 = RR.diffset_history rr
  ∧ RR.local_site s.1 = RR.local_site rr.
Proof.
  cbv zeta. unfold update_field. cbn [fst snd].
  destruct (String.eqb_spec (RR.summary rr) (Draft.summary self));
    cbn [negb fst snd RR.description RR.with_summary];
    destruct (String.eqb_spec (RR.description rr) (Draft.description self));
    cbn [negb fst snd RR.testing_done RR.with_summary RR.with_description];
    destruct (String.eqb_spec (RR.testing_done rr) (Draft.testing_done self));
    cbn [negb fst snd RR.branch RR.with_summary RR.with_description
           RR.with_testing_done];
    destruct (String.eqb_spec (RR.branch rr) (Draft.branch self)); simpl;
    repeat split; done.
Qed.

(** The columns after the call of [update_field] for the bug string. *)
Lemma update_bugs_take (value : string)
    (s : RR.t * option ChangeDescription) :
  let r := (update_field RR.bugs_closed RR.with_bugs_closed value
              "bugs_closed" false s).1 in
  RR.bugs_closed r = value
  ∧ RR.summary r = RR.summary s.1
  ∧ RR.description r = RR.description s.1
  ∧ RR.testing_done r = RR.testing_done s.1
  ∧ RR.branch r = RR.branch s.1
  ∧ RR.id r = RR.id s.1
  ∧ RR.submitter r = RR.submitter s.1
  ∧ RR.status r = RR.status s.1
  ∧ RR.public r = RR.public s.1
  ∧ RR.repository r = RR.repository s.1
  ∧ RR.diffset_history r = RR.diffset_history s.1
  ∧ RR.local_site r = RR.local_site s.1.
Proof.
  cbv zeta. unfold update_field.
  destruct (String.eqb_spec (RR.bugs_closed s.1) value); simpl;
    repeat split; done.
Qed.

(** [publish_fields] returns: the request has taken the texts of the
    draft and, in the store, the six relations of the draft. *)
Lemma publish_fields_copies (self : Draft.t) (pk : nat) (rr : RR.t)
    (cd : option ChangeDescription) (st : Store) :
  returns (publish_fields self pk (rr, cd)) st
    (λ r st',
       takes_fields self rr r.1
       ∧ fields_step pk
           (λ _, draft_relations_at st (Draft.review_request self)) st st').
Proof.
  pose proof (update_fields_take self rr cd) as Htake. cbv zeta in Htake.
  unfold publish_fields. cbv zeta.
  set (s4 := update_field RR.branch _ _ _ _ _) in *.
  set (dpk := Draft.review_request self).
  apply returns_bind.
  eapply returns_mono; [apply update_list_returns; by intros []|].
  intros cd1 st1 S1. cbv beta.
  apply returns_bind.
  eapply returns_mono; [apply update_list_returns; by intros []|].
  intros cd2 st2 S2. cbv beta.
  pose proof (fields_step_trans _ _ _ _ _ _ S1 S2) as S12.
  apply returns_get_store. apply returns_modify.
  pose proof (fields_step_trans _ _ _ _ _ _ S12
                (fields_step_screenshot_rows pk
                   (λ _, (publish_captions
                            (screenshots (default no_relations (rr_relations st2 !! pk)))
                            (screenshots (default no_relations (draft_relations st2 !! dpk)))
                            (screenshot_rows st2)).1) st2)) as S13.
  apply returns_bind.
  eapply returns_mono; [apply update_list_returns; by intros []|].
  intros cd3 st3 S3. cbv beta.
  pose proof (fields_step_trans _ _ _ _ _ _ S13 S3) as S14.
  apply returns_modify.
  match goal with
  | |- returns _ (upd_rr_relations (λ tbl, <[pk := ?F _]> tbl) st3) _ =>
      pose proof (fields_step_trans _ _ _ _ _ _ S14 (fields_step_set pk F st3))
        as S15
  end.
  apply returns_get_store. apply returns_modify.
  match goal with
  | |- returns _ (upd_file_attachment_rows ?f ?s) _ =>
      pose proof (fields_step_trans _ _ _ _ _ _ S15
                    (fields_step_file_attachment_rows pk f s)) as S16
  end.
  apply returns_bind.
  eapply returns_mono; [apply update_list_returns; by intros []|].
  intros cd4 st4 S4. cbv beta.
  pose proof (fields_step_trans _ _ _ _ _ _ S16 S4) as S17.
  apply returns_modify.
  match goal with
  | |- returns _ (upd_rr_relations (λ tbl, <[pk := ?F _]> tbl) st4) _ =>
      pose proof (fields_step_trans _ _ _ _ _ _ S17 (fields_step_set pk F st4))
        as S18
  end.
  apply returns_ret. split.
  - destruct Htake as (Hs & Hd & Ht & Hb & Hbugs & Hi & Hsub & Hst & Hp & Hr
                        & Hh & Hl).
    unfold takes_fields. rewrite Hbugs.
    destruct (bool_decide _); cbn [fst snd].
    + destruct (update_bugs_take (Draft.bugs_closed self) (s4.1, cd2))
        as (Eb & Es & Ed & Et & Ebr & Ei & Esub & Est & Ep & Er & Eh & El).
      cbn [fst] in *.
      rewrite Eb, Es, Ed, Et, Ebr, Ei, Esub, Est, Ep, Er, Eh, El.
      by repeat split.
    + by repeat split.
  - eapply fields_step_ext; [exact S18|].
    assert (E1 : draft_relations st1 = draft_relations st) by apply S1.
    assert (E2 : draft_relations st2 = draft_relations st) by apply S12.
    assert (E3 : draft_relations st3 = draft_relations st) by apply S14.
    unfold draft_relations_at. simpl. rewrite ?E1, ?E2, ?E3.
    by destruct (default no_relations (draft_relations st !! dpk)).
Qed.

End WithBuiltins.

End Copy.

(** ** Publishing a draft: what is copied *)

Section DraftPublishCopies.
Context `{Builtins}.

(** The start of [publish]: the change description of the draft, or a
    new one for a public request. *)
Lemma initial_changedesc_returns (self : Draft.t) (rr : RR.t) (st : Store) :
  returns
    (match Draft.changedesc self ≫= (λ k, changedescs st !! k) with
     | Some cd => ret (Some cd)
     | None =>
         if RR.public rr
         then cd <- ChangeDescription_new false "" ;; ret (Some cd)
         else ret None
     end) st
    (λ _ st', same_requests st st' ∧ diffsets st' = diffsets st).
Proof.
  unfold returns, ChangeDescription_new.
  destruct (Draft.changedesc self ≫= _);
    [|destruct (RR.public rr)]; run_monad;
    eexists _, _; (split; [reflexivity|]); by repeat split.
Qed.

Lemma publish_diff_returns (self : Draft.t) (rr : RR.t)
    (cd : option ChangeDescription) (st : Store) :
  (∀ k, Draft.diffset self = Some k → is_Some (diffsets st !! k)) →
  returns (publish_diff self rr cd) st
    (λ _ st',
       same_requests st st'
       ∧ diffsets st'
         = match Draft.diffset self with
           | Some k =>
               alter (moved_to (RR.diffset_history rr)) k (diffsets st)
           | None => diffsets st
           end).
Proof.
  intros Hds. unfold returns, publish_diff. run_monad.
  destruct (Draft.diffset self) as [k|].
  - destruct (Hds k eq_refl) as [ds Hk]. rewrite Hk. simpl.
    eexists _, _. split; [reflexivity|]. split; [by repeat split|]. simpl.
    apply map_eq. intros j. destruct (decide (j = k)) as [->|Hj].
    + by rewrite lookup_insert_eq, lookup_alter_eq, Hk.
    + by rewrite lookup_insert_ne, lookup_alter_ne.
  - eexists _, _. split; [reflexivity|]. by repeat split.
Qed.

Lemma publish_changedesc_returns (rr : RR.t) (pk : nat)
    (cd : option ChangeDescription) (st : Store) :
  RR.id rr = Some pk →
  returns (publish_changedesc rr cd) st
    (λ _ st', same_requests st st' ∧ diffsets st' = diffsets st).
Proof.
  intros Hid. unfold returns, publish_changedesc, ChangeDescription_save,
    changedescs_add.
  destruct cd as [c|]; [|by eexists _, _; split; [|by repeat split]].
  run_monad. destruct (cd_id c) as [k|] eqn:Hk; simpl; rewrite ?Hk, Hid; simpl;
    eexists _, _; (split; [reflexivity|]); by repeat split.
Qed.

(** [save] without counting, on a request that has a key. *)
Lemma save_returns (rr : RR.t) (pk : nat) (st : Store) :
  RR.id rr = Some pk →
  returns (ReviewRequest_save rr false) st
    (λ rr' st',
       rr' = saved_columns rr
       ∧ review_requests st' = <[pk := rr']> (review_requests st)
       ∧ rr_visits st'
         = (if String.eqb (RR.status rr) PENDING_REVIEW
            then rr_visits st else delete pk (rr_visits st))
       ∧ groups st' = groups st
       ∧ drafts st' = drafts st
       ∧ draft_relations st' = draft_relations st
       ∧ rr_relations st' = rr_relations st
       ∧ signals st' = signals st
       ∧ diffsets st' = diffsets st).
Proof.
  intros Hid. unfold returns, ReviewRequest_save, Model_save. run_monad.
  rewrite Hid. simpl.
  destruct (String.eqb (RR.status rr) PENDING_REVIEW) eqn:Hstatus; simpl;
    eexists _, _; (split; [reflexivity|]); by repeat split.
Qed.

(** [ReviewRequestDraft.publish] returns, and what it leaves. *)
Lemma draft_publish_copies (self : Draft.t) (rr : RR.t) (user : option User)
    (send_notification : bool) (st : Store) (pk : nat) :
  RR.id rr = Some pk →
  (∀ k, Draft.diffset self = Some k → is_Some (diffsets st !! k)) →
  returns (ReviewRequestDraft_publish self (Some rr) user send_notification) st
    (λ r st',
       (∃ rr1, takes_fields self rr rr1 ∧ r.1 = saved_columns rr1)
       ∧ review_requests st' = <[pk := r.1]> (review_requests st)
       ∧ relations_at st' pk = draft_relations_at st (Draft.review_request self)
       ∧ (∀ k, k ≠ pk → rr_relations st' !! k = rr_relations st !! k)
       ∧ groups st' = groups st
       ∧ drafts st' = drafts st
       ∧ draft_relations st' = draft_relations st
       ∧ rr_visits st'
         = (if String.eqb (RR.status rr) PENDING_REVIEW
            then rr_visits st else delete pk (rr_visits st))
       ∧ diffsets st'
         = match Draft.diffset self with
           | Some k => alter (moved_to (RR.diffset_history rr)) k (diffsets st)
           | None => diffsets st
           end
       ∧ signals st'
         = (if send_notification
            then (signals st
                  ++ [review_request_published r.1
                        (default (RR.submitter rr) user) r.2])%list
            else signals st)).
Proof.
  intros Hid Hds. unfold ReviewRequestDraft_publish.
  apply returns_bind, returns_ret. cbv beta. rewrite Hid.
  apply returns_bind, returns_ret. cbv beta.
  apply returns_get_store.
  apply returns_bind.
  eapply returns_mono; [apply initial_changedesc_returns|].
  intros cd0 st1 [((G1 & Q1 & V1 & D1 & DR1) & RR1 & SG1) DS1].
  apply returns_bind.
  eapply returns_mono; [apply publish_fields_copies|].
  intros [rr1 cd1] st2 [Htake S2]. cbn [fst snd] in *.
  destruct S2 as ((_ & _ & _ & _ & DS2 & SG2) & (G2 & Q2 & V2 & D2 & DR2)
                  & Hrel2 & Hother2).
  pose proof Htake as (_ & _ & _ & _ & _ & Hid1 & _ & Hst1 & _ & _ & Hh1 & _).
  apply returns_bind.
  eapply returns_mono.
  { apply publish_diff_returns. intros k Hk. rewrite DS2, DS1. by apply Hds. }
  intros cd2 st3 [((G3 & Q3 & V3 & D3 & DR3) & RR3 & SG3) DS3].
  apply returns_bind.
  eapply returns_mono.
  { apply (publish_changedesc_returns _ pk). simpl. congruence. }
  intros cd3 st4 [((G4 & Q4 & V4 & D4 & DR4) & RR4 & SG4) DS4].
  apply returns_bind.
  eapply returns_mono.
  { apply (save_returns _ pk). simpl. congruence. }
  intros rr5 st5 (Hrr5 & Q5 & V5 & G5 & D5 & DR5 & RR5 & SG5 & DS5).
  assert (Hfinal :
    (∃ rr1, takes_fields self rr rr1 ∧ rr5 = saved_columns rr1)
    ∧ review_requests st5 = <[pk := rr5]> (review_requests st)
    ∧ relations_at st5 pk = draft_relations_at st (Draft.review_request self)
    ∧ (∀ k, k ≠ pk → rr_relations st5 !! k = rr_relations st !! k)
    ∧ groups st5 = groups st
    ∧ drafts st5 = drafts st
    ∧ draft_relations st5 = draft_relations st
    ∧ rr_visits st5
      = (if String.eqb (RR.status rr) PENDING_REVIEW
         then rr_visits st else delete pk (rr_visits st))
    ∧ diffsets st5
      = match Draft.diffset self with
        | Some k => alter (moved_to (RR.diffset_history rr)) k (diffsets st)
        | None => diffsets st
        end
    ∧ signals st5 = signals st).
  { split; [by exists rr1|].
    split; [by rewrite Q5, Q4, Q3, Q2, Q1|].
    split.
    { unfold relations_at in *. rewrite RR5, RR4, RR3, Hrel2.
      unfold draft_relations_at. by rewrite DR1. }
    split.
    { intros k Hk. rewrite RR5, RR4, RR3, Hother2, RR1; done. }
    split; [congruence|]. split; [congruence|]. split; [congruence|].
    split; [by rewrite V5, Hst1, V4, V3, V2, V1|].
    split; [rewrite DS5, DS4, DS3, DS2, DS1, Hh1; done|].
    congruence. }
  destruct Hfinal as (F1 & F2 & F3 & F4 & F5 & F6 & F7 & F8 & F9 & F10).
  destruct send_notification; run_monad;
    eexists _, _; (split; [reflexivity|]); simpl;
    repeat (split; [done|]); [by rewrite F10|done].
Qed.

End DraftPublishCopies.

(** ** Counting on save *)

Section Counting.

(** [save(update_counts=True)] on a request that has a row. *)
Lemma save_counting_returns (self row : RR.t) (pk : nat) (st : Store) :
  RR.id self = Some pk →
  review_requests st !! pk = Some row →
  returns (ReviewRequest_save self true) st
    (λ self' st',
       self' = saved_columns self
       ∧ review_requests st' = <[pk := self']> (review_requests st)
       ∧ rr_visits st'
         = (if String.eqb (RR.status self) PENDING_REVIEW
            then rr_visits st else delete pk (rr_visits st))
       ∧ drafts st' = drafts st
       ∧ draft_relations st' = draft_relations st
       ∧ rr_relations st' = rr_relations st
       ∧ changedescs st' = changedescs st
       ∧ signals st' = signals st
       ∧ diffsets st' = diffsets st
       ∧ ∀ g, counter_of st' g
              = (λ n, n + count_delta self row
                            (target_groups (relations_at st pk)) g)
                <$> counter_of st g).
Proof.
  intros Hid Hrow.
  assert (Hcount : ∀ (delta : Z) g,
    incoming_request_count
      <$> map_imap (λ k grp,
            Some (if decide (k ∈ target_groups (relations_at st pk))
                  then set_incoming_request_count (λ n, n + delta) grp
                  else grp)) (groups st) !! g
    = (λ n, n + (if bool_decide (g ∈ target_groups (relations_at st pk))
                 then delta else 0)) <$> counter_of st g).
  { intros delta g. unfold counter_of. rewrite map_lookup_imap.
    destruct (groups st !! g) as [grp|]; [|done]. simpl.
    destruct (decide (g ∈ target_groups (relations_at st pk))).
    - by rewrite bool_decide_eq_true_2.
    - rewrite bool_decide_eq_false_2 by done. simpl. f_equal. lia. }
  assert (Hzero : ∀ g, counter_of st g = (λ n, n + 0) <$> counter_of st g).
  { intros g. destruct (counter_of st g); simpl; [f_equal; lia|done]. }
  unfold returns, ReviewRequest_save, ReviewRequest_update_counts,
    ReviewRequest_objects_get, Model_save, counter_add, relations_of.
  run_monad. rewrite Hid. simpl. rewrite Hrow. simpl.
  unfold count_delta. fold (relations_at st pk).
  destruct (String.eqb (RR.status self) PENDING_REVIEW) eqn:Hstatus; simpl;
    [destruct (RR.public self)|destruct (RR.public row)]; simpl;
    (eexists _, _; split; [reflexivity|]); simpl;
    repeat (split; [reflexivity|]); intros g; unfold counter_of at 1; simpl.
  - apply Hcount.
  - fold (counter_of st g). destruct (bool_decide _); apply Hzero.
  - apply Hcount.
  - fold (counter_of st g). destruct (bool_decide _); apply Hzero.
Qed.

End Counting.

(** ** Publishing a review request *)

Section Publish.
Context `{Auth} `{Builtins}.

Lemma relations_at_same (st st' : Store) (pk : nat) :
  rr_relations st' = rr_relations st → relations_at st' pk = relations_at st pk.
Proof. intros Hr. unfold relations_at. by rewrite Hr. Qed.

(** [ReviewRequest.publish] returns for a user who may edit, and what
    it leaves. *)
Lemma publish_returns (self row : RR.t) (user : User) (st : Store) (pk : nat) :
  RR.id self = Some pk →
  review_requests st !! pk = Some row →
  ReviewRequest_is_mutable_by self user = true →
  (∀ d, drafts st !! pk = Some d →
        Draft.review_request d = pk
        ∧ ∀ k, Draft.diffset d = Some k → is_Some (diffsets st !! k)) →
  returns (ReviewRequest_publish self (Some user)) st
    (λ self' st',
       RR.public self' = true
       ∧ RR.status self' = RR.status self
       ∧ RR.id self' = Some pk
       ∧ review_requests st' = <[pk := self']> (review_requests st)
       ∧ drafts st' = delete pk (drafts st)
       ∧ relations_at st' pk
         = match drafts st !! pk with
           | Some _ => draft_relations_at st pk
           | None => relations_at st pk
           end
       ∧ (∀ k, k ≠ pk → rr_relations st' !! k = rr_relations st !! k)
       ∧ (∃ changes,
            signals st'
            = (signals st ++ [review_request_published self' user changes])%list)
       ∧ (RR.status self = PENDING_REVIEW →
          ∀ g, counter_of st' g
               = (λ n, n
                       + (if RR.public self
                             && bool_decide
                                  (g ∈ target_groups (relations_at st pk))
                          then -1 else 0)
                       + (if bool_decide
                               (g ∈ target_groups (relations_at st' pk))
                          then 1 else 0))
                 <$> counter_of st g)).
Proof.
  intros Hid Hrow Hperm Hdraft.
  (* the rest of the method, from the store that the first decrement leaves *)
  assert (Hrest : ∀ st_a,
    review_requests st_a = review_requests st →
    drafts st_a = drafts st →
    draft_relations st_a = draft_relations st →
    rr_relations st_a = rr_relations st →
    signals st_a = signals st →
    diffsets st_a = diffsets st →
    (∀ g, counter_of st_a g
          = (λ n, n + (if RR.public self
                          && bool_decide (g ∈ target_groups (relations_at st pk))
                       then -1 else 0)) <$> counter_of st g) →
    returns
      (st0 <- get_store ;;
       r <- match draft_of st0 self with
            | Some draft =>
                r <- ReviewRequestDraft_publish draft (Some self) None false ;;
                ReviewRequestDraft_delete draft ;;;
                ret r
            | None => ret (self, None)
            end ;;
       let changes : option ChangeDescription := r.2 in
       let self := RR.with_public true r.1 in
       self <- ReviewRequest_save self true ;;
       send (review_request_published self user changes) ;;;
       ret self) st_a
      (λ self' st',
         RR.public self' = true
         ∧ RR.status self' = RR.status self
         ∧ RR.id self' = Some pk
         ∧ review_requests st' = <[pk := self']> (review_requests st)
         ∧ drafts st' = delete pk (drafts st)
         ∧ relations_at st' pk
           = match drafts st !! pk with
             | Some _ => draft_relations_at st pk
             | None => relations_at st pk
             end
         ∧ (∀ k, k ≠ pk → rr_relations st' !! k = rr_relations st !! k)
         ∧ (∃ changes,
              signals st'
              = (signals st
                 ++ [review_request_published self' user changes])%list)
         ∧ (RR.status self = PENDING_REVIEW →
            ∀ g, counter_of st' g
                 = (λ n, n
                         + (if RR.public self
                               && bool_decide
                                    (g ∈ target_groups (relations_at st pk))
                            then -1 else 0)
                         + (if bool_decide
                                 (g ∈ target_groups (relations_at st' pk))
                            then 1 else 0))
                   <$> counter_of st g))).
  { intros st_a Qa Da DRa RRa SGa DSa Ca.
    apply returns_get_store.
    unfold draft_of. rewrite Hid. simpl. rewrite Da.
    destruct (drafts st !! pk) as [d|] eqn:Hd.
    - destruct (Hdraft d eq_refl) as [Hkey Hds].
      apply returns_bind. apply returns_bind.
      eapply returns_mono.
      { apply (draft_publish_copies d self None false st_a pk Hid).
        intros k Hk. rewrite DSa. by apply Hds. }
      intros [rr1 ch] st_b ((rr0 & Htake & Hrr1) & Qb & Rb & Ob & Gb & Db & DRb
                            & Vb & DSb & SGb).
      cbn [fst snd] in *.
      unfold ReviewRequestDraft_delete. apply returns_modify, returns_ret.
      cbv beta zeta. cbn [fst snd].
      destruct Htake as (_ & _ & _ & _ & _ & Hid0 & _ & Hst0 & Hpub0 & _).
      apply returns_bind.
      eapply returns_mono.
      { apply (save_counting_returns _ rr1 pk).
        - simpl. rewrite Hrr1. simpl. congruence.
        - simpl. rewrite Qb. by rewrite lookup_insert_eq. }
      intros self' st_c (Hself' & Qc & Vc & Dc & DRc & RRc & CDc & SGc & DSc & Cc).
      unfold send. apply returns_modify, returns_ret.
      simpl in *.
      assert (Hstatus' : RR.status self' = RR.status self).
      { rewrite Hself'. simpl. rewrite Hrr1. simpl. exact Hst0. }
      split; [by rewrite Hself'|].
      split; [exact Hstatus'|].
      split; [rewrite Hself'; simpl; rewrite Hrr1; simpl; congruence|].
      split; [rewrite Qc, Qb, Qa; by rewrite insert_insert_eq|].
      split; [rewrite Dc, Hkey, Db, Da; done|].
      assert (Hrel : relations_at
                       (upd_signals
                          (λ l, (l ++ [review_request_published self' user ch])%list)
                          st_c) pk
                     = draft_relations_at st pk).
      { unfold relations_at in *. simpl. rewrite RRc. simpl. rewrite Rb.
        unfold draft_relations_at. by rewrite Hkey, DRa. }
      split; [exact Hrel|].
      split; [intros k Hk; rewrite RRc; simpl; rewrite Ob, RRa; done|].
      split; [exists ch; by rewrite SGc, SGb, SGa|].
      intros Hpending g. rewrite Hrel.
      assert (Htargets : relations_at
                           (upd_drafts (delete (Draft.review_request d))
                              (upd_draft_relations
                                 (delete (Draft.review_request d)) st_b)) pk
                         = draft_relations_at st pk).
      { unfold relations_at in *. simpl. rewrite Rb.
        unfold draft_relations_at. by rewrite Hkey, DRa. }
      assert (Hpend1 : String.eqb (RR.status rr1) PENDING_REVIEW = true).
      { rewrite Hrr1. simpl. rewrite Hst0, Hpending. reflexivity. }
      specialize (Cc g). rewrite Htargets in Cc.
      unfold count_delta in Cc. simpl in Cc. rewrite Hpend1 in Cc.
      unfold counter_of in *. simpl in *. rewrite Cc, Gb, Ca.
      destruct (groups st !! g) as [grp|]; simpl; [|done].
      reflexivity.
    - apply returns_bind, returns_ret. cbv beta zeta. cbn [fst snd].
      apply returns_bind.
      eapply returns_mono.
      { apply (save_counting_returns _ row pk); [done|by rewrite Qa]. }
      intros self' st_c (Hself' & Qc & Vc & Dc & DRc & RRc & CDc & SGc & DSc & Cc).
      unfold send. apply returns_modify, returns_ret.
      simpl in *.
      split; [by rewrite Hself'|].
      split; [by rewrite Hself'|].
      split; [by rewrite Hself'|].
      split; [by rewrite Qc, Qa|].
      split; [rewrite Dc, Da; symmetry; by apply delete_id|].
      assert (Hrel : relations_at
                       (upd_signals
                          (λ l, (l ++ [review_request_published self' user None])%list)
                          st_c) pk
                     = relations_at st pk).
      { unfold relations_at. simpl. by rewrite RRc, RRa. }
      split; [exact Hrel|].
      split; [intros k Hk; by rewrite RRc, RRa|].
      split; [exists None; by rewrite SGc, SGa|].
      intros Hpending g. rewrite Hrel.
      assert (Htargets : relations_at st_a pk = relations_at st pk)
        by (unfold relations_at; by rewrite RRa).
      specialize (Cc g). rewrite Htargets in Cc.
      unfold count_delta in Cc. simpl in Cc. rewrite Hpending in Cc.
      unfold counter_of in *. simpl in *. rewrite Cc, Ca.
      destruct (groups st !! g) as [grp|]; simpl; [|done].
      reflexivity. }
  unfold ReviewRequest_publish. rewrite Hperm. simpl negb. cbv iota.
  apply returns_get_store.
  unfold relations_of. rewrite Hid. fold (relations_at st pk).
  destruct (RR.public self) eqn:Hpub; unfold when.
  - unfold counter_add. apply returns_modify.
    apply Hrest; try reflexivity.
    intros g. unfold counter_of. simpl. rewrite map_lookup_imap.
    destruct (groups st !! g) as [grp|]; [|done]. simpl.
    destruct (decide (g ∈ target_groups (relations_at st pk))).
    + by rewrite bool_decide_eq_true_2.
    + rewrite bool_decide_eq_false_2 by done. simpl. f_equal. lia.
  - apply returns_bind, returns_ret.
    apply Hrest; try reflexivity.
    intros g. simpl. destruct (counter_of st g); simpl; [f_equal; lia|done].
Qed.

End Publish.

Section PublishTheorems.
Context `{Auth} `{Builtins}.

(** X15: [ReviewRequestDraft.publish] on a stored request returns when
    the pending diff, if any, exists; it stores the request with the
    description, testing notes and branch of the draft, the summary of
    the draft cut, the bug string of the draft (kept as it was when the
    two bug lists are equal as sets) stripped, and status, public flag
    and submitter as before; the request has the six relations of the
    draft; the pending diff is moved under the diff history of the
    request; groups, drafts and other requests are untouched; and the
    published signal is sent exactly when notification is asked for. *)
Theorem draft_publish_takes_draft (self : Draft.t) (rr : RR.t)
    (user : option User) (send_notification : bool) (st : Store) (pk : nat) :
  RR.id rr = Some pk →
  (∀ k, Draft.diffset self = Some k → is_Some (diffsets st !! k)) →
  ∃ rr' result st',
    ReviewRequestDraft_publish self (Some rr) user send_notification st
    = (inr (rr', result), st')
    ∧ review_requests st' !! pk = Some rr'
    ∧ RR.summary rr' = truncate (Draft.summary self) MAX_SUMMARY_LENGTH
    ∧ RR.description rr' = Draft.description self
    ∧ RR.testing_done rr' = Draft.testing_done self
    ∧ RR.branch rr' = Draft.branch self
    ∧ RR.bugs_closed rr'
      = Py.strip
          (if bool_decide
                ((list_to_set (BugList.get_bug_list (RR.bugs_closed rr))
                  : gset string)
                 ≠ list_to_set (BugList.get_bug_list (Draft.bugs_closed self)))
           then Draft.bugs_closed self else RR.bugs_closed rr)
    ∧ RR.status rr' = RR.status rr
    ∧ RR.public rr' = RR.public rr
    ∧ RR.submitter rr' = RR.submitter rr
    ∧ relations_at st' pk = draft_relations_at st (Draft.review_request self)
    ∧ (∀ k, k ≠ pk →
            review_requests st' !! k = review_requests st !! k
            ∧ rr_relations st' !! k = rr_relations st !! k)
    ∧ groups st' = groups st
    ∧ drafts st' = drafts st
    ∧ draft_relations st' = draft_relations st
    ∧ diffsets st'
      = match Draft.diffset self with
        | Some k => alter (moved_to (RR.diffset_history rr)) k (diffsets st)
        | None => diffsets st
        end
    ∧ signals st'
      = (if send_notification
         then (signals st
               ++ [review_request_published rr'
                     (default (RR.submitter rr) user) result])%list
         else signals st).
Proof.
  intros Hid Hds.
  destruct (draft_publish_copies self rr user send_notification st pk Hid Hds)
    as ([rr' result] & st' & Hrun
        & (rr1 & Htake & Hrr') & Q & R & O & G & D & DR & V & DS & SG).
  cbn [fst snd] in *.
  destruct Htake as (Hs & Hd & Ht & Hb & Hbugs & Hi & Hsub & Hst & Hp & _).
  exists rr', result, st'. split; [exact Hrun|].
  split; [rewrite Q; by rewrite lookup_insert_eq|].
  rewrite Hrr'. simpl. rewrite Hs, Hd, Ht, Hb, Hbugs, Hst, Hp, Hsub.
  repeat (split; [reflexivity|]).
  split; [exact R|].
  split; [intros k Hk; split; [rewrite Q; by rewrite lookup_insert_ne|by apply O]|].
  split; [exact G|]. split; [exact D|]. split; [exact DR|].
  split; [exact DS|]. rewrite SG. by rewrite Hrr'.
Qed.

(** X16: [ReviewRequest.publish] by a user who may edit returns for a
    stored request: the request is stored public with its status as
    before, its draft is deleted, so that it cannot be published again,
    it has the relations of the draft when there was one, and exactly
    one published signal is sent; for a pending request the counter of
    each group goes down by one if the request was public and targeted
    the group and up by one if it targets the group now. *)
Theorem publish_makes_public (self row : RR.t) (user : User) (st : Store)
    (pk : nat) :
  RR.id self = Some pk →
  review_requests st !! pk = Some row →
  ReviewRequest_is_mutable_by self user = true →
  (∀ d, drafts st !! pk = Some d →
        Draft.review_request d = pk
        ∧ ∀ k, Draft.diffset d = Some k → is_Some (diffsets st !! k)) →
  ∃ self' st',
    ReviewRequest_publish self (Some user) st = (inr self', st')
    ∧ RR.public self' = true
    ∧ RR.status self' = RR.status self
    ∧ review_requests st' !! pk = Some self'
    ∧ drafts st' !! pk = None
    ∧ ReviewRequest_can_publish st' self' = false
    ∧ relations_at st' pk
      = match drafts st !! pk with
        | Some _ => draft_relations_at st pk
        | None => relations_at st pk
        end
    ∧ (∃ changes,
         signals st'
         = (signals st ++ [review_request_published self' user changes])%list)
    ∧ (RR.status self = PENDING_REVIEW →
       ∀ g, counter_of st' g
            = (λ n, n
                    + (if RR.public self
                          && bool_decide (g ∈ target_groups (relations_at st pk))
                       then -1 else 0)
                    + (if bool_decide (g ∈ target_groups (relations_at st' pk))
                       then 1 else 0))
              <$> counter_of st g).
Proof.
  intros Hid Hrow Hperm Hdraft.
  destruct (publish_returns self row user st pk Hid Hrow Hperm Hdraft)
    as (self' & st' & Hrun & Hpub & Hst & Hid' & Q & D & R & O & SG & C).
  exists self', st'. split; [exact Hrun|].
  split; [exact Hpub|]. split; [exact Hst|].
  split; [rewrite Q; by rewrite lookup_insert_eq|].
  assert (Hnone : drafts st' !! pk = None)
    by (rewrite D; by rewrite lookup_delete_eq).
  split; [exact Hnone|].
  split.
  { unfold ReviewRequest_can_publish, draft_of. rewrite Hpub, Hid'. simpl.
    rewrite Hnone. by rewrite bool_decide_eq_false_2 by (intros Hne; by apply Hne). }
  split; [exact R|]. split; [exact SG|exact C].
Qed.

End PublishTheorems.

Lemma draft_publish_takes_draft_witness :
  ∃ rr' result st',
    ReviewRequestDraft_publish (H := Reference.builtins) Samples.edited_draft
      (Some (Reference.request "")) None true Samples.store_with_edited_draft
    = (inr (rr', result), st')
    ∧ review_requests st' !! 2%nat = Some rr'
    ∧ RR.summary rr' = "New title"
    ∧ RR.bugs_closed rr' = "12, 7"
    ∧ target_groups (relations_at st' 2) = {[ 7%nat ]}
    ∧ signals st'
      = [review_request_published rr' Reference.alice result].
Proof.
  destruct (draft_publish_takes_draft (H0 := Reference.builtins)
              Samples.edited_draft (Reference.request "") None true
              Samples.store_with_edited_draft 2%nat)
    as (rr' & result & st' & Hrun & Hrow & Hsum & _ & _ & _ & Hbugs & _ & _ & _
        & Hrel & _ & _ & _ & _ & _ & Hsig).
  - reflexivity.
  - intros k Hk. discriminate Hk.
  - exists rr', result, st'. split; [exact Hrun|]. split; [exact Hrow|].
    split; [rewrite Hsum; vm_compute; reflexivity|].
    split; [rewrite Hbugs; vm_compute; reflexivity|].
    split; [rewrite Hrel; vm_compute; reflexivity|].
    rewrite Hsig. reflexivity.
Defined.

(** Alice publishes her pending request for the first time: it is
    public, group 7 is its target and counts it. *)
Lemma publish_makes_public_witness :
  ∃ self' st',
    ReviewRequest_publish (H := Reference.permissive) (H0 := Reference.builtins)
      (Reference.request "") (Some Reference.alice)
      Samples.store_with_edited_draft = (inr self', st')
    ∧ RR.public self' = true
    ∧ drafts st' !! 2%nat = None
    ∧ ReviewRequest_can_publish st' self' = false
    ∧ counter_of st' 7 = Some 1.
Proof.
  destruct (publish_makes_public (H := Reference.permissive)
              (H0 := Reference.builtins) (Reference.request "")
              (Reference.request "") Reference.alice
              Samples.store_with_edited_draft 2%nat)
    as (self' & st' & Hrun & Hpub & _ & _ & Hnone & Hcan & Hrel & _ & Hcount).
  - reflexivity.
  - reflexivity.
  - reflexivity.
  - intros d Hd. injection Hd as <-. split; [reflexivity|].
    intros k Hk. discriminate Hk.
  - exists self', st'. split; [exact Hrun|]. split; [exact Hpub|].
    split; [exact Hnone|]. split; [exact Hcan|].
    rewrite (Hcount eq_refl), Hrel. vm_compute. reflexivity.
Defined.

(** ** The counter of a group stays right *)

Section Recompute.

Lemma filter_ext_Forall {A} (P1 P2 : A → Prop)
    `{∀ x, Decision (P1 x)} `{∀ x, Decision (P2 x)} (l : list A) :
  Forall (λ x, P1 x ↔ P2 x) l → filter P1 l = filter P2 l.
Proof.
  induction 1 as [|x l Hx Hl IH]; [done|].
  rewrite !filter_cons. rewrite IH.
  destruct (decide (P1 x)), (decide (P2 x)); tauto.
Qed.

(** The number of counted requests when one row and its relations are
    replaced. *)
Lemma recompute_update (st st' : Store) (pk : nat) (row row' : RR.t) (g : nat) :
  review_requests st !! pk = Some row →
  review_requests st' = <[pk := row']> (review_requests st) →
  (∀ k, k ≠ pk → rr_relations st' !! k = rr_relations st !! k) →
  recompute public_and_pending st' g
  = recompute public_and_pending st g
    - counts_for row (target_groups (relations_at st pk)) g
    + counts_for row' (target_groups (relations_at st' pk)) g.
Proof.
  intros Hrow Hq Hother. unfold recompute.
  set (P := λ kr : nat * RR.t,
         public_and_pending kr.2 = true
         ∧ g ∈ target_groups (default no_relations (rr_relations st !! kr.1))).
  set (P' := λ kr : nat * RR.t,
         public_and_pending kr.2 = true
         ∧ g ∈ target_groups (default no_relations (rr_relations st' !! kr.1))).
  set (rest := map_to_list (delete pk (review_requests st))).
  assert (H1 : map_to_list (review_requests st) ≡ₚ (pk, row) :: rest)
    by (symmetry; by apply map_to_list_delete).
  assert (H2 : map_to_list (review_requests st') ≡ₚ (pk, row') :: rest).
  { rewrite Hq, <- insert_delete_eq.
    apply map_to_list_insert, lookup_delete_eq. }
  assert (Hrest : filter P' rest = filter P rest).
  { apply filter_ext_Forall. apply Forall_forall. intros [k r] Hin.
    apply elem_of_map_to_list in Hin.
    assert (k ≠ pk) by (intros ->; by rewrite lookup_delete_eq in Hin).
    unfold P, P'. simpl. by rewrite Hother. }
  rewrite (Permutation_length (filter_Permutation P' _ _ H2)).
  rewrite (Permutation_length (filter_Permutation P _ _ H1)).
  rewrite !filter_cons, Hrest.
  unfold counts_for, relations_at.
  destruct (decide (P (pk, row))) as [[Hv Hg]|Hno];
    destruct (decide (P' (pk, row'))) as [[Hv' Hg']|Hno']; simpl in *.
  - rewrite Hv, Hv'. rewrite !bool_decide_eq_true_2 by done. simpl. lia.
  - rewrite Hv. rewrite bool_decide_eq_true_2 by done. simpl.
    destruct (public_and_pending row') eqn:Hpp; simpl.
    + rewrite bool_decide_eq_false_2; [lia|]. intros Hin. by apply Hno'.
    + lia.
  - rewrite Hv'. rewrite (bool_decide_eq_true_2 _ Hg'). simpl.
    destruct (public_and_pending row) eqn:Hpp; simpl.
    + rewrite bool_decide_eq_false_2; [lia|]. intros Hin. by apply Hno.
    + lia.
  - destruct (public_and_pending row) eqn:Hpp,
      (public_and_pending row') eqn:Hpp'; simpl;
      rewrite ?bool_decide_eq_false_2; try lia;
      intros Hin; (by apply Hno) || (by apply Hno').
Qed.

(** The number of counted requests when one row is deleted. *)
Lemma recompute_delete (st st' : Store) (pk : nat) (row : RR.t) (g : nat) :
  review_requests st !! pk = Some row →
  review_requests st' = delete pk (review_requests st) →
  (∀ k, k ≠ pk → rr_relations st' !! k = rr_relations st !! k) →
  recompute public_and_pending st' g
  = recompute public_and_pending st g
    - counts_for row (target_groups (relations_at st pk)) g.
Proof.
  intros Hrow Hq Hother. unfold recompute.
  set (P := λ kr : nat * RR.t,
         public_and_pending kr.2 = true
         ∧ g ∈ target_groups (default no_relations (rr_relations st !! kr.1))).
  set (P' := λ kr : nat * RR.t,
         public_and_pending kr.2 = true
         ∧ g ∈ target_groups (default no_relations (rr_relations st' !! kr.1))).
  set (rest := map_to_list (delete pk (review_requests st))).
  assert (H1 : map_to_list (review_requests st) ≡ₚ (pk, row) :: rest)
    by (symmetry; by apply map_to_list_delete).
  assert (Hrest : filter P' rest = filter P rest).
  { apply filter_ext_Forall. apply Forall_forall. intros [k r] Hin.
    apply elem_of_map_to_list in Hin.
    assert (k ≠ pk) by (intros ->; by rewrite lookup_delete_eq in Hin).
    unfold P, P'. simpl. by rewrite Hother. }
  rewrite Hq. fold rest. rewrite Hrest.
  rewrite (Permutation_length (filter_Permutation P _ _ H1)).
  rewrite filter_cons.
  unfold counts_for, relations_at.
  destruct (decide (P (pk, row))) as [[Hv Hg]|Hno]; simpl in *.
  - rewrite Hv. rewrite bool_decide_eq_true_2 by done. simpl. lia.
  - destruct (public_and_pending row) eqn:Hpp; simpl;
      rewrite ?bool_decide_eq_false_2; try lia.
    intros Hin. by apply Hno.
Qed.

(** A counter that is right stays right when it moves as the number of
    counted requests does. *)
Lemma counted_moves (st st' : Store) (g : nat) (f : Z → Z) :
  counted st g →
  counter_of st' g = f <$> counter_of st g →
  recompute public_and_pending st' g = f (recompute public_and_pending st g) →
  counted st' g.
Proof.
  unfold counted. intros Hc Hcounter Hrecompute.
  rewrite Hcounter, Hc, Hrecompute. reflexivity.
Qed.

(** The counters after [counter_add]'s pass over the groups. *)
Lemma counter_after_add (st : Store) (targets : gset nat) (delta : Z) (g : nat) :
  incoming_request_count
    <$> map_imap (λ k grp,
          Some (if decide (k ∈ targets)
                then set_incoming_request_count (λ n, n + delta) grp
                else grp)) (groups st) !! g
  = (λ n, n + (if bool_decide (g ∈ targets) then delta else 0))
    <$> counter_of st g.
Proof.
  unfold counter_of. rewrite map_lookup_imap.
  destruct (groups st !! g) as [grp|]; [|done]. simpl.
  destruct (decide (g ∈ targets)).
  - by rewrite bool_decide_eq_true_2.
  - rewrite bool_decide_eq_false_2 by done. simpl. f_equal. lia.
Qed.

Lemma counter_unchanged (st : Store) (g : nat) :
  counter_of st g = (λ n, n + 0) <$> counter_of st g.
Proof. destruct (counter_of st g); simpl; [f_equal; lia|done]. Qed.

End Recompute.

Section KeepsCount.
Context `{Auth} `{Builtins}.

(** X17: publishing keeps the counters right: for a pending request
    loaded from the store, whose draft (if any) is well formed,
    [ReviewRequest.publish] by a user who may edit returns, and the
    counter of every group that was the number of public pending
    requests targeting the group still is. *)
Theorem publish_keeps_count (self : RR.t) (user : User) (st : Store)
    (pk g : nat) :
  RR.id self = Some pk →
  review_requests st !! pk = Some self →
  RR.status self = PENDING_REVIEW →
  ReviewRequest_is_mutable_by self user = true →
  (∀ d, drafts st !! pk = Some d →
        Draft.review_request d = pk
        ∧ ∀ k, Draft.diffset d = Some k → is_Some (diffsets st !! k)) →
  counted st g →
  ∃ self' st',
    ReviewRequest_publish self (Some user) st = (inr self', st')
    ∧ counted st' g.
Proof.
  intros Hid Hrow Hpending Hperm Hdraft Hcounted.
  destruct (publish_returns self self user st pk Hid Hrow Hperm Hdraft)
    as (self' & st' & Hrun & Hpub & Hst & Hid' & Q & D & R & O & SG & C).
  exists self', st'. split; [exact Hrun|].
  eapply counted_moves; [exact Hcounted|exact (C Hpending g)|].
  rewrite (recompute_update st st' pk self self' g Hrow Q O).
  unfold counts_for, public_and_pending.
  rewrite Hpub, Hst, Hpending. simpl. rewrite andb_true_r.
  destruct (RR.public self && _), (bool_decide _); lia.
Qed.

(** [close] to another status, on a request that has a row: the row
    and the counters afterwards. *)
Lemma close_counting (self row : RR.t) (type : string) (user : option User)
    (description : option string) (st : Store) (pk : nat) :
  RR.id self = Some pk →
  review_requests st !! pk = Some row →
  status_change_denied self user = false →
  type = SUBMITTED ∨ type = DISCARDED →
  RR.status self ≠ type →
  returns (ReviewRequest_close self type user description) st
    (λ self' st',
       self' = saved_columns (RR.with_status type self)
       ∧ review_requests st' = <[pk := self']> (review_requests st)
       ∧ rr_relations st' = rr_relations st
       ∧ ∀ g, counter_of st' g
              = (λ n, n + (if bool_decide
                                (g ∈ target_groups (relations_at st pk))
                           then (if RR.public row then -1 else 0) else 0))
                <$> counter_of st g).
Proof.
  intros Hid Hrow Hperm Htype Hne.
  assert (Hvalid : negb (String.eqb type SUBMITTED || String.eqb type DISCARDED)
                   = false)
    by (destruct Htype as [-> | ->]; reflexivity).
  assert (Hnotpending : String.eqb type PENDING_REVIEW = false)
    by (destruct Htype as [-> | ->]; reflexivity).
  unfold returns, ReviewRequest_close. rewrite Hperm, Hvalid.
  apply String.eqb_neq in Hne. rewrite Hne. simpl negb. cbv iota.
  unfold ChangeDescription_new, ChangeDescription_save, changedescs_add,
    ReviewRequest_save, ReviewRequest_update_counts,
    ReviewRequest_objects_get, Model_save, delete_draft_if_any, draft_of,
    ReviewRequestDraft_delete, counter_add, relations_of.
  run_monad. rewrite Hid. simpl. rewrite Hrow. simpl.
  rewrite Hnotpending. simpl. rewrite ?Hid. simpl.
  fold (relations_at st pk).
  destruct (RR.public row); simpl; rewrite ?Hid; simpl;
    destruct (drafts st !! pk) as [d|] eqn:Hd; simpl;
    (eexists _, _; split; [reflexivity|]); simpl;
    repeat (split; [reflexivity|]); intros g; unfold counter_of at 1; simpl;
    try apply counter_after_add;
    fold (counter_of st g); destruct (bool_decide _); apply counter_unchanged.
Qed.

(** X18: closing keeps the counters right: for a pending request loaded
    from the store, [close] as submitted or discarded by a permitted
    user (or none) returns, and the counter of every group that was the
    number of public pending requests targeting the group still is. *)
Theorem close_keeps_count (self : RR.t) (type : string) (user : option User)
    (description : option string) (st : Store) (pk g : nat) :
  RR.id self = Some pk →
  review_requests st !! pk = Some self →
  RR.status self = PENDING_REVIEW →
  status_change_denied self user = false →
  type = SUBMITTED ∨ type = DISCARDED →
  counted st g →
  ∃ self' st',
    ReviewRequest_close self type user description st = (inr self', st')
    ∧ RR.status self' = type
    ∧ counted st' g.
Proof.
  intros Hid Hrow Hpending Hperm Htype Hcounted.
  destruct (close_counting self self type user description st pk Hid Hrow
              Hperm Htype) as (self' & st' & Hrun & Hself' & Q & R & C).
  { rewrite Hpending. destruct Htype as [-> | ->]; discriminate. }
  exists self', st'. split; [exact Hrun|].
  split; [by rewrite Hself'|].
  eapply counted_moves; [exact Hcounted|exact (C g)|].
  rewrite (recompute_update st st' pk self self' g Hrow Q)
    by (intros k _; by rewrite R).
  rewrite (relations_at_same st st' pk R).
  unfold counts_for, public_and_pending. rewrite Hself'. simpl.
  rewrite Hpending.
  assert (Hnotpending : String.eqb type PENDING_REVIEW = false)
    by (destruct Htype as [-> | ->]; reflexivity).
  rewrite Hnotpending. simpl. rewrite !andb_true_r, andb_false_r. simpl.
  destruct (RR.public self), (bool_decide _); simpl; lia.
Qed.

(** [reopen] of a request that is not pending and has a row: the row
    and the counters afterwards. *)
Lemma reopen_counting (self row : RR.t) (user : option User) (st : Store)
    (pk : nat) :
  RR.id self = Some pk →
  review_requests st !! pk = Some row →
  status_change_denied self user = false →
  RR.status self ≠ PENDING_REVIEW →
  returns (ReviewRequest_reopen self user) st
    (λ self' st',
       self' = saved_columns
                 (RR.with_status PENDING_REVIEW
                    (if String.eqb (RR.status self) DISCARDED
                     then RR.with_public false self else self))
       ∧ review_requests st' = <[pk := self']> (review_requests st)
       ∧ rr_relations st' = rr_relations st
       ∧ ∀ g, counter_of st' g
              = (λ n, n + (if bool_decide
                                (g ∈ target_groups (relations_at st pk))
                           then (if RR.public self' then 1 else 0) else 0))
                <$> counter_of st g).
Proof.
  intros Hid Hrow Hperm Hne.
  unfold returns, ReviewRequest_reopen. rewrite Hperm.
  apply String.eqb_neq in Hne. rewrite Hne. simpl negb. cbv iota.
  destruct (String.eqb (RR.status self) DISCARDED) eqn:Hdiscarded.
  - unfold ChangeDescription_new, ChangeDescription_save,
      ReviewRequestDraft_create, ReviewRequestDraft_save, ReviewRequest_save,
      ReviewRequest_update_counts, ReviewRequest_objects_get, Model_save,
      counter_add, relations_of.
    run_monad. rewrite ?Hid. simpl. rewrite ?Hid. simpl.
    destruct (drafts st !! pk) as [d|] eqn:Hd; simpl;
      rewrite ?andb_false_r; simpl;
      rewrite ?Hid; simpl; rewrite ?Hrow; simpl;
      (eexists _, _; split; [reflexivity|]); simpl;
      repeat (split; [reflexivity|]); intros g; unfold counter_of at 1; simpl;
      fold (counter_of st g); destruct (bool_decide _); apply counter_unchanged.
  - unfold ChangeDescription_new, ChangeDescription_save, changedescs_add,
      ReviewRequest_save, ReviewRequest_update_counts,
      ReviewRequest_objects_get, Model_save, counter_add, relations_of.
    run_monad. rewrite ?Hid. simpl. rewrite ?Hrow. simpl.
    fold (relations_at st pk).
    destruct (RR.public self) eqn:Hpub; simpl;
      (eexists _, _; split; [reflexivity|]); simpl;
      repeat (split; [reflexivity|]); intros g; unfold counter_of at 1; simpl;
      rewrite ?Hpub; try apply counter_after_add;
      fold (counter_of st g); destruct (bool_decide _); apply counter_unchanged.
Qed.

(** X19: reopening keeps the counters right: for a request loaded from
    the store, whatever its status, [reopen] by a permitted user (or
    none) returns a pending request, and the counter of every group that
    was the number of public pending requests targeting the group still
    is. *)
Theorem reopen_keeps_count (self : RR.t) (user : option User) (st : Store)
    (pk g : nat) :
  RR.id self = Some pk →
  review_requests st !! pk = Some self →
  status_change_denied self user = false →
  counted st g →
  ∃ self' st',
    ReviewRequest_reopen self user st = (inr self', st')
    ∧ RR.status self' = PENDING_REVIEW
    ∧ counted st' g.
Proof.
  intros Hid Hrow Hperm Hcounted.
  destruct (String.eqb_spec (RR.status self) PENDING_REVIEW) as [Hpending|Hne].
  - exists self. eexists. unfold ReviewRequest_reopen. rewrite Hperm, Hpending.
    split; [reflexivity|]. split; [done|]. exact Hcounted.
  - destruct (reopen_counting self self user st pk Hid Hrow Hperm Hne)
      as (self' & st' & Hrun & Hself' & Q & R & C).
    exists self', st'. split; [exact Hrun|].
    split; [by rewrite Hself'|].
    eapply counted_moves; [exact Hcounted|exact (C g)|].
    rewrite (recompute_update st st' pk self self' g Hrow Q)
      by (intros k _; by rewrite R).
    rewrite (relations_at_same st st' pk R).
    unfold counts_for, public_and_pending.
    apply String.eqb_neq in Hne. rewrite Hne, andb_false_r. simpl.
    assert (Hst' : RR.status self' = PENDING_REVIEW) by by rewrite Hself'.
    rewrite Hst'. simpl. rewrite andb_true_r.
    destruct (RR.public self'), (bool_decide _); simpl; lia.
Qed.

(** [delete] on a request that has a key: the rows and the counters
    afterwards. *)
Lemma delete_counting (self : RR.t) (st : Store) (pk : nat) :
  RR.id self = Some pk →
  returns (ReviewRequest_delete self) st
    (λ _ st',
       review_requests st' = delete pk (review_requests st)
       ∧ (∀ k, k ≠ pk → rr_relations st' !! k = rr_relations st !! k)
       ∧ ∀ g, counter_of st' g
              = (λ n, n + (if bool_decide
                                (g ∈ target_groups (relations_at st pk))
                           then (if RR.public self then -1 else 0) else 0))
                <$> counter_of st g).
Proof.
  intros Hid.
  unfold returns, ReviewRequest_delete, counter_add, relations_of.
  run_monad. rewrite Hid. fold (relations_at st pk).
  destruct (RR.public self); simpl;
    (eexists _, _; split; [reflexivity|]); simpl;
    (split; [reflexivity|]);
    (split; [intros k Hk; by rewrite lookup_delete_ne|]);
    intros g; unfold counter_of at 1; simpl;
    try apply counter_after_add;
    fold (counter_of st g); destruct (bool_decide _); apply counter_unchanged.
Qed.

(** X20: deleting a pending request keeps the counters right: for a
    pending request loaded from the store, [delete] returns, and the
    counter of every group that was the number of public pending
    requests targeting the group still is. *)
Theorem delete_keeps_count (self : RR.t) (st : Store) (pk g : nat) :
  RR.id self = Some pk →
  review_requests st !! pk = Some self →
  RR.status self = PENDING_REVIEW →
  counted st g →
  ∃ st',
    ReviewRequest_delete self st = (inr (), st')
    ∧ review_requests st' !! pk = None
    ∧ counted st' g.
Proof.
  intros Hid Hrow Hpending Hcounted.
  destruct (delete_counting self st pk Hid) as ([] & st' & Hrun & Q & O & C).
  exists st'. split; [exact Hrun|].
  split; [rewrite Q; by rewrite lookup_delete_eq|].
  eapply counted_moves; [exact Hcounted|exact (C g)|].
  rewrite (recompute_delete st st' pk self g Hrow Q O).
  unfold counts_for, public_and_pending. rewrite Hpending. simpl.
  rewrite andb_true_r.
  destruct (RR.public self), (bool_decide _); simpl; lia.
Qed.

(** Saving a reopened copy of a saved, submitted copy of a pending
    request gives the columns of a first save. *)
Lemma saved_columns_reopened (self : RR.t) :
  RR.status self = PENDING_REVIEW →
  saved_columns
    (RR.with_status PENDING_REVIEW
       (saved_columns (RR.with_status SUBMITTED self)))
  = saved_columns self.
Proof.
  intros Hpending. destruct self. simpl in Hpending. subst.
  unfold saved_columns. simpl.
  rewrite strip_idempotent.
  by rewrite truncate_idempotent by (unfold MAX_SUMMARY_LENGTH; lia).
Qed.

(** X21: submitting a pending request and reopening it undoes the
    change: both calls return for a permitted user (or none), the
    request is stored pending again with the columns [save] gives the
    original, its relations are as before, and every counter has the
    value from before the two calls. *)
Theorem close_then_reopen (self : RR.t) (user : option User)
    (description : option string) (st : Store) (pk : nat) :
  RR.id self = Some pk →
  review_requests st !! pk = Some self →
  RR.status self = PENDING_REVIEW →
  status_change_denied self user = false →
  ∃ closed st1 reopened st2,
    ReviewRequest_close self SUBMITTED user description st = (inr closed, st1)
    ∧ RR.status closed = SUBMITTED
    ∧ ReviewRequest_reopen closed user st1 = (inr reopened, st2)
    ∧ reopened = saved_columns self
    ∧ review_requests st2 = <[pk := reopened]> (review_requests st)
    ∧ rr_relations st2 = rr_relations st
    ∧ ∀ g, counter_of st2 g = counter_of st g.
Proof.
  intros Hid Hrow Hpending Hperm.
  destruct (close_counting self self SUBMITTED user description st pk Hid Hrow
              Hperm (or_introl eq_refl))
    as (closed & st1 & Hrun1 & Hclosed & Q1 & R1 & C1);
    [by rewrite Hpending|].
  assert (Hstatus : RR.status closed = SUBMITTED) by by rewrite Hclosed.
  destruct (reopen_counting closed closed user st1 pk)
    as (reopened & st2 & Hrun2 & Hreopened & Q2 & R2 & C2).
  { by rewrite Hclosed. }
  { by rewrite Q1, lookup_insert_eq. }
  { exact Hperm. }
  { by rewrite Hstatus. }
  rewrite Hstatus in Hreopened. simpl in Hreopened.
  rewrite Hclosed, (saved_columns_reopened self Hpending) in Hreopened.
  exists closed, st1, reopened, st2.
  split; [exact Hrun1|]. split; [exact Hstatus|]. split; [exact Hrun2|].
  split; [exact Hreopened|].
  split; [by rewrite Q2, Q1, insert_insert_eq|].
  split; [by rewrite R2, R1|].
  intros g. rewrite (C2 g), (C1 g), (relations_at_same st st1 pk R1).
  assert (Hpublic : RR.public reopened = RR.public self) by by rewrite Hreopened.
  rewrite Hpublic.
  destruct (counter_of st g) as [n|]; [|done]. simpl. f_equal.
  destruct (bool_decide _), (RR.public self); lia.
Qed.

End KeepsCount.

(** Alice publishes her pending request for the first time: the counter
    of group 7, right before, is right afterwards. *)
Lemma publish_keeps_count_witness :
  ∃ self' st',
    ReviewRequest_publish (H := Reference.permissive) (H0 := Reference.builtins)
      (Reference.request "") (Some Reference.alice)
      Samples.store_with_edited_draft = (inr self', st')
    ∧ counted st' 7.
Proof.
  apply (publish_keeps_count (H := Reference.permissive)
           (H0 := Reference.builtins) (Reference.request "") Reference.alice
           Samples.store_with_edited_draft 2%nat 7%nat).
  - reflexivity.
  - reflexivity.
  - reflexivity.
  - reflexivity.
  - intros d Hd. injection Hd as <-. split; [reflexivity|].
    intros k Hk. discriminate Hk.
  - unfold counted. vm_compute. reflexivity.
Defined.

(** The public request of alice, counted by group 7, is submitted: the
    counter is still right. *)
Lemma close_keeps_count_witness :
  ∃ self' st',
    ReviewRequest_close (H := Reference.permissive) Reference.public_request
      SUBMITTED None None Samples.targeted_store = (inr self', st')
    ∧ RR.status self' = SUBMITTED
    ∧ counted st' 7.
Proof.
  apply (close_keeps_count (H := Reference.permissive)
           Reference.public_request SUBMITTED None None
           Samples.targeted_store 2%nat 7%nat).
  - reflexivity.
  - reflexivity.
  - reflexivity.
  - reflexivity.
  - by left.
  - unfold counted. vm_compute. reflexivity.
Defined.

(** The submitted request of alice is reopened: group 7 counts it
    again, and the counter is right. *)
Lemma reopen_keeps_count_witness :
  ∃ self' st',
    ReviewRequest_reopen (H := Reference.permissive)
      (RR.with_status SUBMITTED Reference.public_request) None
      Samples.submitted_store = (inr self', st')
    ∧ RR.status self' = PENDING_REVIEW
    ∧ counted st' 7.
Proof.
  apply (reopen_keeps_count (H := Reference.permissive)
           (RR.with_status SUBMITTED Reference.public_request) None
           Samples.submitted_store 2%nat 7%nat).
  - reflexivity.
  - reflexivity.
  - reflexivity.
  - unfold counted. vm_compute. reflexivity.
Defined.

(** The public request of alice, counted by group 7, is deleted: its
    row is gone and the counter is right. *)
Lemma delete_keeps_count_witness :
  ∃ st',
    ReviewRequest_delete Reference.public_request Samples.targeted_store
    = (inr (), st')
    ∧ review_requests st' !! 2%nat = None
    ∧ counted st' 7.
Proof.
  apply (delete_keeps_count Reference.public_request Samples.targeted_store
           2%nat 7%nat).
  - reflexivity.
  - reflexivity.
  - reflexivity.
  - unfold counted. vm_compute. reflexivity.
Defined.

(** The public request of alice, counted by group 7, is submitted and
    reopened: it is stored as before and the counter is 1 again. *)
Lemma close_then_reopen_witness :
  ∃ closed st1 reopened st2,
    ReviewRequest_close (H := Reference.permissive) Reference.public_request
      SUBMITTED None None Samples.targeted_store = (inr closed, st1)
    ∧ counter_of st1 7 = Some 0
    ∧ ReviewRequest_reopen (H := Reference.permissive) closed None st1
      = (inr reopened, st2)
    ∧ reopened = Reference.public_request
    ∧ counter_of st2 7 = Some 1.
Proof.
  destruct (close_then_reopen (H := Reference.permissive)
              Reference.public_request None None Samples.targeted_store 2%nat)
    as (closed & st1 & reopened & st2 & Hrun1 & _ & Hrun2 & Hreopened & _ & _
        & Hcount).
  - reflexivity.
  - reflexivity.
  - reflexivity.
  - reflexivity.
  - exists closed, st1, reopened, st2. split; [exact Hrun1|].
    split; [injection Hrun1 as _ <-; vm_compute; reflexivity|].
    split; [exact Hrun2|]. split; [rewrite Hreopened; vm_compute; reflexivity|].
    rewrite Hcount. vm_compute. reflexivity.
Defined.

(** ** The draft that [get_draft] hands out *)

Section GetDraft.

(** X22: the draft that [ReviewRequestDraft.create] stores for a
    request without draft is the one [get_draft] returns afterwards:
    to a caller that names no user, and to a user exactly when the user
    is logged in and is the submitter of the stored request; before the
    call [get_draft] returns nothing to anybody. *)
Theorem get_draft_after_create (review_request row : RR.t) (st : Store)
    (pk : nat) :
  RR.id review_request = Some pk →
  review_requests st !! pk = Some row →
  drafts st !! pk = None →
  (∀ user, ReviewRequest_get_draft st review_request user = None)
  ∧ ∃ draft st',
      ReviewRequestDraft_create review_request st = (inr draft, st')
      ∧ ReviewRequest_get_draft st' review_request None = Some draft
      ∧ ∀ user,
          ReviewRequest_get_draft st' review_request (Some user)
          = if is_authenticated user && user_eqb (RR.submitter row) user
            then Some draft else None.
Proof.
  intros Hid Hrow Hnone. split.
  - intros [user|]; unfold ReviewRequest_get_draft, draft_of;
      rewrite Hid; simpl; rewrite Hnone; [by destruct (is_authenticated user)|done].
  - unfold ReviewRequestDraft_create, ReviewRequestDraft_save,
      ChangeDescription_new, ChangeDescription_save.
    rewrite Hid. run_monad. rewrite Hnone. simpl.
    destruct (RR.public review_request) eqn:Hpub; simpl;
      (eexists; eexists; split; [reflexivity|]);
      unfold ReviewRequest_get_draft, draft_of; rewrite Hid; simpl;
      rewrite ?lookup_insert_eq; simpl;
      rewrite ?strip_idempotent;
      rewrite ?truncate_idempotent by (unfold MAX_SUMMARY_LENGTH; lia);
      (split; [reflexivity|]); intros user; rewrite Hrow;
      by destruct (is_authenticated user), (user_eqb (RR.submitter row) user).
Qed.

End GetDraft.

(** Alice's request gets a draft: alice and a caller without user get
    it from [get_draft], bob and an anonymous visitor do not. *)
Lemma get_draft_after_create_witness :
  ∃ draft st',
    ReviewRequestDraft_create (Reference.request "")
      (Reference.store_with (Reference.request "")) = (inr draft, st')
    ∧ ReviewRequest_get_draft st' (Reference.request "") None = Some draft
    ∧ ReviewRequest_get_draft st' (Reference.request "") (Some Reference.alice)
      = Some draft
    ∧ ReviewRequest_get_draft st' (Reference.request "") (Some Reference.bob)
      = None
    ∧ ReviewRequest_get_draft st' (Reference.request "") (Some AnonymousUser)
      = None.
Proof.
  destruct (get_draft_after_create (Reference.request "") (Reference.request "")
              (Reference.store_with (Reference.request "")) 2%nat)
    as (_ & draft & st' & Hrun & Hnone & Huser).
  - reflexivity.
  - reflexivity.
  - reflexivity.
  - exists draft, st'. split; [exact Hrun|]. split; [exact Hnone|].
    split; [exact (Huser Reference.alice)|].
    split; [exact (Huser Reference.bob)|exact (Huser AnonymousUser)].
Defined.
